(** * SharePoint -> Salsify integration: the polling engine, embedded in Rocq

    Shallow embedding of
      - [src/auth/azure_auth.py]        (AzureAuthenticator.get_access_token)
      - [src/processors/file_processor.py] (FileProcessor)
      - [src/main.py]                   (run_daemon: the poll loop and its breaker)

    Conventions of the embedding.
      - A Python call either returns or raises: [result A].
      - Collaborators (MSAL, the two HTTP connectors, the file system, the
        clock) are not computed; each call of the embedded code receives the
        answers its collaborators give during that call, and reports the
        calls it made as a list of events.
      - Clock readings ([time.time()]) and durations are integers ([Z]):
        the code only adds and compares them.
      - Python dicts used as maps are [gmap]s; the dicts returned by
        [process_file] are a tagged union. *)

From Stdlib Require Import ZArith Lia Ascii String List Bool.
From stdpp Require Import base tactics option list sorting strings gmap pretty.

Local Open Scope Z_scope.

(** ** Python values, exceptions, results *)

(** The JSON-like values that occur in the dicts returned by MSAL and by the
    catalog: [None], strings and integers. *)
Inductive pyval : Type :=
  | PNone
  | PStr (s : string)
  | PInt (z : Z).

(** A Python dict with string keys. *)
Abbreviation pydict := (gmap string pyval).

(** An exception: its class name and [str(ex)]. *)
Inductive exn : Type :=
  | Exn (cls : string) (text : string).

Definition exn_text (e : exn) : string :=
  match e with Exn _ t => t end.

Definition exn_cls (e : exn) : string :=
  match e with Exn c _ => c end.

Inductive result (A : Type) : Type :=
  | Ret (a : A)
  | Raise (e : exn).
Arguments Ret {A} a.
Arguments Raise {A} e.

Definition is_raise {A} (r : result A) : bool :=
  match r with Raise _ => true | Ret _ => false end.

(** Truthiness of a value, as used by [or] and [if]. *)
Definition truthy (v : pyval) : bool :=
  match v with
  | PNone => false
  | PStr s => negb (String.eqb s "")
  | PInt z => negb (z =? 0)
  end.

(** [str(v)], as used by f-strings. *)
Definition py_str (v : pyval) : string :=
  match v with
  | PNone => "None"
  | PStr s => s
  | PInt z => pretty z
  end.

(** [d.get(k)]: [None] when the key is absent. *)
Definition dict_get (d : pydict) (k : string) : pyval :=
  match d !! k with Some v => v | None => PNone end.

(** [a or b] *)
Definition py_or (a b : pyval) : pyval := if truthy a then a else b.

(** A dict is truthy when it is not empty. *)
Definition dict_truthy (d : pydict) : bool := negb (bool_decide (d = ∅)).

(** ** Strings and paths *)

Module PyString.

(** [s.split(sep)] for a one-character separator: never empty. *)
Fixpoint split (sep : ascii) (s : string) : list string :=
  match s with
  | EmptyString => [EmptyString]
  | String c r =>
      if Ascii.eqb c sep then EmptyString :: split sep r
      else match split sep r with
           | h :: t => String c h :: t
           | [] => [String c EmptyString]
           end
  end.

(** [s.rfind(c)], [None] standing for [-1]. *)
Fixpoint rfind (c : ascii) (s : string) : option nat :=
  match s with
  | EmptyString => None
  | String a r =>
      match rfind c r with
      | Some i => Some (S i)
      | None => if Ascii.eqb a c then Some 0%nat else None
      end
  end.

(** [s.lower()] on the ASCII letters. *)
Definition lower_ascii (a : ascii) : ascii :=
  let n := nat_of_ascii a in
  if ((65 <=? n) && (n <=? 90))%nat then ascii_of_nat (n + 32) else a.

Fixpoint lower (s : string) : string :=
  match s with
  | EmptyString => EmptyString
  | String a r => String (lower_ascii a) (lower r)
  end.

(** [s[i:]] and [s[:i]] for [0 <= i]. *)
Definition drop_str (i : nat) (s : string) : string :=
  String.substring i (String.length s - i) s.
Definition take_str (i : nat) (s : string) : string :=
  String.substring 0 i s.

(** [c in s] for a character. *)
Fixpoint contains (c : ascii) (s : string) : bool :=
  match s with
  | EmptyString => false
  | String a r => Ascii.eqb a c || contains c r
  end.

(** [s.endswith(suffix)] *)
Definition endswith (s suffix : string) : bool :=
  (String.length suffix <=? String.length s)%nat
  && String.eqb (drop_str (String.length s - String.length suffix) s) suffix.

End PyString.

(** [pathlib.PurePosixPath]: the properties the processor reads. *)
Module PyPath.

(** [Path(p).name]: the last component; empty components and [.] are
    dropped when the path is parsed. *)
Definition keep_part (c : string) : bool :=
  negb (String.eqb c "") && negb (String.eqb c ".").

Definition name (p : string) : string :=
  List.last (List.filter keep_part (PyString.split "/"%char p)) "".

(** The position of the dot that starts the suffix: [0 < i < len - 1]. *)
Definition suffix_dot (n : string) : option nat :=
  match PyString.rfind "."%char n with
  | Some i =>
      if ((0 <? i) && (i <? String.length n - 1))%nat then Some i else None
  | None => None
  end.

Definition suffix (p : string) : string :=
  let n := name p in
  match suffix_dot n with
  | Some i => PyString.drop_str i n
  | None => ""
  end.

Definition stem (p : string) : string :=
  let n := name p in
  match suffix_dot n with
  | Some i => PyString.take_str i n
  | None => n
  end.

End PyPath.

(** ** Programs: state, exceptions and a trace of collaborator calls

    [prog S E A] is a piece of Python code that runs against a mutable object
    of type [S] (the [self] of a method, or the locals of [run_daemon]),
    calls collaborators (recorded as events of type [E]) and returns an [A]
    or raises. *)

Definition prog (S E A : Type) : Type := S -> result A * S * list E.

Definition ret {S E A} (a : A) : prog S E A :=
  fun s => (Ret a, s, []).

Definition raise {S E A} (e : exn) : prog S E A :=
  fun s => (Raise e, s, []).

Definition bind {S E A B} (m : prog S E A) (k : A -> prog S E B) : prog S E B :=
  fun s =>
    match m s with
    | (Ret a, s1, t1) =>
        match k a s1 with
        | (r, s2, t2) => (r, s2, t1 ++ t2)
        end
    | (Raise e, s1, t1) => (Raise e, s1, t1)
    end.

Notation "'let*' x ':=' m 'in' k" := (bind m (fun x => k))
  (at level 10, x pattern, m at level 200, k at level 200).

(** [try: m  except Exception as ex: h ex] *)
Definition try_except {S E A} (m : prog S E A) (h : exn -> prog S E A)
  : prog S E A :=
  fun s =>
    match m s with
    | (Ret a, s1, t1) => (Ret a, s1, t1)
    | (Raise e, s1, t1) =>
        match h e s1 with
        | (r, s2, t2) => (r, s2, t1 ++ t2)
        end
    end.

Definition get {S E} : prog S E S :=
  fun s => (Ret s, s, []).

Definition modify {S E} (f : S -> S) : prog S E unit :=
  fun s => (Ret tt, f s, []).

Definition emit {S E} (ev : E) : prog S E unit :=
  fun s => (Ret tt, s, [ev]).

(** The answer a collaborator gave: returned or raised. *)
Definition answer {S E A} (r : result A) : prog S E A :=
  fun s => (r, s, []).

(** [d[k]]: [KeyError] when the key is absent. *)
Definition dict_item {S E} (d : pydict) (k : string) : prog S E pyval :=
  match d !! k with
  | Some v => ret v
  | None => raise (Exn "KeyError" ("'" +:+ k +:+ "'"))
  end.

(** Projections of the outcome of running a program. *)
Definition res_of {S E A} (x : result A * S * list E) : result A := x.1.1.
Definition state_of {S E A} (x : result A * S * list E) : S := x.1.2.
Definition trace_of {S E A} (x : result A * S * list E) : list E := x.2.

(** [m] leaves the attribute [f] of the state as it found it. *)
Definition keeps {S E A X} (f : S -> X) (m : prog S E A) : Prop :=
  forall s, f (state_of (m s)) = f s.

(** Whatever [m] returns satisfies [Q]. *)
Definition on_return {S E A} (Q : A -> Prop) (m : prog S E A) : Prop :=
  forall s a, res_of (m s) = Ret a -> Q a.

(** [m] only moves the state along [R]. *)
Definition advances {S E A} (R : S -> S -> Prop) (m : prog S E A) : Prop :=
  forall s, R s (state_of (m s)).

(** [m] never raises, and what it returns satisfies [Q]. *)
Definition ensures {S E A} (Q : A -> Prop) (m : prog S E A) : Prop :=
  forall s, exists a, res_of (m s) = Ret a /\ Q a.

(** ** src/auth/azure_auth.py *)

Module AzureAuthenticator.

(** The attributes of the authenticator that [get_access_token] reads or
    writes.  [_lock] is held for the whole body of [get_access_token], so a
    call is one atomic transition of this state. *)
Record t : Type := mk {
  token_refresh_margin_seconds : Z;
  _cached_token : option pydict;
  _token_expiry_epoch : Z
}.

(** [__init__]: nothing cached, expiry [0.0]. *)
Definition init (margin : Z) : t :=
  {| token_refresh_margin_seconds := margin;
     _cached_token := None;
     _token_expiry_epoch := 0 |}.

Definition set_cached_token (d : pydict) (a : t) : t :=
  {| token_refresh_margin_seconds := token_refresh_margin_seconds a;
     _cached_token := Some d;
     _token_expiry_epoch := _token_expiry_epoch a |}.

Definition set_token_expiry_epoch (e : Z) (a : t) : t :=
  {| token_refresh_margin_seconds := token_refresh_margin_seconds a;
     _cached_token := _cached_token a;
     _token_expiry_epoch := e |}.

(** What the MSAL application answers during one call: the accounts it
    knows, the result of [acquire_token_silent] and the result of
    [acquire_token_for_client] ([None] is Python's [None]). *)
Record msal_app : Type := {
  accounts : list string;
  silent_result : result (option pydict);
  client_result : result (option pydict)
}.

(** The calls made on the MSAL application (the credential provider). *)
Inductive msal_call : Type :=
  | GetAccounts
  | AcquireTokenSilent (account : option string)
  | AcquireTokenForClient.

(** Truthiness of an [Optional[Dict]]: [None] and the empty dict are falsy. *)
Definition opt_truthy (r : option pydict) : bool :=
  match r with
  | None => false
  | Some d => dict_truthy d
  end.

(** Every cached dict holds an access token. *)
Definition cache_wf (a : t) : Prop :=
  forall tok, _cached_token a = Some tok -> is_Some (tok !! "access_token"%string).

(** Doubles carry 53 bits and end below [2 ^ 1024]. *)
Definition MANTISSA : Z := 2 ^ 53.
Definition DOUBLE_LIMIT : Z := 2 ^ 1024.

(** The double nearest to an integer, ties going to the even mantissa; it is
    an integer again. Exact below [2 ^ 53]. *)
Definition round_double (z : Z) : Z :=
  let a := Z.abs z in
  if a <? MANTISSA then z
  else
    let shift := Z.log2 a - 52 in
    let q := Z.shiftr a shift in
    let r := a - Z.shiftl q shift in
    let half := Z.shiftl 1 (shift - 1) in
    let q' := if (half <? r) || ((r =? half) && Z.odd q) then q + 1 else q in
    Z.sgn z * Z.shiftl q' shift.

(** [float(z)] of an [int]: rounded, and an [OverflowError] when the
    rounded value leaves the range of doubles. *)
Definition float_of_int (z : Z) : result Z :=
  if DOUBLE_LIMIT <=? Z.abs (round_double z)
  then Raise (Exn "OverflowError" "int too large to convert to float")
  else Ret (round_double z).

(** [a + b] on doubles of integer value: the exact sum, rounded. (A sum that
    leaves the range of doubles is infinite in Python; the integer clock has
    no such reading, and the statements below stay within [2 ^ 53].) *)
Definition fl_add (a b : Z) : Z := round_double (a + b).

Section WithFloat.

(** [float(s)] on a string, in clock units; [None] when it raises
    [ValueError]. *)
Variable float_of_str : string -> option Z.

(** [float(v)] *)
Definition py_float (v : pyval) : result Z :=
  match v with
  | PInt z => float_of_int z
  | PStr s =>
      match float_of_str s with
      | Some z => Ret z
      | None => Raise (Exn "ValueError" ("could not convert string to float: '" +:+ s +:+ "'"))
      end
  | PNone => Raise (Exn "TypeError" "float() argument must be a string or a real number, not 'NoneType'")
  end.

(** Lines 52-60: the silent path first, then the client-credentials
    exchange when the silent path gave nothing. *)
Definition acquire (app : msal_app) : prog t msal_call (option pydict) :=
  let* _ := emit GetAccounts in
  let* _ := emit (AcquireTokenSilent (head (accounts app))) in
  let* result := answer (silent_result app) in
  if negb (opt_truthy result)
  then let* _ := emit AcquireTokenForClient in answer (client_result app)
  else ret result.

(** The refresh path: lines 52-69. *)
Definition refresh (now : Z) (app : msal_app) : prog t msal_call pyval :=
  let* result := acquire app in
  match result with
  | None =>
      (* ["access_token" not in None] *)
      raise (Exn "TypeError" "argument of type 'NoneType' is not iterable")
  | Some d =>
      if negb (bool_decide (is_Some (d !! "access_token"%string)))
      then
        let error_desc := dict_get d "error_description" in
        raise (Exn "RuntimeError"
                 ("Failed to acquire token from Azure AD: " +:+ py_str error_desc))
      else
        let* _ := modify (set_cached_token d) in
        let* expires_in :=
          answer (py_float (default (PInt 3000) (d !! "expires_in"%string))) in
        let* _ := modify (set_token_expiry_epoch (fl_add now expires_in)) in
        dict_item d "access_token"
  end.

(** The test of lines 46-49. *)
Definition cache_fresh (self : t) (now : Z) : bool :=
  match _cached_token self with
  | Some tok =>
      dict_truthy tok
      && (now <? _token_expiry_epoch self - token_refresh_margin_seconds self)
  | None => false
  end.

(** [get_access_token], [now] being the reading of [time.time()]. *)
Definition get_access_token (now : Z) (app : msal_app) : prog t msal_call pyval :=
  let* self := get in
  if cache_fresh self now
  then
    match _cached_token self with
    | Some tok => dict_item tok "access_token"
    | None => raise (Exn "TypeError" "'NoneType' object is not subscriptable")
    end
  else refresh now app.

End WithFloat.

End AzureAuthenticator.

(** ** The Python library functions the processor calls *)

(** A decoded JSON document. A float is carried as its [repr]. *)
#[local] Unset Elimination Schemes.
Inductive json : Type :=
  | JNull
  | JBool (b : bool)
  | JInt (z : Z)
  | JFloat (repr : string)
  | JStr (s : string)
  | JList (l : list json)
  | JObj (l : list (string * json)).
#[local] Set Elimination Schemes.

(** [json.loads] ([None] when it raises), [json.dumps] of a list of strings
    and [repr] of a [str]; their text formats are not part of this
    development. *)
Record pylib : Type := {
  json_loads : string -> option json;
  json_dumps : list string -> string;
  repr_str : string -> string
}.

(** [", ".join(l)] *)
Fixpoint join_comma (l : list string) : string :=
  match l with
  | [] => ""
  | [x] => x
  | x :: r => x +:+ ", " +:+ join_comma r
  end.

(** [repr(x)] of a decoded document. *)
Fixpoint py_repr (lib : pylib) (x : json) : string :=
  match x with
  | JNull => "None"
  | JBool true => "True"
  | JBool false => "False"
  | JInt z => pretty z
  | JFloat r => r
  | JStr s => repr_str lib s
  | JList l => "[" +:+ join_comma (List.map (py_repr lib) l) +:+ "]"
  | JObj l =>
      "{" +:+ join_comma
                (List.map (fun kv => repr_str lib (fst kv) +:+ ": " +:+ py_repr lib (snd kv)) l)
          +:+ "}"
  end.

(** [str(x)]: a string is itself, anything else is its [repr]. *)
Definition py_str_json (lib : pylib) (x : json) : string :=
  match x with
  | JStr s => s
  | _ => py_repr lib x
  end.

(** The state of the file at [processed_files_path]. [Unreadable]: it
    exists and [read_text] raises. *)
Inductive file_state : Type :=
  | Absent
  | Unreadable
  | Content (text : string).

Definition path_exists (f : file_state) : bool :=
  match f with Absent => false | _ => true end.

Definition read_text (f : file_state) : result string :=
  match f with
  | Content t => Ret t
  | Unreadable => Raise (Exn "OSError" "cannot read")
  | Absent => Raise (Exn "FileNotFoundError" "No such file or directory")
  end.

(** Python's order on [str], used by [sorted]. *)
Definition str_le (a b : string) : Prop := String.leb a b = true.

#[global] Instance str_le_dec (a b : string) : Decision (str_le a b).
Proof. unfold str_le. apply _. Defined.

(** ** src/processors/file_processor.py *)

Module FileProcessor.

Definition IMAGE_EXTENSIONS : gset string :=
  {[ ".tif"%string; ".tiff"%string; ".jpg"%string; ".jpeg"%string; ".png"%string ]}.

(** The ledger ([self.processed]) and the file it is persisted to. *)
Record t : Type := mk {
  processed : gmap string bool;
  disk : file_state
}.

Definition set_processed (m : gmap string bool) (self : t) : t :=
  {| processed := m; disk := disk self |}.

Definition set_disk (f : file_state) (self : t) : t :=
  {| processed := processed self; disk := f |}.

(** An item of the remote listing: [item["id"]] and, when present,
    [item["name"]]. *)
Record item : Type := {
  item_id : string;
  item_name : option string
}.

(** The dict [process_file] returns. *)
Inductive outcome : Type :=
  | Success (asset_id : pyval) (name : string) (product_code : string)
  | Skipped (reason : string) (name : string).

(** [res.get("status")] *)
Definition status (o : outcome) : string :=
  match o with
  | Success _ _ _ => "success"
  | Skipped _ _ => "skipped"
  end.

(** The result of writing the ledger file: done, or failed leaving the file
    in some state. *)
Inductive write_result : Type :=
  | Written
  | WriteFailed (remains : file_state).

(** What the collaborators answer during one call of [process_file]. *)
Record world : Type := {
  download_result : result string;
  upload_result : result pydict;
  associate_result : result unit;
  save_result : write_result
}.

(** The collaborator calls of the processor. *)
Inductive call : Type :=
  | DownloadFileStream (drive_id item_id : string)
  | UploadAsset (stream : string) (filename : string)
  | UpdateProductAssociation (product_code : string) (asset_id : pyval)
  | WriteProcessed (items : list string).

Definition is_upload_of (n : string) (c : call) : bool :=
  match c with
  | UploadAsset _ f => String.eqb f n
  | _ => false
  end.

(** How often [upload_asset] was invoked with file name [n]. *)
Definition uploads_of (n : string) (tr : list call) : nat :=
  length (List.filter (is_upload_of n) tr).

Section WithLib.

Variable lib : pylib.

(** [{str(x): True for x in data}] *)
Definition names_dict (data : list json) : gmap string bool :=
  foldl (fun m x => <[py_str_json lib x := true]> m) ∅ data.

(** The [try] block of [_load_processed]. *)
Definition load_body : prog t call unit :=
  let* self := get in
  if path_exists (disk self) then
    let* text := answer (read_text (disk self)) in
    let* data :=
      match json_loads lib (if String.eqb text "" then "[]" else text) with
      | Some j => ret j
      | None => raise (Exn "JSONDecodeError" "Expecting value")
      end in
    match data with
    | JList l => modify (set_processed (names_dict l))
    | _ => ret tt
    end
  else ret tt.

Definition _load_processed : prog t call unit :=
  let* _ := modify (set_processed ∅) in
  try_except load_body (fun _ => modify (set_processed ∅)).

(** [__init__]: the attributes are assigned, then the ledger is loaded. The
    ledger attribute does not exist before [_load_processed] assigns it. *)
Definition init (f : file_state) : result t * t * list call :=
  (let* _ := _load_processed in get) {| processed := ∅; disk := f |}.

(** The names a ledger file lists: the [str] of the elements when the file
    holds a JSON list, none in every other state of the file. *)
Definition listed_names (f : file_state) : list string :=
  match f with
  | Content text =>
      match json_loads lib (if String.eqb text "" then "[]" else text) with
      | Some (JList l) => List.map (py_str_json lib) l
      | _ => []
      end
  | _ => []
  end.

(** [sorted(self.processed.keys())] *)
Definition sorted_keys (m : gmap string bool) : list string :=
  merge_sort str_le (map fst (map_to_list m)).

(** [_save_processed]: every failure is swallowed. *)
Definition _save_processed (w : write_result) : prog t call unit :=
  let* self := get in
  let items := sorted_keys (processed self) in
  let* _ := emit (WriteProcessed items) in
  match w with
  | Written => modify (set_disk (Content (json_dumps lib items)))
  | WriteFailed remains => modify (set_disk remains)
  end.

(** The processor after lines 82-83 have committed [name]. *)
Definition committed (name : string) (w : world) (p : t) : t :=
  let p1 := set_processed (<[name := true]> (processed p)) p in
  match save_result w with
  | Written => set_disk (Content (json_dumps lib (sorted_keys (processed p1)))) p1
  | WriteFailed remains => set_disk remains p1
  end.

End WithLib.

(** Line 74: [result.get("id") or result.get("asset_id") or ""]. *)
Definition asset_id_of (result : pydict) : pyval :=
  py_or (py_or (dict_get result "id") (dict_get result "asset_id")) (PStr "").

Definition extract_product_code (filename : string)
  : result (string * string * string) :=
  let name := PyPath.stem filename in
  let parts := PyString.split "_"%char name in
  if (length parts <? 3)%nat
  then Raise (Exn "ValueError" "Filename must be PRODUCTCODE_TYPE_VERSION.ext")
  else
    match parts with
    | p0 :: p1 :: p2 :: _ => Ret (p0, p1, p2)
    | _ => Raise (Exn "IndexError" "list index out of range")
    end.

Definition validate_file (it : item) : bool :=
  let name := default ""%string (item_name it) in
  let suffix := PyPath.suffix (PyString.lower name) in
  bool_decide (suffix ∈ IMAGE_EXTENSIONS).

Definition process_file (lib : pylib) (drive_id : string) (it : item) (w : world)
  : prog t call outcome :=
  let item_id := item_id it in
  let name := default item_id (item_name it) in
  let* self := get in
  if bool_decide (is_Some (processed self !! name))
  then ret (Skipped "already_processed" name)
  else if negb (validate_file it)
  then ret (Skipped "invalid_extension" name)
  else
    let* (product_code, image_type, version) := answer (extract_product_code name) in
    let* _ := emit (DownloadFileStream drive_id item_id) in
    let* stream := answer (download_result w) in
    let* _ := emit (UploadAsset stream name) in
    let* result := answer (upload_result w) in
    let asset_id := asset_id_of result in
    let* _ :=
      try_except
        (let* _ := emit (UpdateProductAssociation product_code asset_id) in
         answer (associate_result w))
        (fun _ => ret tt) in
    let* _ := modify (fun self => set_processed (<[name := true]> (processed self)) self) in
    let* _ := _save_processed lib (save_result w) in
    ret (Success asset_id name product_code).

(** Every name in the ledger is marked [True]. *)
Definition ledger_wf (m : gmap string bool) : Prop :=
  forall n b, m !! n = Some b -> b = true.

(** The name [process_file] gives the item. *)
Definition name_of (it : item) : string :=
  default (item_id it) (item_name it).

(** A sequence of [process_file] calls on one processor, one after the
    other (within one iteration or across iterations); the result or the
    exception of each is kept. *)
Fixpoint process_all (lib : pylib) (calls : list (string * item * world)) (p : t)
  : list (result outcome) * t * list call :=
  match calls with
  | [] => ([], p, [])
  | (drive_id, it, w) :: rest =>
      match process_file lib drive_id it w p with
      | (r, p1, t1) =>
          match process_all lib rest p1 with
          | (rs, p2, t2) => (r :: rs, p2, t1 ++ t2)
          end
      end
  end.

End FileProcessor.

(** ** src/connectors/sharepoint_connector.py: list_new_files *)

Module SharePointConnector.

(** A child of the folder as Graph returns it: its id and name, and whether
    it has the [file] facet. *)
Record child : Type := {
  c_item : FileProcessor.item;
  c_is_file : bool
}.

(** The default of [allowed_extensions]. *)
Definition DEFAULT_EXTENSIONS : list string :=
  [".tif"; ".tiff"; ".jpg"; ".jpeg"; ".png"]%string.

(** Lines 70-75: the child is kept. *)
Definition wanted (allowed : list string) (c : child) : bool :=
  c_is_file c
  && let name := default ""%string (FileProcessor.item_name (c_item c)) in
     List.existsb (PyString.endswith (PyString.lower name)) allowed.

(** What Graph and the authenticator answer during one call: the folder
    resolution, the headers (the token) and the children request, the
    latter as the list under [value]. *)
Record answers : Type := {
  resolve_answer : result (string * string);
  headers_answer : result unit;
  children_answer : result (list child)
}.

Inductive call : Type :=
  | ResolveDriveAndItem
  | Headers
  | GetChildren (drive_id item_id : string).

(** [list_new_files]; [allowed_extensions] is a collection that can be
    iterated once per child (a set or a list), [None] standing for the
    default. *)
Definition list_new_files (allowed_extensions : option (list string)) (w : answers)
  : prog unit call (list FileProcessor.item) :=
  let allowed := default DEFAULT_EXTENSIONS allowed_extensions in
  let* _ := emit ResolveDriveAndItem in
  let* ids := answer (resolve_answer w) in
  let* _ := emit Headers in
  let* _ := answer (headers_answer w) in
  let* _ := emit (GetChildren ids.1 ids.2) in
  let* items := answer (children_answer w) in
  ret (List.map c_item (List.filter (wanted allowed) items)).

End SharePointConnector.

(** ** src/main.py: run_daemon *)

Module Daemon.

(** The settings [run_daemon] reads. *)
Record settings : Type := {
  poll_interval : Z;
  batch_size : Z;
  circuit_threshold : Z;
  circuit_reset_seconds : Z
}.

(** A line of the dead-letter file: [{"error": str(ex), "time": time.time()}]. *)
Record dead_letter : Type := {
  dl_error : string;
  dl_time : Z
}.

(** The locals of [run_daemon] that live across iterations, the module's
    counters, the dead-letter file and the processor. *)
Record t : Type := mk {
  failure_count : Z;
  circuit_open_until : Z;
  FILES_PROCESSED : Z;
  FILES_SUCCEEDED : Z;
  FILES_FAILED : Z;
  dead_letters : list dead_letter;
  processor : FileProcessor.t
}.

Definition set_failure_count (n : Z) (s : t) : t :=
  mk n (circuit_open_until s) (FILES_PROCESSED s) (FILES_SUCCEEDED s)
     (FILES_FAILED s) (dead_letters s) (processor s).

Definition set_circuit_open_until (u : Z) (s : t) : t :=
  mk (failure_count s) u (FILES_PROCESSED s) (FILES_SUCCEEDED s)
     (FILES_FAILED s) (dead_letters s) (processor s).

Definition inc_processed (s : t) : t :=
  mk (failure_count s) (circuit_open_until s) (FILES_PROCESSED s + 1)
     (FILES_SUCCEEDED s) (FILES_FAILED s) (dead_letters s) (processor s).

Definition inc_succeeded (s : t) : t :=
  mk (failure_count s) (circuit_open_until s) (FILES_PROCESSED s)
     (FILES_SUCCEEDED s + 1) (FILES_FAILED s) (dead_letters s) (processor s).

Definition inc_failed (s : t) : t :=
  mk (failure_count s) (circuit_open_until s) (FILES_PROCESSED s)
     (FILES_SUCCEEDED s) (FILES_FAILED s + 1) (dead_letters s) (processor s).

Definition append_dead_letter (r : dead_letter) (s : t) : t :=
  mk (failure_count s) (circuit_open_until s) (FILES_PROCESSED s)
     (FILES_SUCCEEDED s) (FILES_FAILED s) (dead_letters s ++ [r]) (processor s).

Definition set_processor (p : FileProcessor.t) (s : t) : t :=
  mk (failure_count s) (circuit_open_until s) (FILES_PROCESSED s)
     (FILES_SUCCEEDED s) (FILES_FAILED s) (dead_letters s) p.

(** The calls of the loop on its collaborators. *)
Inductive call : Type :=
  | ResolveDriveAndItem
  | ListNewFiles
  | Process (c : FileProcessor.call)
  | DeadLetterMkdir
  | DeadLetterOpen
  | Wait (timeout : Z).

(** What the file system and the clock answer to one dead-letter write:
    whether [dl.parent.mkdir] returns, whether [dl.open("a")] returns, the
    reading of [time.time()] for the record, and whether the line is then
    written. *)
Record dl_answer : Type := {
  dl_clock : Z;
  dl_mkdir_ok : bool;
  dl_open_ok : bool;
  dl_write_ok : bool
}.

(** The write goes through: none of its three steps raises. *)
Definition dl_writable (a : dl_answer) : bool :=
  dl_mkdir_ok a && dl_open_ok a && dl_write_ok a.

(** The calls of one dead-letter write: the file is opened only after
    [mkdir] has returned. *)
Definition dl_calls (a : dl_answer) : list call :=
  DeadLetterMkdir :: (if dl_mkdir_ok a then [DeadLetterOpen] else []).

(** What the collaborators answer while one file of the batch is handled,
    and the time at which its future completes. *)
Record file_world : Type := {
  fw_world : FileProcessor.world;
  fw_dl : dl_answer;
  fw_finished : Z
}.

(** What the collaborators answer during one iteration: the clock at its
    start, the two discovery calls, the handling of the file at each
    position of the batch, the dead-letter write of the iteration itself,
    and the clock at its end. *)
Record tick_world : Type := {
  now : Z;
  resolve_result : result string;
  list_result : result (list FileProcessor.item);
  file_worlds : nat -> file_world;
  iteration_dl : dl_answer;
  end_time : Z
}.

(** The condition of line 77: the breaker is open at [now]. *)
Definition circuit_open (cfg : settings) (s : t) (now : Z) : bool :=
  (circuit_threshold cfg <=? failure_count s) && (now <? circuit_open_until s).

(** The spec's [shouldPoll]. *)
Definition should_poll (cfg : settings) (s : t) (now : Z) : bool :=
  negb (circuit_open cfg s now).

(** The spec's [recordSuccess] (line 101) and [recordFailure] (lines 115
    and 127). *)
Definition record_success (s : t) : t := set_failure_count 0 s.
Definition record_failure (s : t) : t := set_failure_count (failure_count s + 1) s.

(** Lines 129-130. *)
Definition open_if_tripped (cfg : settings) (end_time : Z) (s : t) : t :=
  if circuit_threshold cfg <=? failure_count s
  then set_circuit_open_until (end_time + circuit_reset_seconds cfg) s
  else s.

(** The three ways the loop acts on the breaker. *)
Inductive breaker_op : Type :=
  | RecordFailure
  | RecordSuccess
  | EndOfTick (end_time : Z).

Definition apply_op (cfg : settings) (s : t) (op : breaker_op) : t :=
  match op with
  | RecordFailure => record_failure s
  | RecordSuccess => record_success s
  | EndOfTick e => open_if_tripped cfg e s
  end.

Definition apply_ops (cfg : settings) (ops : list breaker_op) (s : t) : t :=
  foldl (apply_op cfg) s ops.

(** What a completed future makes the loop do to the breaker. *)
Definition future_op (f : result FileProcessor.outcome) : option breaker_op :=
  match f with
  | Raise _ => Some RecordFailure
  | Ret o => if String.eqb (FileProcessor.status o) "success"
             then Some RecordSuccess else None
  end.

Definition is_failure_op (op : breaker_op) : bool :=
  match op with RecordFailure => true | _ => false end.

Definition is_success_op (op : breaker_op) : bool :=
  match op with RecordSuccess => true | _ => false end.

(** How many failures a sequence of breaker actions records. *)
Definition failures_in (ops : list breaker_op) : Z :=
  Z.of_nat (length (List.filter is_failure_op ops)).

(** The discovery of the iteration raises [e]: in
    [_resolve_drive_and_item], or in [list_new_files] after it. *)
Definition discovery_raises (w : tick_world) (e : exn) : Prop :=
  resolve_result w = Raise e
  \/ (exists drive_id, resolve_result w = Ret drive_id /\ list_result w = Raise e).

Definition is_dead_letter_open (c : call) : bool :=
  match c with DeadLetterOpen => true | _ => false end.

Definition is_dead_letter_call (c : call) : bool :=
  match c with DeadLetterMkdir | DeadLetterOpen => true | _ => false end.

Definition is_wait (c : call) : bool :=
  match c with Wait _ => true | _ => false end.

Definition is_discovery (c : call) : bool :=
  match c with ResolveDriveAndItem | ListNewFiles => true | _ => false end.

(** The counters only grow, and every success and every failure counted
    was counted as processed. *)
Definition counted (s s' : t) : Prop :=
  FILES_SUCCEEDED s <= FILES_SUCCEEDED s'
  /\ FILES_FAILED s <= FILES_FAILED s'
  /\ (FILES_SUCCEEDED s' - FILES_SUCCEEDED s) + (FILES_FAILED s' - FILES_FAILED s)
     <= FILES_PROCESSED s' - FILES_PROCESSED s.

(** The dead-letter file only gains lines at its end. *)
Definition appended (s s' : t) : Prop :=
  dead_letters s `prefix_of` dead_letters s'.

(** One file counted as failed, field by field: it is counted as processed
    and as failed, not as succeeded; the breaker counts one failure; the
    processor is the same; the dead-letter file gains the record of [ex]
    when the three steps of the write answered by [a] return, and nothing
    otherwise. *)
Definition failed_file_counted (ex : exn) (a : dl_answer) (s s' : t) : Prop :=
  FILES_PROCESSED s' = FILES_PROCESSED s + 1
  /\ FILES_SUCCEEDED s' = FILES_SUCCEEDED s
  /\ FILES_FAILED s' = FILES_FAILED s + 1
  /\ failure_count s' = failure_count s + 1
  /\ processor s' = processor s
  /\ dead_letters s'
     = (if dl_mkdir_ok a && dl_open_ok a && dl_write_ok a
        then dead_letters s ++ [{| dl_error := exn_text ex; dl_time := dl_clock a |}]
        else dead_letters s).

(** The dead-letter write, inside its own [try ... except Exception: pass]. *)
Definition write_dead_letter (ex : exn) (a : dl_answer) : prog t call unit :=
  try_except
    (let* _ := emit DeadLetterMkdir in
     if negb (dl_mkdir_ok a)
     then raise (Exn "OSError" "cannot create the dead-letter directory")
     else
       let* _ := emit DeadLetterOpen in
       if negb (dl_open_ok a)
       then raise (Exn "OSError" "cannot open the dead-letter file")
       else if dl_write_ok a
       then modify (append_dead_letter {| dl_error := exn_text ex; dl_time := dl_clock a |})
       else raise (Exn "OSError" "cannot write the dead-letter file"))
    (fun _ => ret tt).

(** [executor.submit(f)]: the call runs on the processor; its result or its
    exception is kept in the future. *)
Definition submit {A} (m : prog FileProcessor.t FileProcessor.call A)
  : prog t call (result A) :=
  fun s =>
    match m (processor s) with
    | (r, p, tr) => (Ret r, set_processor p s, map Process tr)
    end.

(** Lines 90-92, the calls taken in submission order. *)
Fixpoint submit_all (lib : pylib) (drive_id : string)
    (items : list FileProcessor.item) (ws : nat -> file_world) (i : nat)
  : prog t call (list (result FileProcessor.outcome * dl_answer)) :=
  match items with
  | [] => ret []
  | it :: rest =>
      let* f := submit (FileProcessor.process_file lib drive_id it (fw_world (ws i))) in
      let* fs := submit_all lib drive_id rest ws (S i) in
      ret ((f, fw_dl (ws i)) :: fs)
  end.

(** Lines 95-115: one completed future. *)
Definition handle_future (f : result FileProcessor.outcome) (a : dl_answer)
  : prog t call unit :=
  let* _ := modify inc_processed in
  try_except
    (let* res := answer f in
     if String.eqb (FileProcessor.status res) "success"
     then
       let* _ := modify inc_succeeded in
       modify record_success
     else ret tt)
    (fun ex =>
       let* _ := modify inc_failed in
       let* _ := write_dead_letter ex a in
       modify record_failure).

(** The dead-letter file after the write of lines 108-114 (and 120-126)
    for exception [ex]: the record is there when the write went through. *)
Definition dead_lettered (ex : exn) (a : dl_answer) (s : t) : t :=
  if dl_writable a
  then append_dead_letter {| dl_error := exn_text ex; dl_time := dl_clock a |} s
  else s.

(** [R] is a preorder on the loop's state that each assignment of
    [run_daemon] moves along. *)
Record respected (cfg : settings) (R : t -> t -> Prop) : Prop := {
  resp_preorder : PreOrder R;
  resp_processed : forall s, R s (inc_processed s);
  resp_succeeded : forall s, R s (record_success (inc_succeeded (inc_processed s)));
  resp_failed : forall ex a s,
      R s (record_failure (dead_lettered ex a (inc_failed (inc_processed s))));
  resp_iteration : forall ex a s, R s (record_failure (dead_lettered ex a s));
  resp_processor : forall p s, R s (set_processor p s);
  resp_open : forall e s, R s (open_if_tripped cfg e s)
}.

(** Line 94: the futures in the order they complete. *)
Fixpoint fan_in (futures : list (result FileProcessor.outcome * dl_answer))
  : prog t call unit :=
  match futures with
  | [] => ret tt
  | (f, a) :: rest =>
      let* _ := handle_future f a in
      fan_in rest
  end.

(** One future completes no later than another. *)
Definition finished_first
    (x y : Z * (result FileProcessor.outcome * dl_answer)) : Prop :=
  x.1 <= y.1.

#[global] Instance finished_first_dec x y : Decision (finished_first x y).
Proof. unfold finished_first. apply _. Defined.

(** [as_completed(futures)]: the futures in the order in which they
    complete. Python fixes no order among futures that complete at the same
    instant; here it is the one the sort leaves them in. *)
Definition as_completed (ws : nat -> file_world)
    (futures : list (result FileProcessor.outcome * dl_answer))
  : list (result FileProcessor.outcome * dl_answer) :=
  List.map snd
    (merge_sort finished_first
       (zip (List.map (fun i => fw_finished (ws i)) (seq 0 (length futures)))
            futures)).

(** The [try] block, lines 76-115. Returns [true] when it ends in
    [continue]. The calls of the batch are run one after the other, in the
    order of submission, and their futures are read in the order of
    completion. The clock is read in whole seconds, on which [int(...)] of
    line 78 is the identity; of the suppressed wait the theorems below state
    only that it lasts no longer than the poll interval and no longer than
    the window, which the truncated amount satisfies as well. *)
Definition poll (cfg : settings) (lib : pylib) (w : tick_world) : prog t call bool :=
  let* s := get in
  if circuit_open cfg s (now w)
  then
    let time_to_reset := circuit_open_until s - now w in
    let* _ := emit (Wait (Z.min (poll_interval cfg) time_to_reset)) in
    ret true
  else
    let* _ := emit ResolveDriveAndItem in
    let* drive_id := answer (resolve_result w) in
    let* _ := emit ListNewFiles in
    let* files := answer (list_result w) in
    match files with
    | [] => ret false
    | _ =>
        let* futures :=
          submit_all lib drive_id (take (Z.to_nat (batch_size cfg)) files)
                     (file_worlds w) 0 in
        let* _ := fan_in (as_completed (file_worlds w) futures) in
        ret false
    end.

(** The [except] block, lines 117-127. *)
Definition iteration_failed (w : tick_world) (ex : exn) : prog t call bool :=
  let* _ := write_dead_letter ex (iteration_dl w) in
  let* _ := modify record_failure in
  ret false.

(** One iteration of the [while] loop, lines 75-133. *)
Definition tick (cfg : settings) (lib : pylib) (w : tick_world) : prog t call unit :=
  let* skipped := try_except (poll cfg lib w) (iteration_failed w) in
  if (skipped : bool) then ret tt
  else
    let* _ := modify (open_if_tripped cfg (end_time w)) in
    emit (Wait (poll_interval cfg)).

(** The [while] loop over the iterations the environment lets it run: each
    element is [shutdown_event.is_set()] at the head of the loop and the
    world of the iteration. *)
Fixpoint loop (cfg : settings) (lib : pylib) (ws : list (bool * tick_world))
  : prog t call unit :=
  match ws with
  | [] => ret tt
  | (is_set, w) :: rest =>
      if (is_set : bool) then ret tt
      else
        let* _ := tick cfg lib w in
        loop cfg lib rest
  end.

(** The breaker actions of one iteration, read off the answers of its
    collaborators: none when the breaker suppresses it; otherwise a failure
    when the discovery raises, or one action per future in the order of
    completion, and then the check at the end of the iteration. *)
Definition tick_ops (cfg : settings) (lib : pylib) (w : tick_world) (s : t)
  : list breaker_op :=
  if circuit_open cfg s (now w) then []
  else
    match resolve_result w, list_result w with
    | Ret drive_id, Ret (f :: files) =>
        match res_of (submit_all lib drive_id
                        (take (Z.to_nat (batch_size cfg)) (f :: files))
                        (file_worlds w) 0 s) with
        | Ret futures =>
            omap (fun f => future_op f.1) (as_completed (file_worlds w) futures)
        | Raise _ => [RecordFailure]
        end
    | Ret _, Ret [] => []
    | _, _ => [RecordFailure]
    end ++ [EndOfTick (end_time w)].

(** The breaker actions of a run of iterations. *)
Fixpoint loop_ops (cfg : settings) (lib : pylib) (ws : list tick_world) (s : t)
  : list breaker_op :=
  match ws with
  | [] => []
  | w :: rest =>
      tick_ops cfg lib w s ++ loop_ops cfg lib rest (state_of (tick cfg lib w s))
  end.

(** Two states have the same breaker. *)
Definition same_breaker (s1 s2 : t) : Prop :=
  failure_count s1 = failure_count s2
  /\ circuit_open_until s1 = circuit_open_until s2.

(** The state at line 73. *)
Definition start (p : FileProcessor.t) : t :=
  mk 0 0 0 0 0 [] p.

(** [run_daemon]: [ThreadPoolExecutor] refuses [max_workers <= 0]. *)
Definition run_daemon (cfg : settings) (lib : pylib) (f : file_state)
    (ws : list (bool * tick_world)) : result unit * t * list call :=
  let p := state_of (FileProcessor.init lib f) in
  if batch_size cfg <=? 0
  then raise (Exn "ValueError" "max_workers must be greater than 0") (start p)
  else loop cfg lib ws (start p).

End Daemon.

(** ** process_file on the thread pool

    [run_daemon] submits [processor.process_file] for every file of the
    batch to one [ThreadPoolExecutor]; the calls share the one processor and
    [process_file] takes no lock.  A worker is [process_file] cut at the
    points where another thread can run: before the ledger is read, around
    each collaborator call, before the ledger is written and before it is
    saved. *)

Module Pool.

Inductive pc : Type :=
  | AtCheck
  | AtDownload (product_code : string)
  | AtUpload (product_code : string) (stream : string)
  | AtAssociate (product_code : string) (asset_id : pyval)
  | AtCommit (product_code : string) (asset_id : pyval)
  | AtSave (product_code : string) (asset_id : pyval)
  | Done (r : result FileProcessor.outcome).

(** A worker: its arguments, the answers its collaborators will give, where
    it stands and the collaborator calls it has made. *)
Record worker : Type := {
  w_item : FileProcessor.item;
  w_world : FileProcessor.world;
  w_pc : pc;
  w_calls : list FileProcessor.call
}.

Definition w_name (w : worker) : string :=
  default (FileProcessor.item_id (w_item w)) (FileProcessor.item_name (w_item w)).

Definition at_pc (w : worker) (c : pc) (calls : list FileProcessor.call) : worker :=
  {| w_item := w_item w; w_world := w_world w; w_pc := c;
     w_calls := w_calls w ++ calls |}.

(** A freshly submitted call. *)
Definition spawn (it : FileProcessor.item) (wd : FileProcessor.world) : worker :=
  {| w_item := it; w_world := wd; w_pc := AtCheck; w_calls := [] |}.

(** One step of a worker on the shared processor. *)
Definition step (lib : pylib) (drive_id : string) (w : worker) (p : FileProcessor.t)
  : worker * FileProcessor.t :=
  let name := w_name w in
  let item_id := FileProcessor.item_id (w_item w) in
  match w_pc w with
  | AtCheck =>
      if bool_decide (is_Some (FileProcessor.processed p !! name))
      then (at_pc w (Done (Ret (FileProcessor.Skipped "already_processed" name))) [], p)
      else if negb (FileProcessor.validate_file (w_item w))
      then (at_pc w (Done (Ret (FileProcessor.Skipped "invalid_extension" name))) [], p)
      else
        match FileProcessor.extract_product_code name with
        | Raise e => (at_pc w (Done (Raise e)) [], p)
        | Ret (product_code, _, _) => (at_pc w (AtDownload product_code) [], p)
        end
  | AtDownload product_code =>
      let c := FileProcessor.DownloadFileStream drive_id item_id in
      match FileProcessor.download_result (w_world w) with
      | Raise e => (at_pc w (Done (Raise e)) [c], p)
      | Ret stream => (at_pc w (AtUpload product_code stream) [c], p)
      end
  | AtUpload product_code stream =>
      let c := FileProcessor.UploadAsset stream name in
      match FileProcessor.upload_result (w_world w) with
      | Raise e => (at_pc w (Done (Raise e)) [c], p)
      | Ret result =>
          (at_pc w (AtAssociate product_code (FileProcessor.asset_id_of result)) [c], p)
      end
  | AtAssociate product_code asset_id =>
      (at_pc w (AtCommit product_code asset_id)
         [FileProcessor.UpdateProductAssociation product_code asset_id], p)
  | AtCommit product_code asset_id =>
      (at_pc w (AtSave product_code asset_id) [],
       FileProcessor.set_processed (<[name := true]> (FileProcessor.processed p)) p)
  | AtSave product_code asset_id =>
      match FileProcessor._save_processed lib (FileProcessor.save_result (w_world w)) p with
      | (_, p', calls) =>
          (at_pc w (Done (Ret (FileProcessor.Success asset_id name product_code))) calls, p')
      end
  | Done r => (w, p)
  end.

(** The worker has not yet called [upload_asset]. *)
Definition before_upload (c : pc) : bool :=
  match c with
  | AtCheck | AtDownload _ | AtUpload _ _ => true
  | _ => false
  end.

(** What the calls of a worker look like at every point of its run: it has
    uploaded at most once, under its own name, and not at all before it
    reaches the upload. *)
Definition worker_ok (w : worker) : Prop :=
  forall n,
    (FileProcessor.uploads_of n (w_calls w) <= 1)%nat
    /\ (n <> w_name w -> FileProcessor.uploads_of n (w_calls w) = 0%nat)
    /\ (before_upload (w_pc w) = true -> FileProcessor.uploads_of n (w_calls w) = 0%nat).

(** The pool: the workers of one batch and the processor they share. *)
Definition pool : Type := list worker * FileProcessor.t.

(** The scheduler lets worker [i] take one step. *)
Definition step_at (lib : pylib) (drive_id : string) (i : nat) (st : pool) : pool :=
  match st.1 !! i with
  | Some w =>
      match step lib drive_id w st.2 with
      | (w', p') => (<[i := w']> st.1, p')
      end
  | None => st
  end.

(** A schedule is the sequence of workers that are let run. *)
Definition run (lib : pylib) (drive_id : string) (sched : list nat) (st : pool) : pool :=
  foldl (fun st i => step_at lib drive_id i st) st sched.

(** How often [upload_asset] was invoked with file name [n], over all
    workers. *)
Definition total_uploads (n : string) (ws : list worker) : nat :=
  sum_list (map (fun w => FileProcessor.uploads_of n (w_calls w)) ws).

(** One worker run alone until it is done. *)
Fixpoint run_alone (lib : pylib) (drive_id : string) (fuel : nat)
    (w : worker) (p : FileProcessor.t) : worker * FileProcessor.t :=
  match fuel with
  | O => (w, p)
  | S k =>
      match step lib drive_id w p with
      | (w', p') => run_alone lib drive_id k w' p'
      end
  end.

End Pool.

(** ** Concrete inputs

    The doubles of [tests/] and the inputs the examples below are run on. *)

Module Fixtures.

(** No string is accepted as a number. *)
Definition no_float (s : string) : option Z := None.

(** [DummyApp] of [tests/test_auth.py]. *)
Definition dummy_app : AzureAuthenticator.msal_app :=
  {| AzureAuthenticator.accounts := [];
     AzureAuthenticator.silent_result := Ret None;
     AzureAuthenticator.client_result :=
       Ret (Some (<["access_token"%string := PStr "test"]>
                    (<["expires_in"%string := PInt 3600]> ∅))) |}.

(** An application whose exchange is refused. *)
Definition refusing_app : AzureAuthenticator.msal_app :=
  {| AzureAuthenticator.accounts := [];
     AzureAuthenticator.silent_result := Ret None;
     AzureAuthenticator.client_result :=
       Ret (Some (<["error"%string := PStr "invalid_client"]>
                    (<["error_description"%string := PStr "AADSTS7000215: Invalid client secret"]> ∅))) |}.

(** An authenticator that cached the token of [dummy_app] at time 0. *)
Definition warm_auth : AzureAuthenticator.t :=
  {| AzureAuthenticator.token_refresh_margin_seconds := 60;
     AzureAuthenticator._cached_token :=
       Some (<["access_token"%string := PStr "test"]>
               (<["expires_in"%string := PInt 3600]> ∅));
     AzureAuthenticator._token_expiry_epoch := 3600 |}.

(** A decoder that knows three documents, an encoder that does not look at
    its argument. *)
Definition toy_lib : pylib :=
  {| json_loads := fun s =>
       if String.eqb s "[]" then Some (JList [])
       else if String.eqb s "[1, null]" then Some (JList [JInt 1; JNull])
       else if String.eqb s "{}" then Some (JObj [])
       else None;
     json_dumps := fun _ => "[...]"%string;
     repr_str := fun s => ("'" +:+ s +:+ "'")%string |}.

(** A listed file with a well-formed name, one with a malformed name. *)
Definition abc_item : FileProcessor.item :=
  {| FileProcessor.item_id := "id-1"; FileProcessor.item_name := Some "ABC123_FRONT_01.jpg"%string |}.

Definition bad_item : FileProcessor.item :=
  {| FileProcessor.item_id := "id-2"; FileProcessor.item_name := Some "bad.jpg"%string |}.

(** [DummySP] and [DummySalsify] of [tests/test_processor.py]. *)
Definition dummy_world : FileProcessor.world :=
  {| FileProcessor.download_result := Ret "data"%string;
     FileProcessor.upload_result := Ret (<["id"%string := PStr "asset123"]> ∅);
     FileProcessor.associate_result := Ret tt;
     FileProcessor.save_result := FileProcessor.Written |}.

(** The download answers 503. *)
Definition download_down : FileProcessor.world :=
  {| FileProcessor.download_result := Raise (Exn "HTTPError" "503 Server Error");
     FileProcessor.upload_result := Ret (<["id"%string := PStr "asset123"]> ∅);
     FileProcessor.associate_result := Ret tt;
     FileProcessor.save_result := FileProcessor.Written |}.

(** The upload answers 503. *)
Definition upload_down : FileProcessor.world :=
  {| FileProcessor.download_result := Ret "data"%string;
     FileProcessor.upload_result := Raise (Exn "HTTPError" "503 Server Error");
     FileProcessor.associate_result := Ret tt;
     FileProcessor.save_result := FileProcessor.Written |}.

(** A processor with an empty ledger and no ledger file. *)
Definition fresh_processor : FileProcessor.t :=
  {| FileProcessor.processed := ∅; FileProcessor.disk := Absent |}.

(** The defaults of [utils/config.py]. *)
Definition default_settings : Daemon.settings :=
  {| Daemon.poll_interval := 300;
     Daemon.batch_size := 10;
     Daemon.circuit_threshold := 5;
     Daemon.circuit_reset_seconds := 60 |}.

Definition dl_ok (clock : Z) : Daemon.dl_answer :=
  {| Daemon.dl_clock := clock; Daemon.dl_mkdir_ok := true;
     Daemon.dl_open_ok := true; Daemon.dl_write_ok := true |}.

(** The directory of the dead-letter file cannot be created. *)
Definition dl_no_dir (clock : Z) : Daemon.dl_answer :=
  {| Daemon.dl_clock := clock; Daemon.dl_mkdir_ok := false;
     Daemon.dl_open_ok := true; Daemon.dl_write_ok := true |}.

(** A library whose encoder writes the one-name ledger of [abc_item] as a
    text its decoder reads back. *)
Definition one_name_lib : pylib :=
  {| json_loads := fun s =>
       if String.eqb s "[ABC123_FRONT_01.jpg]"
       then Some (JList [JStr "ABC123_FRONT_01.jpg"])
       else None;
     json_dumps := fun l =>
       match l with
       | [n] => ("[" +:+ n +:+ "]")%string
       | _ => "?"%string
       end;
     repr_str := fun s => s |}.

(** The text of a ledger file that lists two names, and a decoder that
    knows it and the empty list. *)
Definition quote : string := String (Ascii.ascii_of_nat 34) EmptyString.

Definition two_names_text : string :=
  ("[" +:+ quote +:+ "ABC123_FRONT_01.jpg" +:+ quote +:+ ", "
       +:+ quote +:+ "XYZ_BACK_02.png" +:+ quote +:+ "]")%string.

Definition ledger_lib : pylib :=
  {| json_loads := fun s =>
       if String.eqb s "[]" then Some (JList [])
       else if String.eqb s two_names_text
       then Some (JList [JStr "ABC123_FRONT_01.jpg"; JStr "XYZ_BACK_02.png"])
       else None;
     json_dumps := fun _ => "[...]"%string;
     repr_str := fun s => (quote +:+ s +:+ quote)%string |}.

(** An application whose token dict gives a lifetime beyond the doubles. *)
Definition overflowing_app : AzureAuthenticator.msal_app :=
  {| AzureAuthenticator.accounts := [];
     AzureAuthenticator.silent_result := Ret None;
     AzureAuthenticator.client_result :=
       Ret (Some (<["access_token"%string := PStr "test"]>
                    (<["expires_in"%string := PInt (2 ^ 1024)]> ∅))) |}.

(** A breaker that tripped at the default threshold; its cooldown ends at
    time 100. *)
Definition tripped : Daemon.t :=
  Daemon.mk 5 100 0 0 0 [] fresh_processor.

(** An iteration that starts at [start], lists no file and ends at [stop]. *)
Definition quiet_tick (start stop : Z) : Daemon.tick_world :=
  {| Daemon.now := start;
     Daemon.resolve_result := Ret "drive"%string;
     Daemon.list_result := Ret [];
     Daemon.file_worlds := fun _ =>
       {| Daemon.fw_world := dummy_world; Daemon.fw_dl := dl_ok start;
          Daemon.fw_finished := start |};
     Daemon.iteration_dl := dl_ok start;
     Daemon.end_time := stop |}.

(** An iteration whose folder cannot be resolved. *)
Definition broken_tick (start stop : Z) : Daemon.tick_world :=
  {| Daemon.now := start;
     Daemon.resolve_result := Raise (Exn "HTTPError" "404 Not Found");
     Daemon.list_result := Ret [];
     Daemon.file_worlds := fun _ =>
       {| Daemon.fw_world := dummy_world; Daemon.fw_dl := dl_ok start;
          Daemon.fw_finished := start |};
     Daemon.iteration_dl := dl_ok start;
     Daemon.end_time := stop |}.

(** An iteration whose folder cannot be resolved while the directory of
    the dead-letter file cannot be created. *)
Definition unlogged_tick (start stop : Z) : Daemon.tick_world :=
  {| Daemon.now := start;
     Daemon.resolve_result := Raise (Exn "HTTPError" "404 Not Found");
     Daemon.list_result := Ret [];
     Daemon.file_worlds := fun _ =>
       {| Daemon.fw_world := dummy_world; Daemon.fw_dl := dl_ok start;
          Daemon.fw_finished := start |};
     Daemon.iteration_dl := dl_no_dir start;
     Daemon.end_time := stop |}.

(** An iteration that lists the one file [it], handled in world [w]. *)
Definition one_file_tick (it : FileProcessor.item) (w : FileProcessor.world)
    (start stop : Z) : Daemon.tick_world :=
  {| Daemon.now := start;
     Daemon.resolve_result := Ret "drive"%string;
     Daemon.list_result := Ret [it];
     Daemon.file_worlds := fun _ =>
       {| Daemon.fw_world := w; Daemon.fw_dl := dl_ok (start + 1);
          Daemon.fw_finished := start + 1 |};
     Daemon.iteration_dl := dl_ok start;
     Daemon.end_time := stop |}.

(** A batch size of two. *)
Definition small_batch : Daemon.settings :=
  {| Daemon.poll_interval := 300;
     Daemon.batch_size := 2;
     Daemon.circuit_threshold := 5;
     Daemon.circuit_reset_seconds := 60 |}.

(** An iteration that lists three files. *)
Definition busy_tick (start stop : Z) : Daemon.tick_world :=
  {| Daemon.now := start;
     Daemon.resolve_result := Ret "drive"%string;
     Daemon.list_result := Ret [abc_item; bad_item; abc_item];
     Daemon.file_worlds := fun _ =>
       {| Daemon.fw_world := dummy_world; Daemon.fw_dl := dl_ok start;
          Daemon.fw_finished := start |};
     Daemon.iteration_dl := dl_ok start;
     Daemon.end_time := stop |}.

(** Five iterations in a row whose folder cannot be resolved. *)
Definition outage : list Daemon.tick_world :=
  [broken_tick 0 1; broken_tick 10 11; broken_tick 20 21; broken_tick 30 31;
   broken_tick 40 41].

(** The association raises and the ledger file cannot be written. *)
Definition flaky_world : FileProcessor.world :=
  {| FileProcessor.download_result := Ret "data"%string;
     FileProcessor.upload_result := Ret (<["id"%string := PStr "asset123"]> ∅);
     FileProcessor.associate_result := Raise (Exn "HTTPError" "500 Server Error");
     FileProcessor.save_result := FileProcessor.WriteFailed Unreadable |}.

(** A file whose name is nothing but an extension. *)
Definition dot_jpg : FileProcessor.item :=
  {| FileProcessor.item_id := "id-3"; FileProcessor.item_name := Some ".jpg"%string |}.

(** The token dict of [dummy_app]. *)
Definition test_token : pydict :=
  <["access_token"%string := PStr "test"]> (<["expires_in"%string := PInt 3600]> ∅).

End Fixtures.

(** * Properties *)

(** ** Running programs *)

Ltac run_prog :=
  cbv [bind ret raise get modify emit answer try_except dict_item
       res_of state_of trace_of].

Section ProgFacts.

Context {S E : Type}.

Lemma bind_ret_eq {A B} (m : prog S E A) (k : A -> prog S E B) (s s1 : S)
    (a : A) (t1 : list E) :
  m s = (Ret a, s1, t1) ->
  bind m k s = (res_of (k a s1), state_of (k a s1), t1 ++ trace_of (k a s1)).
Proof.
  intros H. unfold bind. rewrite H. destruct (k a s1) as [[r s2] t2]. reflexivity.
Qed.

Lemma bind_raise_eq {A B} (m : prog S E A) (k : A -> prog S E B) (s s1 : S)
    (e : exn) (t1 : list E) :
  m s = (Raise e, s1, t1) -> bind m k s = (Raise e, s1, t1).
Proof. intros H. unfold bind. rewrite H. reflexivity. Qed.

Lemma bind_get {A} (k : S -> prog S E A) (s : S) : bind get k s = k s s.
Proof. unfold bind, get. destruct (k s s) as [[r s2] t2]. reflexivity. Qed.

Lemma keeps_ret {A X} (f : S -> X) (a : A) : keeps f (ret (E:=E) a).
Proof. intros s. reflexivity. Qed.

Lemma keeps_raise {A X} (f : S -> X) (e : exn) : keeps f (raise (E:=E) (A:=A) e).
Proof. intros s. reflexivity. Qed.

Lemma keeps_get {X} (f : S -> X) : keeps f (get (E:=E)).
Proof. intros s. reflexivity. Qed.

Lemma keeps_emit {X} (f : S -> X) (ev : E) : keeps f (emit ev).
Proof. intros s. reflexivity. Qed.

Lemma keeps_answer {A X} (f : S -> X) (r : result A) : keeps f (answer (E:=E) r).
Proof. intros s. reflexivity. Qed.

Lemma keeps_modify {X} (f : S -> X) (g : S -> S) :
  (forall s, f (g s) = f s) -> keeps f (modify (E:=E) g).
Proof. intros H s. apply H. Qed.

Lemma keeps_bind {A B X} (f : S -> X) (m : prog S E A) (k : A -> prog S E B) :
  keeps f m -> (forall a, keeps f (k a)) -> keeps f (bind m k).
Proof.
  intros Hm Hk s. unfold bind, state_of. specialize (Hm s). unfold state_of in Hm.
  destruct (m s) as [[[a|e] s1] t1]; cbn in *; [|exact Hm].
  specialize (Hk a s1). unfold state_of in Hk.
  destruct (k a s1) as [[r s2] t2]. cbn in *. congruence.
Qed.

Lemma keeps_try_except {A X} (f : S -> X) (m : prog S E A) (h : exn -> prog S E A) :
  keeps f m -> (forall e, keeps f (h e)) -> keeps f (try_except m h).
Proof.
  intros Hm Hh s. unfold try_except, state_of. specialize (Hm s).
  unfold state_of in Hm.
  destruct (m s) as [[[a|e] s1] t1]; cbn in *; [exact Hm|].
  specialize (Hh e s1). unfold state_of in Hh.
  destruct (h e s1) as [[r s2] t2]. cbn in *. congruence.
Qed.

Lemma ensures_ret {A} (Q : A -> Prop) (a : A) : Q a -> ensures Q (ret (S:=S) (E:=E) a).
Proof. intros H s. exists a. split; [reflexivity|exact H]. Qed.

Lemma ensures_get (Q : S -> Prop) : (forall s, Q s) -> ensures Q (get (E:=E)).
Proof. intros H s. exists s. split; [reflexivity|apply H]. Qed.

Lemma ensures_emit (ev : E) : ensures (fun _ => True) (emit (S:=S) ev).
Proof. intros s. exists tt. split; [reflexivity|exact I]. Qed.

Lemma ensures_modify (g : S -> S) : ensures (fun _ => True) (modify (E:=E) g).
Proof. intros s. exists tt. split; [reflexivity|exact I]. Qed.

Lemma ensures_bind {A B} (P : A -> Prop) (Q : B -> Prop)
    (m : prog S E A) (k : A -> prog S E B) :
  ensures P m -> (forall a, P a -> ensures Q (k a)) -> ensures Q (bind m k).
Proof.
  intros Hm Hk s. destruct (Hm s) as (a & Ha & HP). unfold bind, res_of in *.
  destruct (m s) as [[r s1] t1]. cbn in Ha. subst r.
  destruct (Hk a HP s1) as (b & Hb & HQ).
  destruct (k a s1) as [[r s2] t2]. cbn in *. eauto.
Qed.

Lemma ensures_try_except {A} (Q : A -> Prop) (m : prog S E A) (h : exn -> prog S E A) :
  (forall s a, res_of (m s) = Ret a -> Q a) ->
  (forall e, ensures Q (h e)) -> ensures Q (try_except m h).
Proof.
  intros Hm Hh s. unfold try_except, res_of in *. specialize (Hm s).
  destruct (m s) as [[[a|e] s1] t1]; cbn in *.
  - exists a. split; [reflexivity|]. apply Hm. reflexivity.
  - destruct (Hh e s1) as (b & Hb & HQ).
    destruct (h e s1) as [[r s2] t2]. cbn in *. eauto.
Qed.

Lemma on_return_ret {A} (Q : A -> Prop) (a : A) :
  Q a -> on_return Q (ret (S:=S) (E:=E) a).
Proof. intros H s b [= <-]. exact H. Qed.

Lemma on_return_bind {A B} (Q : B -> Prop) (m : prog S E A) (k : A -> prog S E B) :
  (forall a, on_return Q (k a)) -> on_return Q (bind m k).
Proof.
  intros Hk s b. unfold bind, res_of.
  destruct (m s) as [[[a|e] s1] t1]; cbn; [|discriminate].
  specialize (Hk a s1 b). unfold res_of in Hk.
  destruct (k a s1) as [[r s2] t2]. cbn in *. exact Hk.
Qed.

Lemma on_return_ensures {A} (Q : A -> Prop) (m : prog S E A) :
  ensures Q m -> on_return Q m.
Proof. intros H s a Ha. destruct (H s) as (a' & Ha' & HQ). congruence. Qed.

Section Advances.

Context (R : S -> S -> Prop) `{!PreOrder R}.

Lemma advances_ret {A} (a : A) : advances R (ret (E:=E) a).
Proof. intros s. reflexivity. Qed.

Lemma advances_raise {A} (e : exn) : advances R (raise (E:=E) (A:=A) e).
Proof. intros s. reflexivity. Qed.

Lemma advances_get : advances R (get (E:=E)).
Proof. intros s. reflexivity. Qed.

Lemma advances_emit (ev : E) : advances R (emit ev).
Proof. intros s. reflexivity. Qed.

Lemma advances_answer {A} (r : result A) : advances R (answer (E:=E) r).
Proof. intros s. reflexivity. Qed.

Lemma advances_modify (g : S -> S) : (forall s, R s (g s)) -> advances R (modify (E:=E) g).
Proof. intros H s. apply H. Qed.

Lemma advances_bind {A B} (m : prog S E A) (k : A -> prog S E B) :
  advances R m -> (forall a, advances R (k a)) -> advances R (bind m k).
Proof.
  intros Hm Hk s. unfold bind, state_of. specialize (Hm s). unfold state_of in Hm.
  destruct (m s) as [[[a|e] s1] t1]; cbn in *; [|exact Hm].
  specialize (Hk a s1). unfold state_of in Hk.
  destruct (k a s1) as [[r s2] t2]. cbn in *. etransitivity; eassumption.
Qed.

Lemma advances_try_except {A} (m : prog S E A) (h : exn -> prog S E A) :
  advances R m -> (forall e, advances R (h e)) -> advances R (try_except m h).
Proof.
  intros Hm Hh s. unfold try_except, state_of. specialize (Hm s).
  unfold state_of in Hm.
  destruct (m s) as [[[a|e] s1] t1]; cbn in *; [exact Hm|].
  specialize (Hh e s1). unfold state_of in Hh.
  destruct (h e s1) as [[r s2] t2]. cbn in *. etransitivity; eassumption.
Qed.

End Advances.

Lemma ensures_weaken {A} (P Q : A -> Prop) (m : prog S E A) :
  (forall a, P a -> Q a) -> ensures P m -> ensures Q m.
Proof. intros H Hm s. destruct (Hm s) as (a & Ha & HP). eauto. Qed.

End ProgFacts.

Lemma dict_truthy_lookup (d : pydict) (k : string) (v : pyval) :
  d !! k = Some v -> dict_truthy d = true.
Proof.
  intros H. unfold dict_truthy.
  rewrite bool_decide_eq_false_2; [reflexivity|].
  intros ->. rewrite lookup_empty in H. discriminate.
Qed.

(** ** AzureAuthenticator *)

Section Auth.

Import AzureAuthenticator.

Variable float_of_str : string -> option Z.

Lemma init_cache_wf (margin : Z) : cache_wf (init margin).
Proof. intros tok H. discriminate. Qed.

Lemma acquire_state (app : msal_app) (a : t) :
  state_of (acquire app a) = a.
Proof.
  unfold acquire. run_prog.
  destruct (silent_result app) as [r|e]; cbn; [|reflexivity].
  destruct (negb (opt_truthy r)); cbn; [|reflexivity].
  destruct (client_result app); reflexivity.
Qed.

Lemma get_access_token_cache_wf (now : Z) (app : msal_app) (a : t) :
  cache_wf a -> cache_wf (state_of (get_access_token float_of_str now app a)).
Proof.
  intros Hwf. unfold get_access_token. run_prog.
  destruct (cache_fresh a now).
  - destruct (_cached_token a) as [tok|]; cbn; [|exact Hwf].
    destruct (tok !! "access_token"%string); exact Hwf.
  - unfold refresh. run_prog.
    pose proof (acquire_state app a) as Hst. unfold state_of in Hst.
    destruct (acquire app a) as [[r a1] tr]. cbn in Hst. subst a1.
    destruct r as [[d|]|e]; cbn; try exact Hwf.
    destruct (bool_decide (is_Some (d !! "access_token"%string))) eqn:Hd; cbn;
      [|exact Hwf].
    apply bool_decide_eq_true_1 in Hd.
    assert (cache_wf (set_cached_token d a)) as Hwf1.
    { intros tok Htok. cbn in Htok. by simplify_eq. }
    assert (forall e, cache_wf (set_token_expiry_epoch e (set_cached_token d a))) as Hwf2.
    { intros e tok Htok. cbn in Htok. by simplify_eq. }
    destruct (py_float _ _) as [z|e]; cbn; [|exact Hwf1].
    destruct (d !! "access_token"%string); apply Hwf2.
Qed.

End Auth.

Lemma cached_token_fresh_path (float_of_str : string -> option Z)
    (now : Z) (app : AzureAuthenticator.msal_app) (a : AzureAuthenticator.t)
    (tok : pydict) (v : pyval) :
  AzureAuthenticator._cached_token a = Some tok ->
  tok !! "access_token"%string = Some v ->
  now < AzureAuthenticator._token_expiry_epoch a
        - AzureAuthenticator.token_refresh_margin_seconds a ->
  AzureAuthenticator.get_access_token float_of_str now app a = (Ret v, a, []).
Proof.
  intros Hc Hv Hnow. unfold AzureAuthenticator.get_access_token. run_prog.
  unfold AzureAuthenticator.cache_fresh.
  rewrite Hc, (dict_truthy_lookup _ _ _ Hv).
  apply Z.ltb_lt in Hnow. rewrite Hnow. cbn. rewrite Hv. reflexivity.
Qed.

Section AuthClaims.

Import AzureAuthenticator.

Variable float_of_str : string -> option Z.

(** C3. A cached credential whose expiry lies more than the refresh margin
    after [now] is returned as it is: the token value comes back, the
    authenticator is unchanged and no call is made on the credential
    provider. *)
Theorem cached_token_returned_without_provider
    (now : Z) (app : msal_app) (a : t) (tok : pydict) (v : pyval) :
  _cached_token a = Some tok ->
  tok !! "access_token"%string = Some v ->
  now < _token_expiry_epoch a - token_refresh_margin_seconds a ->
  get_access_token float_of_str now app a = (Ret v, a, []).
Proof.
  intros Hc Hv Hnow. unfold get_access_token. run_prog.
  unfold cache_fresh. rewrite Hc, (dict_truthy_lookup _ _ _ Hv).
  apply Z.ltb_lt in Hnow. rewrite Hnow. cbn. rewrite Hv. reflexivity.
Qed.

(** C4. When the cache is not fresh and the provider's answer is a dict
    without [access_token], the call raises a [RuntimeError] whose text ends
    with the provider's [error_description], and the authenticator is left
    as it was: neither the cached token nor the expiry changes. *)
Theorem failed_acquisition_raises_and_keeps_cache
    (now : Z) (app : msal_app) (a : t) (d : pydict) :
  cache_fresh a now = false ->
  res_of (acquire app a) = Ret (Some d) ->
  d !! "access_token"%string = None ->
  res_of (get_access_token float_of_str now app a)
    = Raise (Exn "RuntimeError"
               ("Failed to acquire token from Azure AD: "
                +:+ py_str (dict_get d "error_description")))
  /\ state_of (get_access_token float_of_str now app a) = a.
Proof.
  intros Hf Hacq Hd. unfold get_access_token, refresh. run_prog.
  rewrite Hf.
  pose proof (acquire_state app a) as Hst. unfold state_of in Hst.
  unfold res_of in Hacq.
  destruct (acquire app a) as [[r a1] tr]. cbn in Hst, Hacq. subst a1 r.
  rewrite Hd. rewrite bool_decide_eq_false_2 by (intros [x Hx]; discriminate).
  cbn. split; reflexivity.
Qed.

End AuthClaims.

Lemma cached_token_returned_without_provider_witness :
  AzureAuthenticator.get_access_token Fixtures.no_float 100 Fixtures.refusing_app
    Fixtures.warm_auth
  = (Ret (PStr "test"), Fixtures.warm_auth, []).
Proof.
  apply (cached_token_returned_without_provider Fixtures.no_float 100
           Fixtures.refusing_app Fixtures.warm_auth
           (<["access_token"%string := PStr "test"]>
              (<["expires_in"%string := PInt 3600]> ∅))
           (PStr "test")).
  - reflexivity.
  - vm_compute. reflexivity.
  - vm_compute. reflexivity.
Defined.

Lemma failed_acquisition_raises_and_keeps_cache_witness :
  res_of (AzureAuthenticator.get_access_token Fixtures.no_float 3590
            Fixtures.refusing_app Fixtures.warm_auth)
    = Raise (Exn "RuntimeError"
               "Failed to acquire token from Azure AD: AADSTS7000215: Invalid client secret")
  /\ state_of (AzureAuthenticator.get_access_token Fixtures.no_float 3590
                 Fixtures.refusing_app Fixtures.warm_auth)
     = Fixtures.warm_auth.
Proof.
  pose proof (failed_acquisition_raises_and_keeps_cache Fixtures.no_float 3590
           Fixtures.refusing_app Fixtures.warm_auth
           (<["error"%string := PStr "invalid_client"]>
              (<["error_description"%string := PStr "AADSTS7000215: Invalid client secret"]> ∅)))
    as H.
  vm_compute in H |- *. apply H; reflexivity.
Defined.

(** ** FileProcessor: loading the ledger *)

Section Loading.

Import FileProcessor.

Variable lib : pylib.

Lemma names_fold_lookup (l : list json) (m : gmap string bool) (n : string) :
  foldl (fun m x => <[py_str_json lib x := true]> m) m l !! n
  = if decide (n ∈ List.map (py_str_json lib) l) then Some true else m !! n.
Proof.
  revert m. induction l as [|x l IH]; intros m; cbn.
  - destruct (decide _) as [H|H]; [by apply elem_of_nil in H|reflexivity].
  - rewrite IH.
    destruct (decide (n ∈ List.map (py_str_json lib) l)) as [Hin|Hin].
    + rewrite decide_True by (by right). reflexivity.
    + destruct (decide (n = py_str_json lib x)) as [->|Hne].
      * rewrite decide_True by (by left). apply lookup_insert_eq.
      * rewrite decide_False.
        -- by rewrite lookup_insert_ne.
        -- intros [?|?]%elem_of_cons; done.
Qed.

Lemma names_dict_lookup (l : list json) (n : string) :
  names_dict lib l !! n
  = if decide (n ∈ List.map (py_str_json lib) l) then Some true else None.
Proof. unfold names_dict. rewrite names_fold_lookup, lookup_empty. reflexivity. Qed.

Lemma names_dict_nil : names_dict lib [] = ∅.
Proof. reflexivity. Qed.

(** What [_load_processed] leaves in [self.processed]. *)
Lemma load_processed_eq (p : t) :
  _load_processed lib p
  = (Ret tt,
     set_processed
       (match disk p with
        | Content text =>
            match json_loads lib (if String.eqb text "" then "[]" else text) with
            | Some (JList l) => names_dict lib l
            | _ => ∅
            end
        | _ => ∅
        end) p,
     []).
Proof.
  unfold _load_processed, load_body. run_prog. cbn.
  destruct (disk p) as [| |text]; cbn; try reflexivity.
  destruct (json_loads lib _) as [j|]; cbn; [|reflexivity].
  destruct j; reflexivity.
Qed.

Lemma map_py_str_JStr (names : list string) :
  List.map (py_str_json lib) (List.map JStr names) = names.
Proof. induction names as [|n names IH]; cbn; [|rewrite IH]; reflexivity. Qed.

(** C10. Constructing the processor never raises, whatever the state of the
    ledger file. When the file holds a JSON list of names, the in-memory
    ledger holds exactly these names, each marked [True] (an element that is
    not a string is held as its [str]); the ledger is empty when the file
    is absent, unreadable, malformed or not a JSON list, and, the decoder
    reading ["[]"] as the empty list, when the file is empty. *)
Theorem init_never_fails_and_loads_listed_names (f : file_state) :
  json_loads lib "[]" = Some (JList []) ->
  exists p : t,
    init lib f = (Ret p, p, [])
    /\ disk p = f
    /\ (forall text names,
          f = Content text -> text <> ""%string ->
          json_loads lib text = Some (JList (List.map JStr names)) ->
          forall n : string,
            processed p !! n = if decide (n ∈ names) then Some true else None)
    /\ (forall text l,
          f = Content text -> text <> ""%string ->
          json_loads lib text = Some (JList l) ->
          forall n : string,
            processed p !! n
            = if decide (n ∈ List.map (py_str_json lib) l) then Some true else None)
    /\ (f = Absent \/ f = Unreadable \/ f = Content ""
        \/ (exists text, f = Content text /\ json_loads lib text = None)
        \/ (exists text j, f = Content text /\ json_loads lib text = Some j
                            /\ forall l, j <> JList l)
        -> processed p = ∅).
Proof.
  intros Hempty. unfold init. run_prog.
  rewrite load_processed_eq. cbn.
  eexists. split; [reflexivity|]. split; [reflexivity|]. cbn.
  assert (forall text l, f = Content text -> text <> ""%string ->
            json_loads lib text = Some (JList l) ->
            forall n : string,
              match f with
              | Content text =>
                  match json_loads lib (if String.eqb text "" then "[]" else text) with
                  | Some (JList l) => names_dict lib l
                  | _ => ∅
                  end
              | _ => ∅
              end !! n
              = if decide (n ∈ List.map (py_str_json lib) l) then Some true else None)
    as Hlist.
  { intros text l -> Hne Hl n. apply String.eqb_neq in Hne. rewrite Hne, Hl.
    apply names_dict_lookup. }
  split; [|split].
  - intros text names Hf Hne Hl n.
    rewrite (Hlist text _ Hf Hne Hl n), map_py_str_JStr. reflexivity.
  - exact Hlist.
  - clear Hlist.
    intros [->|[->|[->|[(text & -> & Hn)|(text & j & -> & Hj & Hl)]]]]; cbn;
      try reflexivity.
    + rewrite Hempty. reflexivity.
    + destruct (String.eqb_spec text "") as [->|_].
      * rewrite Hempty. reflexivity.
      * rewrite Hn. reflexivity.
    + destruct (String.eqb_spec text "") as [->|_].
      * rewrite Hempty. reflexivity.
      * rewrite Hj. destruct j; try reflexivity. by destruct (Hl l).
Qed.

End Loading.

Lemma init_never_fails_and_loads_listed_names_witness :
  exists p : FileProcessor.t,
    FileProcessor.init Fixtures.ledger_lib (Content Fixtures.two_names_text) = (Ret p, p, [])
    /\ FileProcessor.processed p !! "ABC123_FRONT_01.jpg"%string = Some true
    /\ FileProcessor.processed p !! "XYZ_BACK_02.png"%string = Some true
    /\ FileProcessor.processed p !! "bad.jpg"%string = None
    /\ FileProcessor.processed p !! ""%string = None.
Proof.
  destruct (init_never_fails_and_loads_listed_names Fixtures.ledger_lib
              (Content Fixtures.two_names_text) eq_refl) as (p & Hp & _ & Hn & _).
  exists p. split; [exact Hp|].
  assert (Fixtures.two_names_text <> ""%string) as Hne by (vm_compute; discriminate).
  pose proof (Hn Fixtures.two_names_text
                ["ABC123_FRONT_01.jpg"; "XYZ_BACK_02.png"]%string eq_refl Hne eq_refl)
    as Hnames.
  rewrite !Hnames. vm_compute. repeat split.
Defined.

(** ** FileProcessor: process_file *)

Section Processing.

Import FileProcessor.

Variable lib : pylib.

(** [process_file], path by path. *)
Lemma process_file_eq (drive_id : string) (it : item) (w : world) (p : t) :
  process_file lib drive_id it w p
  = let name := name_of it in
    if bool_decide (is_Some (processed p !! name))
    then (Ret (Skipped "already_processed" name), p, [])
    else if negb (validate_file it)
    then (Ret (Skipped "invalid_extension" name), p, [])
    else
      match extract_product_code name with
      | Raise e => (Raise e, p, [])
      | Ret (product_code, _, _) =>
          match download_result w with
          | Raise e => (Raise e, p, [DownloadFileStream drive_id (item_id it)])
          | Ret stream =>
              match upload_result w with
              | Raise e =>
                  (Raise e, p,
                   [DownloadFileStream drive_id (item_id it); UploadAsset stream name])
              | Ret result =>
                  (Ret (Success (asset_id_of result) name product_code),
                   committed lib name w p,
                   [DownloadFileStream drive_id (item_id it);
                    UploadAsset stream name;
                    UpdateProductAssociation product_code (asset_id_of result);
                    WriteProcessed (sorted_keys (<[name := true]> (processed p)))])
              end
          end
      end.
Proof.
  unfold process_file, name_of, committed, asset_id_of, _save_processed.
  run_prog. cbv zeta.
  destruct (bool_decide _); [reflexivity|].
  destruct (negb _); [reflexivity|].
  destruct (extract_product_code _) as [[[c ty] ver]|e]; [|reflexivity].
  destruct (download_result w) as [stream|e]; [|reflexivity].
  destruct (upload_result w) as [result|e]; [|reflexivity].
  destruct (associate_result w) as [[]|e]; destruct (save_result w); reflexivity.
Qed.

End Processing.

Section ProcessingFacts.

Import FileProcessor.

Variable lib : pylib.

Lemma process_file_already_processed
    (drive_id : string) (it : item) (w : world) (p : t) :
  is_Some (processed p !! name_of it) ->
  process_file lib drive_id it w p
  = (Ret (Skipped "already_processed" (name_of it)), p, []).
Proof.
  intros H. rewrite process_file_eq. cbv zeta.
  rewrite bool_decide_eq_true_2 by exact H. reflexivity.
Qed.

(** A name whose stem has fewer than three parts makes [process_file]
    raise before any collaborator is called. *)
Lemma process_file_malformed_name
    (drive_id : string) (it : item) (w : world) (p : t) :
  processed p !! name_of it = None ->
  validate_file it = true ->
  (length (PyString.split "_"%char (PyPath.stem (name_of it))) < 3)%nat ->
  process_file lib drive_id it w p
  = (Raise (Exn "ValueError" "Filename must be PRODUCTCODE_TYPE_VERSION.ext"), p, []).
Proof.
  intros Hn Hv Hl. rewrite process_file_eq. cbv zeta.
  rewrite bool_decide_eq_false_2 by (rewrite Hn; intros [x Hx]; discriminate).
  rewrite Hv. cbn [negb]. unfold extract_product_code.
  apply Nat.ltb_lt in Hl. rewrite Hl. reflexivity.
Qed.

(** A name once in the ledger stays there. *)
Lemma process_file_ledger_mono
    (drive_id : string) (it : item) (w : world) (p : t) (n : string) :
  is_Some (processed p !! n) ->
  is_Some (processed (state_of (process_file lib drive_id it w p)) !! n).
Proof.
  intros H. rewrite process_file_eq. cbv zeta. unfold state_of.
  destruct (bool_decide _); [exact H|].
  destruct (negb _); [exact H|].
  destruct (extract_product_code _) as [[[c ty] ver]|e]; [|exact H].
  destruct (download_result w) as [stream|e]; [|exact H].
  destruct (upload_result w) as [result|e]; [|exact H].
  cbn. unfold committed. destruct (save_result w); cbn;
    (destruct (decide (name_of it = n)) as [->|Hne];
     [rewrite lookup_insert_eq; eauto | rewrite lookup_insert_ne by exact Hne; exact H]).
Qed.

(** A success commits the name and has uploaded it exactly once. *)
Lemma process_file_success
    (drive_id : string) (it : item) (w : world) (p : t)
    (a : pyval) (n c : string) :
  res_of (process_file lib drive_id it w p) = Ret (Success a n c) ->
  n = name_of it
  /\ processed p !! n = None
  /\ processed (state_of (process_file lib drive_id it w p)) !! n = Some true
  /\ uploads_of n (trace_of (process_file lib drive_id it w p)) = 1%nat.
Proof.
  rewrite process_file_eq. cbv zeta. unfold res_of, state_of, trace_of.
  destruct (bool_decide _) eqn:Hin; [discriminate|].
  destruct (negb _); [discriminate|].
  destruct (extract_product_code _) as [[[c' ty] ver]|e]; [|discriminate].
  destruct (download_result w) as [stream|e]; [|discriminate].
  destruct (upload_result w) as [result|e]; [|discriminate].
  cbn. intros [= <- <- <-]. split; [reflexivity|]. split.
  { apply bool_decide_eq_false_1 in Hin.
    destruct (processed p !! name_of it) eqn:E; [|reflexivity].
    exfalso. apply Hin. eauto. }
  split.
  - unfold committed. destruct (save_result w); cbn; apply lookup_insert_eq.
  - unfold uploads_of. cbn. rewrite String.eqb_refl. reflexivity.
Qed.

(** [process_file] uploads under the item's own name only, and at most
    once. *)
Lemma process_file_uploads
    (drive_id : string) (it : item) (w : world) (p : t) (n : string) :
  (uploads_of n (trace_of (process_file lib drive_id it w p)) <= 1)%nat
  /\ (n <> name_of it ->
      uploads_of n (trace_of (process_file lib drive_id it w p)) = 0%nat).
Proof.
  rewrite process_file_eq. cbv zeta. unfold trace_of, uploads_of.
  destruct (bool_decide _); [cbn; split; [lia|reflexivity]|].
  destruct (negb _); [cbn; split; [lia|reflexivity]|].
  destruct (extract_product_code _) as [[[c' ty] ver]|e];
    [|cbn; split; [lia|reflexivity]].
  destruct (download_result w) as [stream|e]; [|cbn; split; [lia|reflexivity]].
  destruct (upload_result w) as [result|e]; cbn;
    destruct (String.eqb_spec (name_of it) n) as [->|Hne]; cbn;
    (split; [lia | intros; congruence]).
Qed.

End ProcessingFacts.

(** ** run_daemon: one completed future *)

Section Futures.

Import Daemon.

Lemma write_dead_letter_eq (ex : exn) (a : dl_answer) (s : t) :
  write_dead_letter ex a s = (Ret tt, dead_lettered ex a s, dl_calls a).
Proof.
  unfold write_dead_letter, dead_lettered, dl_writable, dl_calls. run_prog.
  destruct (dl_mkdir_ok a), (dl_open_ok a), (dl_write_ok a); reflexivity.
Qed.

Lemma handle_future_raise (ex : exn) (a : dl_answer) (s : t) :
  handle_future (Raise ex) a s
  = (Ret tt, record_failure (dead_lettered ex a (inc_failed (inc_processed s))),
     dl_calls a).
Proof.
  unfold handle_future. run_prog. cbn.
  rewrite write_dead_letter_eq. cbn. rewrite app_nil_r. reflexivity.
Qed.

(** Reading a future that holds an exception, field by field. *)
Lemma handle_future_raise_fields (ex : exn) (a : dl_answer) (s : t) :
  res_of (handle_future (Raise ex) a s) = Ret tt
  /\ trace_of (handle_future (Raise ex) a s)
     = DeadLetterMkdir :: (if dl_mkdir_ok a then [DeadLetterOpen] else [])
  /\ circuit_open_until (state_of (handle_future (Raise ex) a s)) = circuit_open_until s
  /\ failed_file_counted ex a s (state_of (handle_future (Raise ex) a s)).
Proof.
  rewrite handle_future_raise.
  unfold failed_file_counted, dead_lettered, dl_writable, dl_calls.
  cbn [res_of state_of trace_of fst snd].
  destruct (dl_mkdir_ok a), (dl_open_ok a), (dl_write_ok a); cbn; repeat split.
Qed.

Lemma handle_future_success (id : pyval) (n c : string) (a : dl_answer) (s : t) :
  handle_future (Ret (FileProcessor.Success id n c)) a s
  = (Ret tt, record_success (inc_succeeded (inc_processed s)), []).
Proof. reflexivity. Qed.

Lemma handle_future_skipped (reason n : string) (a : dl_answer) (s : t) :
  handle_future (Ret (FileProcessor.Skipped reason n)) a s
  = (Ret tt, inc_processed s, []).
Proof. reflexivity. Qed.

(** What [handle_future] does to the breaker is [future_op]. *)
Lemma handle_future_state (f : result FileProcessor.outcome) (a : dl_answer) (s : t) :
  res_of (handle_future f a s) = Ret tt
  /\ failure_count (state_of (handle_future f a s))
     = match future_op f with
       | Some RecordFailure => failure_count s + 1
       | Some _ => 0
       | None => failure_count s
       end
  /\ circuit_open_until (state_of (handle_future f a s)) = circuit_open_until s
  /\ processor (state_of (handle_future f a s)) = processor s.
Proof.
  destruct f as [[id n c|reason n]|ex].
  - rewrite handle_future_success. repeat split.
  - rewrite handle_future_skipped. repeat split.
  - rewrite handle_future_raise. unfold dead_lettered.
    destruct (dl_writable a); repeat split.
Qed.

Lemma fan_in_cons (f : result FileProcessor.outcome) (a : dl_answer)
    (rest : list (result FileProcessor.outcome * dl_answer)) (s : t) :
  fan_in ((f, a) :: rest) s
  = (res_of (fan_in rest (state_of (handle_future f a s))),
     state_of (fan_in rest (state_of (handle_future f a s))),
     trace_of (handle_future f a s)
       ++ trace_of (fan_in rest (state_of (handle_future f a s)))).
Proof.
  cbn [fan_in].
  destruct (handle_future_state f a s) as (Hr & _).
  destruct (handle_future f a s) as [[r s1] t1] eqn:E. cbn in Hr. subst r.
  rewrite (bind_ret_eq _ _ _ _ _ _ E). reflexivity.
Qed.

(** The fan-in never raises: an exception kept in a future is handled where
    the future is read. *)
Lemma fan_in_returns (futures : list (result FileProcessor.outcome * dl_answer))
    (s : t) :
  res_of (fan_in futures s) = Ret tt.
Proof.
  revert s. induction futures as [|[f a] rest IH]; intros s; [reflexivity|].
  rewrite fan_in_cons. cbn. apply IH.
Qed.

Lemma fan_in_keeps_open_until
    (futures : list (result FileProcessor.outcome * dl_answer)) (s : t) :
  circuit_open_until (state_of (fan_in futures s)) = circuit_open_until s.
Proof.
  revert s. induction futures as [|[f a] rest IH]; intros s; [reflexivity|].
  rewrite fan_in_cons. cbn. rewrite IH.
  apply (handle_future_state f a s).
Qed.

End Futures.

(** ** run_daemon: one iteration *)

Section Iteration.

Import Daemon.

Variable cfg : settings.
Variable lib : pylib.

Lemma as_completed_perm (ws : nat -> file_world)
    (futures : list (result FileProcessor.outcome * dl_answer)) :
  as_completed ws futures ≡ₚ futures.
Proof.
  unfold as_completed.
  change (List.map snd ?l) with (snd <$> l).
  rewrite merge_sort_Permutation. rewrite snd_zip; [reflexivity|].
  change (List.map ?f ?l) with (f <$> l).
  rewrite length_fmap, length_seq. lia.
Qed.

Lemma as_completed_length (ws : nat -> file_world)
    (futures : list (result FileProcessor.outcome * dl_answer)) :
  length (as_completed ws futures) = length futures.
Proof. apply Permutation_length, as_completed_perm. Qed.

Lemma submit_eq {A} (m : prog FileProcessor.t FileProcessor.call A) (s : t) :
  submit m s
  = (Ret (res_of (m (processor s))),
     set_processor (state_of (m (processor s))) s,
     map Process (trace_of (m (processor s)))).
Proof. unfold submit. destruct (m (processor s)) as [[r p] tr]. reflexivity. Qed.

Lemma submit_all_returns (drive_id : string) (items : list FileProcessor.item)
    (ws : nat -> file_world) (i : nat) :
  ensures (fun _ => True) (submit_all lib drive_id items ws i).
Proof.
  revert i. induction items as [|it rest IH]; intros i; cbn [submit_all].
  - apply ensures_ret. exact I.
  - apply (ensures_bind (fun _ => True)).
    + intros s. rewrite submit_eq. eexists. split; [reflexivity|exact I].
    + intros f _. apply (ensures_bind (fun _ => True)); [apply IH|].
      intros fs _. apply ensures_ret. exact I.
Qed.

Lemma submit_all_keeps {X} (f : t -> X) (drive_id : string)
    (items : list FileProcessor.item) (ws : nat -> file_world) (i : nat) :
  (forall p s, f (set_processor p s) = f s) ->
  keeps f (submit_all lib drive_id items ws i).
Proof.
  intros Hf. revert i. induction items as [|it rest IH]; intros i; cbn [submit_all].
  - apply keeps_ret.
  - apply keeps_bind.
    + intros s. rewrite submit_eq. apply Hf.
    + intros fu. apply keeps_bind; [apply IH|]. intros fs. apply keeps_ret.
Qed.

Lemma fan_in_ensures (futures : list (result FileProcessor.outcome * dl_answer)) :
  ensures (fun _ => True) (fan_in futures).
Proof. intros s. exists tt. split; [apply fan_in_returns|exact I]. Qed.

Lemma poll_gated (w : tick_world) (s : t) :
  circuit_open cfg s (now w) = true ->
  poll cfg lib w s
  = (Ret true, s,
     [Wait (Z.min (poll_interval cfg) (circuit_open_until s - now w))]).
Proof. intros H. unfold poll. run_prog. rewrite H. reflexivity. Qed.

(** The batch part of [poll], lines 90-115. *)
Lemma batch_returns_false (drive_id : string) (files : list FileProcessor.item)
    (w : tick_world) :
  ensures (fun b => b = false)
    (let* futures := submit_all lib drive_id files (file_worlds w) 0 in
     let* _ := fan_in (as_completed (file_worlds w) futures) in
     ret false).
Proof.
  apply (ensures_bind (fun _ => True)); [apply submit_all_returns|].
  intros futures _. apply (ensures_bind (fun _ => True)); [apply fan_in_ensures|].
  intros _ _. apply ensures_ret. reflexivity.
Qed.

Lemma batch_keeps_open_until (drive_id : string) (files : list FileProcessor.item)
    (w : tick_world) :
  keeps circuit_open_until
    (let* futures := submit_all lib drive_id files (file_worlds w) 0 in
     let* _ := fan_in (as_completed (file_worlds w) futures) in
     ret false).
Proof.
  apply keeps_bind; [apply submit_all_keeps; reflexivity|].
  intros futures. apply keeps_bind; [|intros; apply keeps_ret].
  intros s. apply fan_in_keeps_open_until.
Qed.

(** When the breaker lets the iteration poll, the [try] block does not end
    in [continue]. *)
Lemma poll_not_gated (w : tick_world) (s : t) (b : bool) :
  circuit_open cfg s (now w) = false ->
  res_of (poll cfg lib w s) = Ret b -> b = false.
Proof.
  intros H. revert b.
  change (forall b, res_of (poll cfg lib w s) = Ret b -> (fun b => b = false) b).
  assert (on_return (fun b => b = false)
            (let* _ := emit ResolveDriveAndItem in
             let* drive_id := answer (resolve_result w) in
             let* _ := emit ListNewFiles in
             let* files := answer (list_result w) in
             match files with
             | [] => ret (S:=t) (E:=call) false
             | _ =>
                 let* futures :=
                   submit_all lib drive_id (take (Z.to_nat (batch_size cfg)) files)
                     (file_worlds w) 0 in
                 let* _ := fan_in (as_completed (file_worlds w) futures) in
                 ret false
             end)) as Hbody.
  { apply on_return_bind. intros _. apply on_return_bind. intros drive_id.
    apply on_return_bind. intros _. apply on_return_bind. intros files.
    destruct files as [|it files]; [apply on_return_ret; reflexivity|].
    apply on_return_ensures. apply batch_returns_false. }
  intros b. specialize (Hbody s b). unfold poll. rewrite bind_get.
  rewrite H. exact Hbody.
Qed.

Lemma poll_keeps_open_until (w : tick_world) : keeps circuit_open_until (poll cfg lib w).
Proof.
  unfold poll. apply keeps_bind; [apply keeps_get|]. intros s0.
  destruct (circuit_open cfg s0 (now w)).
  - apply keeps_bind; [apply keeps_emit|]. intros; apply keeps_ret.
  - apply keeps_bind; [apply keeps_emit|]. intros _.
    apply keeps_bind; [apply keeps_answer|]. intros drive_id.
    apply keeps_bind; [apply keeps_emit|]. intros _.
    apply keeps_bind; [apply keeps_answer|]. intros files.
    destruct files as [|it files]; [apply keeps_ret|].
    apply batch_keeps_open_until.
Qed.

Lemma iteration_failed_eq (w : tick_world) (ex : exn) (s : t) :
  iteration_failed w ex s
  = (Ret false, record_failure (dead_lettered ex (iteration_dl w) s),
     dl_calls (iteration_dl w)).
Proof.
  unfold iteration_failed. run_prog. rewrite write_dead_letter_eq. cbn.
  rewrite app_nil_r. reflexivity.
Qed.

Lemma guarded_poll_keeps_open_until (w : tick_world) :
  keeps circuit_open_until (try_except (poll cfg lib w) (iteration_failed w)).
Proof.
  apply keeps_try_except; [apply poll_keeps_open_until|].
  intros e s. rewrite iteration_failed_eq. unfold dead_lettered.
  destruct (dl_writable _); reflexivity.
Qed.

(** An iteration the breaker suppresses: nothing but the wait. *)
Lemma tick_gated (w : tick_world) (s : t) :
  circuit_open cfg s (now w) = true ->
  tick cfg lib w s
  = (Ret tt, s, [Wait (Z.min (poll_interval cfg) (circuit_open_until s - now w))]).
Proof.
  intros H. unfold tick, try_except, bind. rewrite (poll_gated w s H). reflexivity.
Qed.

(** An iteration the breaker lets through: the guarded [try] block, then
    lines 129-133. *)
Lemma tick_polled (w : tick_world) (s : t) :
  circuit_open cfg s (now w) = false ->
  tick cfg lib w s
  = (Ret tt,
     open_if_tripped cfg (end_time w)
       (state_of (try_except (poll cfg lib w) (iteration_failed w) s)),
     trace_of (try_except (poll cfg lib w) (iteration_failed w) s)
       ++ [Wait (poll_interval cfg)]).
Proof.
  intros H. unfold tick. unfold bind at 1.
  pose proof (poll_not_gated w s) as Hb. specialize (fun b => Hb b H).
  unfold try_except. unfold res_of in Hb.
  destruct (poll cfg lib w s) as [[[b|e] s1] t1]; cbn in *.
  - rewrite (Hb b eq_refl). reflexivity.
  - rewrite iteration_failed_eq. reflexivity.
Qed.

(** No error ends an iteration. *)
Lemma tick_returns (w : tick_world) (s : t) : res_of (tick cfg lib w s) = Ret tt.
Proof.
  destruct (circuit_open cfg s (now w)) eqn:H.
  - rewrite tick_gated by exact H. reflexivity.
  - rewrite tick_polled by exact H. reflexivity.
Qed.

Lemma loop_cons (w : tick_world) (rest : list (bool * tick_world)) (s : t) :
  loop cfg lib ((false, w) :: rest) s
  = (res_of (loop cfg lib rest (state_of (tick cfg lib w s))),
     state_of (loop cfg lib rest (state_of (tick cfg lib w s))),
     trace_of (tick cfg lib w s)
       ++ trace_of (loop cfg lib rest (state_of (tick cfg lib w s)))).
Proof.
  cbn [loop]. pose proof (tick_returns w s) as Hr. unfold res_of in Hr.
  destruct (tick cfg lib w s) as [[r s1] t1] eqn:E. cbn in Hr. subst r.
  rewrite (bind_ret_eq _ _ _ _ _ _ E). reflexivity.
Qed.

End Iteration.

(** ** Claims on the poll loop and its breaker *)

Section LoopClaims.

Import Daemon.

Variable cfg : settings.
Variable lib : pylib.

Lemma poll_discovery_raises (w : tick_world) (s : t) (e : exn) :
  circuit_open cfg s (now w) = false ->
  discovery_raises w e ->
  res_of (poll cfg lib w s) = Raise e
  /\ state_of (poll cfg lib w s) = s
  /\ List.filter is_dead_letter_call (trace_of (poll cfg lib w s)) = []
  /\ hd_error (trace_of (poll cfg lib w s)) = Some ResolveDriveAndItem.
Proof.
  intros H Hd. unfold poll. rewrite bind_get, H. run_prog.
  destruct Hd as [Hr|(d & Hr & Hl)]; rewrite Hr; cbn; [repeat split|].
  rewrite Hl. cbn. repeat split.
Qed.

Lemma should_poll_open (s : t) (n : Z) :
  should_poll cfg s n = true <-> circuit_open cfg s n = false.
Proof. unfold should_poll. destruct (circuit_open cfg s n); cbn; split; congruence. Qed.

(** C8, as the code has it. An iteration whose discovery raises counts as
    one failure: the iteration returns, the failure count grows by exactly
    one, and one dead-letter write is attempted - the directory is made,
    then the file is opened. The file gains exactly the record of this
    error when the three steps of that write return, and no record at all
    when one of them raises, which the loop swallows. The counters and the
    processor are untouched, the check of lines 129-130 runs on the new
    count, and the loop goes on with the next iteration. *)
Theorem discovery_failure_is_one_failure
    (w : tick_world) (s : t) (e : exn) (rest : list (bool * tick_world)) :
  should_poll cfg s (now w) = true ->
  discovery_raises w e ->
  res_of (tick cfg lib w s) = Ret tt
  /\ failure_count (state_of (tick cfg lib w s)) = failure_count s + 1
  /\ List.filter is_dead_letter_call (trace_of (tick cfg lib w s))
     = DeadLetterMkdir :: (if dl_mkdir_ok (iteration_dl w) then [DeadLetterOpen] else [])
  /\ dead_letters (state_of (tick cfg lib w s))
     = (if dl_mkdir_ok (iteration_dl w) && dl_open_ok (iteration_dl w)
           && dl_write_ok (iteration_dl w)
        then dead_letters s
               ++ [{| dl_error := exn_text e; dl_time := dl_clock (iteration_dl w) |}]
        else dead_letters s)
  /\ FILES_PROCESSED (state_of (tick cfg lib w s)) = FILES_PROCESSED s
  /\ FILES_SUCCEEDED (state_of (tick cfg lib w s)) = FILES_SUCCEEDED s
  /\ FILES_FAILED (state_of (tick cfg lib w s)) = FILES_FAILED s
  /\ processor (state_of (tick cfg lib w s)) = processor s
  /\ circuit_open_until (state_of (tick cfg lib w s))
     = (if circuit_threshold cfg <=? failure_count s + 1
        then end_time w + circuit_reset_seconds cfg
        else circuit_open_until s)
  /\ loop cfg lib ((false, w) :: rest) s
     = (res_of (loop cfg lib rest (state_of (tick cfg lib w s))),
        state_of (loop cfg lib rest (state_of (tick cfg lib w s))),
        trace_of (tick cfg lib w s)
          ++ trace_of (loop cfg lib rest (state_of (tick cfg lib w s)))).
Proof.
  intros Hp Hd. apply should_poll_open in Hp.
  split; [apply tick_returns|].
  rewrite loop_cons. rewrite (tick_polled cfg lib w s Hp).
  destruct (poll_discovery_raises w s e Hp Hd) as (Hr & Hs & Ht & _).
  unfold try_except. unfold res_of, state_of, trace_of in Hr, Hs, Ht.
  destruct (poll cfg lib w s) as [[r s1] t1]. cbn in Hr, Hs, Ht. subst r s1.
  rewrite iteration_failed_eq. cbn.
  unfold open_if_tripped, dead_lettered, dl_writable, dl_calls.
  rewrite !List.filter_app, Ht. cbn.
  destruct (dl_mkdir_ok (iteration_dl w)), (dl_open_ok (iteration_dl w)),
    (dl_write_ok (iteration_dl w)); cbn;
    destruct (circuit_threshold cfg <=? failure_count s + 1); cbn;
    repeat split; reflexivity.
Qed.

Lemma open_if_tripped_failure_count (e : Z) (s : t) :
  failure_count (open_if_tripped cfg e s) = failure_count s.
Proof. unfold open_if_tripped. destruct (_ <=? _); reflexivity. Qed.

(** C1, as the code has it. In every iteration that polls - the trial after
    a cooldown among them - the window is set to the end of the iteration
    plus the reset time whenever the failure count then stands at or above
    the threshold, and is left alone otherwise; no failure need have been
    recorded in that iteration: a trial that lists no file leaves the count
    where it was and so opens a fresh window. A success read from a future
    sets the count to zero. *)
Theorem polled_tick_reopens_while_tripped (w : tick_world) (s : t) :
  should_poll cfg s (now w) = true ->
  circuit_open_until (state_of (tick cfg lib w s))
  = (if circuit_threshold cfg <=? failure_count (state_of (tick cfg lib w s))
     then end_time w + circuit_reset_seconds cfg
     else circuit_open_until s)
  /\ (forall drive_id, resolve_result w = Ret drive_id -> list_result w = Ret [] ->
      failure_count (state_of (tick cfg lib w s)) = failure_count s
      /\ dead_letters (state_of (tick cfg lib w s)) = dead_letters s
      /\ (circuit_threshold cfg <= failure_count s ->
          circuit_open_until (state_of (tick cfg lib w s))
          = end_time w + circuit_reset_seconds cfg))
  /\ (forall id n c a s0,
      failure_count (state_of (handle_future (Ret (FileProcessor.Success id n c)) a s0))
      = 0).
Proof.
  intros Hp. apply should_poll_open in Hp.
  rewrite (tick_polled cfg lib w s Hp). cbn [state_of fst snd].
  pose proof (guarded_poll_keeps_open_until cfg lib w s) as Hk.
  split; [|split].
  - rewrite open_if_tripped_failure_count. unfold open_if_tripped.
    destruct (_ <=? _); cbn; [reflexivity|exact Hk].
  - intros d Hr Hl.
    assert (try_except (poll cfg lib w) (iteration_failed w) s
            = (Ret false, s, [ResolveDriveAndItem; ListNewFiles])) as ->.
    { unfold try_except, poll. rewrite bind_get, Hp. run_prog.
      rewrite Hr, Hl. reflexivity. }
    cbn. rewrite open_if_tripped_failure_count. unfold open_if_tripped.
    split; [reflexivity|]. split.
    + destruct (_ <=? _); reflexivity.
    + intros Hth. apply Z.leb_le in Hth. rewrite Hth. reflexivity.
  - intros. reflexivity.
Qed.

(** The failure count after breaker actions that record no success. *)
Lemma apply_ops_failure_count (ops : list breaker_op) (s : t) :
  forallb (fun op => negb (is_success_op op)) ops = true ->
  failure_count (apply_ops cfg ops s) = failure_count s + failures_in ops.
Proof.
  unfold apply_ops, failures_in. revert s.
  induction ops as [|op ops IH]; intros s Hns; cbn [foldl].
  - cbn. lia.
  - cbn in Hns. apply andb_true_iff in Hns as [Hop Hns].
    rewrite (IH _ Hns). destruct op; cbn in *; try discriminate.
    + lia.
    + rewrite open_if_tripped_failure_count. lia.
Qed.

Lemma apply_ops_app (ops1 ops2 : list breaker_op) (s : t) :
  apply_ops cfg (ops1 ++ ops2) s = apply_ops cfg ops2 (apply_ops cfg ops1 s).
Proof. unfold apply_ops. apply foldl_app. Qed.

(** The breaker actions alone: from a failure count of zero, [threshold]
    failures and no success, then the end of an iteration at [e]. *)
Lemma apply_ops_opens_breaker
    (ops : list breaker_op) (e : Z) (s : t) :
  0 < circuit_threshold cfg ->
  failure_count s = 0 ->
  forallb (fun op => negb (is_success_op op)) ops = true ->
  failures_in ops = circuit_threshold cfg ->
  failure_count (apply_ops cfg (ops ++ [EndOfTick e]) s) = circuit_threshold cfg
  /\ circuit_open_until (apply_ops cfg (ops ++ [EndOfTick e]) s)
     = e + circuit_reset_seconds cfg
  /\ (forall n, n < e + circuit_reset_seconds cfg ->
      should_poll cfg (apply_ops cfg (ops ++ [EndOfTick e]) s) n = false)
  /\ (forall n, e + circuit_reset_seconds cfg <= n ->
      should_poll cfg (apply_ops cfg (ops ++ [EndOfTick e]) s) n = true)
  /\ (forall s0 n, failure_count (record_success s0) = 0
                   /\ should_poll cfg (record_success s0) n = true).
Proof.
  intros Hth H0 Hns Hcount.
  pose proof (apply_ops_failure_count ops s Hns) as Hfc.
  rewrite H0, Hcount in Hfc. cbn in Hfc.
  rewrite apply_ops_app. cbn [apply_ops foldl apply_op].
  set (s1 := apply_ops cfg ops s) in *.
  assert (open_if_tripped cfg e s1
          = set_circuit_open_until (e + circuit_reset_seconds cfg) s1) as ->.
  { unfold open_if_tripped. rewrite Hfc, Z.leb_refl. reflexivity. }
  unfold should_poll, circuit_open. cbn. rewrite Hfc, Z.leb_refl. cbn.
  split; [reflexivity|]. split; [reflexivity|]. split; [|split].
  - intros n Hn. apply Z.ltb_lt in Hn. rewrite Hn. reflexivity.
  - intros n Hn. apply Z.ltb_ge in Hn. rewrite Hn. reflexivity.
  - intros s0 n. split; [reflexivity|].
    assert ((circuit_threshold cfg <=? 0) = false) as -> by (apply Z.leb_gt; lia).
    reflexivity.
Qed.

End LoopClaims.

(** C1, as stated, on the default settings: the breaker has tripped and its
    cooldown has just ended; the trial lists no file, so it records no
    failure - and the window moves from 100 to 161. *)
Lemma trial_without_failure_extends_cooldown :
  Daemon.should_poll Fixtures.default_settings Fixtures.tripped 100 = true
  /\ Daemon.failure_count
       (state_of (Daemon.tick Fixtures.default_settings Fixtures.toy_lib
                    (Fixtures.quiet_tick 100 101) Fixtures.tripped)) = 5
  /\ Daemon.FILES_FAILED
       (state_of (Daemon.tick Fixtures.default_settings Fixtures.toy_lib
                    (Fixtures.quiet_tick 100 101) Fixtures.tripped)) = 0
  /\ Daemon.dead_letters
       (state_of (Daemon.tick Fixtures.default_settings Fixtures.toy_lib
                    (Fixtures.quiet_tick 100 101) Fixtures.tripped)) = []
  /\ Daemon.circuit_open_until Fixtures.tripped = 100
  /\ Daemon.circuit_open_until
       (state_of (Daemon.tick Fixtures.default_settings Fixtures.toy_lib
                    (Fixtures.quiet_tick 100 101) Fixtures.tripped)) = 161.
Proof. vm_compute. repeat split. Qed.

Lemma polled_tick_reopens_while_tripped_witness :
  Daemon.circuit_open_until
    (state_of (Daemon.tick Fixtures.default_settings Fixtures.toy_lib
                 (Fixtures.quiet_tick 100 101) Fixtures.tripped))
  = (if Daemon.circuit_threshold Fixtures.default_settings
        <=? Daemon.failure_count
              (state_of (Daemon.tick Fixtures.default_settings Fixtures.toy_lib
                           (Fixtures.quiet_tick 100 101) Fixtures.tripped))
     then 101 + 60 else 100).
Proof.
  apply (polled_tick_reopens_while_tripped Fixtures.default_settings
           Fixtures.toy_lib (Fixtures.quiet_tick 100 101) Fixtures.tripped).
  vm_compute. reflexivity.
Defined.

(** C8, as stated: the folder cannot be resolved and the directory of the
    dead-letter file cannot be created; the iteration counts one failure
    and no record is appended. *)
Lemma failed_dead_letter_write_appends_no_record :
  Daemon.should_poll Fixtures.default_settings
    (Daemon.start Fixtures.fresh_processor) 10 = true
  /\ Daemon.discovery_raises (Fixtures.unlogged_tick 10 11)
       (Exn "HTTPError" "404 Not Found")
  /\ Daemon.tick Fixtures.default_settings Fixtures.toy_lib
       (Fixtures.unlogged_tick 10 11) (Daemon.start Fixtures.fresh_processor)
     = (Ret tt, Daemon.mk 1 0 0 0 0 [] Fixtures.fresh_processor,
        [Daemon.ResolveDriveAndItem; Daemon.DeadLetterMkdir; Daemon.Wait 300])
  /\ Daemon.dead_letters
       (state_of (Daemon.tick Fixtures.default_settings Fixtures.toy_lib
                    (Fixtures.unlogged_tick 10 11)
                    (Daemon.start Fixtures.fresh_processor)))
     = Daemon.dead_letters (Daemon.start Fixtures.fresh_processor).
Proof.
  split; [vm_compute; reflexivity|]. split; [left; reflexivity|].
  split; vm_compute; reflexivity.
Qed.

Lemma discovery_failure_is_one_failure_witness :
  Daemon.failure_count
    (state_of (Daemon.tick Fixtures.default_settings Fixtures.toy_lib
                 (Fixtures.broken_tick 10 11) (Daemon.start Fixtures.fresh_processor)))
  = 0 + 1
  /\ Daemon.dead_letters
       (state_of (Daemon.tick Fixtures.default_settings Fixtures.toy_lib
                    (Fixtures.broken_tick 10 11) (Daemon.start Fixtures.fresh_processor)))
     = [{| Daemon.dl_error := "404 Not Found"; Daemon.dl_time := 10 |}].
Proof.
  destruct (discovery_failure_is_one_failure Fixtures.default_settings
              Fixtures.toy_lib (Fixtures.broken_tick 10 11)
              (Daemon.start Fixtures.fresh_processor)
              (Exn "HTTPError" "404 Not Found") [])
    as (_ & Hfc & _ & Hdl & _).
  - vm_compute. reflexivity.
  - left. reflexivity.
  - split; [exact Hfc|exact Hdl].
Defined.

(** ** Ledger idempotence *)

Section Idempotence.

Import FileProcessor.

Variable lib : pylib.

Lemma uploads_of_app (n : string) (t1 t2 : list call) :
  uploads_of n (t1 ++ t2) = (uploads_of n t1 + uploads_of n t2)%nat.
Proof. unfold uploads_of. rewrite List.filter_app, length_app. reflexivity. Qed.

Lemma process_all_cons (drive_id : string) (it : item) (w : world)
    (rest : list (string * item * world)) (p : t) :
  process_all lib ((drive_id, it, w) :: rest) p
  = (res_of (process_file lib drive_id it w p)
       :: (process_all lib rest (state_of (process_file lib drive_id it w p))).1.1,
     (process_all lib rest (state_of (process_file lib drive_id it w p))).1.2,
     trace_of (process_file lib drive_id it w p)
       ++ (process_all lib rest (state_of (process_file lib drive_id it w p))).2).
Proof.
  cbn [process_all]. destruct (process_file lib drive_id it w p) as [[r p1] t1].
  cbn. destruct (process_all lib rest p1) as [[rs p2] t2]. reflexivity.
Qed.

(** Once a name is in the ledger, every later call for it is skipped and
    none uploads under it, whatever the calls in between do. *)
Lemma process_all_after_commit (calls : list (string * item * world)) (p : t)
    (n : string) :
  is_Some (processed p !! n) ->
  (forall i drive_id it w,
      calls !! i = Some (drive_id, it, w) -> name_of it = n ->
      (process_all lib calls p).1.1 !! i = Some (Ret (Skipped "already_processed" n)))
  /\ uploads_of n (process_all lib calls p).2 = 0%nat
  /\ is_Some (processed (process_all lib calls p).1.2 !! n).
Proof.
  revert p. induction calls as [|[[d it] w] rest IH]; intros p Hin.
  - cbn. split; [intros i d it w Hi; by rewrite lookup_nil in Hi|]. split; [reflexivity|exact Hin].
  - rewrite process_all_cons. cbn [fst snd].
    pose proof (process_file_ledger_mono lib d it w p n Hin) as Hin1.
    destruct (IH _ Hin1) as (Hres & Hup & Hfin).
    split; [|split].
    + intros [|i] d' it' w' Hi Hname.
      * cbn in Hi. injection Hi as -> -> ->. subst n.
        rewrite process_file_already_processed by exact Hin. reflexivity.
      * exact (Hres i d' it' w' Hi Hname).
    + rewrite uploads_of_app, Hup.
      destruct (decide (n = name_of it)) as [->|Hne].
      * rewrite process_file_already_processed by exact Hin. reflexivity.
      * rewrite (proj2 (process_file_uploads lib d it w p n) Hne). reflexivity.
    + exact Hfin.
Qed.

(** C7, as the code has it. Once [process_file] has returned a success for
    a name, every later call for that name - in the same iteration or in a
    later one, whatever happens in between - returns the [already_processed]
    skip, and from the successful call on [upload_asset] is invoked for the
    name exactly once, by that call. *)
Theorem ledger_idempotence
    (drive_id : string) (it : item) (w : world) (p : t)
    (a : pyval) (n c : string) (rest : list (string * item * world)) :
  res_of (process_file lib drive_id it w p) = Ret (Success a n c) ->
  (forall i drive_id' it' w',
      rest !! i = Some (drive_id', it', w') -> name_of it' = n ->
      (process_all lib ((drive_id, it, w) :: rest) p).1.1 !! S i
      = Some (Ret (Skipped "already_processed" n)))
  /\ uploads_of n (process_all lib ((drive_id, it, w) :: rest) p).2 = 1%nat.
Proof.
  intros Hs. destruct (process_file_success lib _ _ _ _ _ _ _ Hs) as (_ & _ & Hc & Hu).
  rewrite process_all_cons. cbn [fst snd].
  destruct (process_all_after_commit rest
              (state_of (process_file lib drive_id it w p)) n) as (Hres & Hup & _).
  { rewrite Hc. eauto. }
  split.
  - intros i d' it' w' Hi Hname. exact (Hres i d' it' w' Hi Hname).
  - rewrite uploads_of_app, Hu, Hup. reflexivity.
Qed.

End Idempotence.

(** C7, as stated: the first attempt fails in the upload, the second
    succeeds, the third is skipped - [upload_asset] was invoked twice for
    the name. *)
Lemma failed_upload_is_retried :
  (FileProcessor.process_all Fixtures.toy_lib
     [("drive"%string, Fixtures.abc_item, Fixtures.upload_down);
      ("drive"%string, Fixtures.abc_item, Fixtures.dummy_world);
      ("drive"%string, Fixtures.abc_item, Fixtures.dummy_world)]
     Fixtures.fresh_processor).1.1
  = [Raise (Exn "HTTPError" "503 Server Error");
     Ret (FileProcessor.Success (PStr "asset123") "ABC123_FRONT_01.jpg" "ABC123");
     Ret (FileProcessor.Skipped "already_processed" "ABC123_FRONT_01.jpg")]
  /\ FileProcessor.uploads_of "ABC123_FRONT_01.jpg"
       (FileProcessor.process_all Fixtures.toy_lib
          [("drive"%string, Fixtures.abc_item, Fixtures.upload_down);
           ("drive"%string, Fixtures.abc_item, Fixtures.dummy_world);
           ("drive"%string, Fixtures.abc_item, Fixtures.dummy_world)]
          Fixtures.fresh_processor).2
     = 2%nat.
Proof. vm_compute. split; reflexivity. Qed.

Lemma ledger_idempotence_witness :
  FileProcessor.uploads_of "ABC123_FRONT_01.jpg"
    (FileProcessor.process_all Fixtures.toy_lib
       (("drive"%string, Fixtures.abc_item, Fixtures.dummy_world)
          :: [("drive"%string, Fixtures.abc_item, Fixtures.dummy_world);
              ("drive"%string, Fixtures.bad_item, Fixtures.dummy_world)])
       Fixtures.fresh_processor).2
  = 1%nat.
Proof.
  apply (ledger_idempotence Fixtures.toy_lib "drive" Fixtures.abc_item
           Fixtures.dummy_world Fixtures.fresh_processor
           (PStr "asset123") "ABC123_FRONT_01.jpg" "ABC123").
  vm_compute. reflexivity.
Defined.

(** ** The thread pool *)

Section PoolFacts.

Import Pool.

Variable lib : pylib.
Variable drive_id : string.

Lemma step_name (w : worker) (p : FileProcessor.t) :
  w_name (step lib drive_id w p).1 = w_name w.
Proof.
  unfold step. destruct (w_pc w); try reflexivity.
  - destruct (bool_decide _); [reflexivity|].
    destruct (negb _); [reflexivity|].
    destruct (FileProcessor.extract_product_code _) as [[[c ty] ver]|e]; reflexivity.
  - destruct (FileProcessor.download_result _); reflexivity.
  - destruct (FileProcessor.upload_result _); reflexivity.
  - destruct (FileProcessor._save_processed lib _ p) as [[r p'] calls]. reflexivity.
Qed.

Lemma save_processed_uploads (wr : FileProcessor.write_result) (p : FileProcessor.t)
    (n : string) :
  FileProcessor.uploads_of n (trace_of (FileProcessor._save_processed lib wr p)) = 0%nat.
Proof. unfold FileProcessor._save_processed. run_prog. destruct wr; reflexivity. Qed.

Lemma at_pc_quiet_ok (w : worker) (c : pc) (calls : list FileProcessor.call) :
  worker_ok w ->
  (forall n, FileProcessor.uploads_of n calls = 0%nat) ->
  (before_upload c = true -> before_upload (w_pc w) = true) ->
  worker_ok (at_pc w c calls).
Proof.
  intros Hok Hq Hc n. destruct (Hok n) as (H1 & Hother & Hbefore).
  unfold at_pc, w_name. cbn [w_calls w_pc w_item].
  rewrite uploads_of_app, Hq, Nat.add_0_r. repeat split; auto.
Qed.

Lemma at_pc_upload_ok (w : worker) (c : pc) (stream : string) :
  worker_ok w ->
  before_upload (w_pc w) = true ->
  before_upload c = false ->
  worker_ok (at_pc w c [FileProcessor.UploadAsset stream (w_name w)]).
Proof.
  intros Hok Hb Hc n. destruct (Hok n) as (_ & _ & Hbefore).
  unfold at_pc. cbn [w_calls w_pc]. rewrite uploads_of_app, (Hbefore Hb).
  change (w_name {| w_item := w_item w; w_world := w_world w; w_pc := c;
                    w_calls := w_calls w ++ [FileProcessor.UploadAsset stream (w_name w)] |})
    with (w_name w).
  unfold FileProcessor.uploads_of. cbn [List.filter FileProcessor.is_upload_of].
  destruct (String.eqb_spec (w_name w) n) as [->|Hne]; cbn [length Nat.add].
  - split; [lia|]. split; intros; congruence.
  - split; [lia|]. split; intros; reflexivity.
Qed.

Lemma step_ok (w : worker) (p : FileProcessor.t) :
  worker_ok w -> worker_ok (step lib drive_id w p).1.
Proof.
  intros Hok. unfold step. destruct (w_pc w) eqn:Hpc.
  - destruct (bool_decide _); [|destruct (negb _);
      [|destruct (FileProcessor.extract_product_code _) as [[[c ty] ver]|e]]];
      cbn [fst]; apply at_pc_quiet_ok; auto; rewrite Hpc; reflexivity.
  - destruct (FileProcessor.download_result _); cbn [fst];
      apply at_pc_quiet_ok; auto; rewrite Hpc; reflexivity.
  - destruct (FileProcessor.upload_result _); cbn [fst];
      apply at_pc_upload_ok; auto; rewrite Hpc; reflexivity.
  - cbn [fst]. apply at_pc_quiet_ok; auto. discriminate.
  - cbn [fst]. apply at_pc_quiet_ok; auto. discriminate.
  - pose proof (save_processed_uploads (FileProcessor.save_result (w_world w)) p) as Hs.
    unfold trace_of in Hs.
    destruct (FileProcessor._save_processed lib _ p) as [[r p'] calls].
    cbn [fst snd] in *. apply at_pc_quiet_ok; auto. discriminate.
  - exact Hok.
Qed.

Lemma spawn_ok (it : FileProcessor.item) (wd : FileProcessor.world) :
  worker_ok (spawn it wd).
Proof. intros n. cbn. repeat split; auto. Qed.

Lemma step_at_ok (i : nat) (st : pool) :
  Forall worker_ok st.1 -> Forall worker_ok (step_at lib drive_id i st).1.
Proof.
  intros H. unfold step_at. destruct (st.1 !! i) as [w|] eqn:Hi; [|exact H].
  pose proof (step_ok w st.2) as Hw. pose proof (Forall_lookup_1 _ _ _ _ H Hi) as Hwi.
  destruct (step lib drive_id w st.2) as [w' p']. cbn in *.
  apply Forall_insert; auto.
Qed.

Lemma step_at_names (i : nat) (st : pool) :
  map w_name (step_at lib drive_id i st).1 = map w_name st.1.
Proof.
  unfold step_at. destruct (st.1 !! i) as [w|] eqn:Hi; [|reflexivity].
  pose proof (step_name w st.2) as Hn.
  destruct (step lib drive_id w st.2) as [w' p']. cbn in *.
  rewrite list_fmap_insert, Hn. apply list_insert_id.
  rewrite list_lookup_fmap, Hi. reflexivity.
Qed.

Lemma run_ok_names (sched : list nat) (st : pool) :
  Forall worker_ok st.1 ->
  Forall worker_ok (run lib drive_id sched st).1
  /\ map w_name (run lib drive_id sched st).1 = map w_name st.1.
Proof.
  unfold run. revert st. induction sched as [|i sched IH]; intros st H; cbn [foldl].
  - split; [exact H|reflexivity].
  - destruct (IH (step_at lib drive_id i st) (step_at_ok i st H)) as (Hok & Hn).
    split; [exact Hok|]. rewrite Hn. apply step_at_names.
Qed.

(** Workers with pairwise different names upload each name at most once. *)
Lemma distinct_names_upload_once (ws : list worker) (n : string) :
  Forall worker_ok ws -> NoDup (map w_name ws) -> (total_uploads n ws <= 1)%nat.
Proof.
  unfold total_uploads. induction ws as [|w ws IH]; intros Hok Hnd; cbn; [lia|].
  apply Forall_cons in Hok as [Hw Hok]. cbn in Hnd. apply NoDup_cons in Hnd as [Hnotin Hnd].
  destruct (decide (n = w_name w)) as [->|Hne].
  - assert (sum_list (map (fun w0 => FileProcessor.uploads_of (w_name w) (w_calls w0)) ws)
            = 0%nat) as ->.
    { clear IH Hnd. induction ws as [|w' ws IH']; [reflexivity|]. cbn.
      apply Forall_cons in Hok as [Hw' Hok]. cbn in Hnotin.
      apply not_elem_of_cons in Hnotin as [Hne' Hnotin].
      rewrite (IH' Hok Hnotin).
      destruct (Hw' (w_name w)) as (_ & H0 & _). rewrite (H0 Hne'). reflexivity. }
    destruct (Hw (w_name w)) as (H1 & _). lia.
  - destruct (Hw n) as (_ & H0 & _). rewrite (H0 Hne). cbn. apply IH; assumption.
Qed.

(** C9, as the code has it. [process_file] takes no lock; the check of the
    ledger and the write to it are separate steps of a worker. Under every
    schedule of the workers of a batch whose names are pairwise different -
    what a folder listing gives - each name is uploaded at most once. *)
Theorem distinct_names_are_uploaded_once
    (batch : list (FileProcessor.item * FileProcessor.world))
    (p : FileProcessor.t) (sched : list nat) (n : string) :
  NoDup (map (fun b => FileProcessor.name_of b.1) batch) ->
  (total_uploads n
     (run lib drive_id sched (map (fun b => spawn b.1 b.2) batch, p)).1 <= 1)%nat.
Proof.
  intros Hnd.
  destruct (run_ok_names sched (map (fun b => spawn b.1 b.2) batch, p)) as (Hok & Hn).
  { cbn. apply Forall_fmap. apply Forall_forall. intros b _. apply spawn_ok. }
  apply distinct_names_upload_once; [exact Hok|].
  rewrite Hn. cbn. rewrite <- list_fmap_compose. exact Hnd.
Qed.

(** The steps of the interleaving model, run by one worker alone, add up to
    [process_file]: same result, same calls, same processor. *)
Lemma run_alone_is_process_file (it : FileProcessor.item) (wd : FileProcessor.world)
    (p : FileProcessor.t) :
  run_alone lib drive_id 6 (spawn it wd) p
  = ({| w_item := it; w_world := wd;
        w_pc := Done (res_of (FileProcessor.process_file lib drive_id it wd p));
        w_calls := trace_of (FileProcessor.process_file lib drive_id it wd p) |},
     state_of (FileProcessor.process_file lib drive_id it wd p)).
Proof.
  rewrite process_file_eq. cbv zeta. unfold run_alone, step, spawn, at_pc, w_name.
  cbn [w_pc w_item w_world w_calls]. fold (FileProcessor.name_of it).
  destruct (bool_decide _); [reflexivity|].
  destruct (negb _); [reflexivity|].
  destruct (FileProcessor.extract_product_code _) as [[[c ty] ver]|e]; [|reflexivity].
  cbn [w_pc w_item w_world w_calls].
  destruct (FileProcessor.download_result wd) as [stream|e]; [|reflexivity].
  cbn [w_pc w_item w_world w_calls].
  destruct (FileProcessor.upload_result wd) as [result|e]; [|reflexivity].
  cbn [w_pc w_item w_world w_calls].
  unfold FileProcessor._save_processed, FileProcessor.committed. run_prog.
  destruct (FileProcessor.save_result wd); reflexivity.
Qed.

End PoolFacts.

(** C9, as stated: two workers of one batch carry the same name; scheduled
    in turns, both pass the check before either writes the ledger, both
    upload and both return a success. *)
Lemma same_name_is_uploaded_twice :
  map Pool.w_pc
    (Pool.run Fixtures.toy_lib "drive" [0; 1; 0; 1; 0; 1; 0; 1; 0; 1; 0; 1]%nat
       ([Pool.spawn Fixtures.abc_item Fixtures.dummy_world;
         Pool.spawn Fixtures.abc_item Fixtures.dummy_world],
        Fixtures.fresh_processor)).1
  = [Pool.Done (Ret (FileProcessor.Success (PStr "asset123") "ABC123_FRONT_01.jpg" "ABC123"));
     Pool.Done (Ret (FileProcessor.Success (PStr "asset123") "ABC123_FRONT_01.jpg" "ABC123"))]
  /\ Pool.total_uploads "ABC123_FRONT_01.jpg"
       (Pool.run Fixtures.toy_lib "drive" [0; 1; 0; 1; 0; 1; 0; 1; 0; 1; 0; 1]%nat
          ([Pool.spawn Fixtures.abc_item Fixtures.dummy_world;
            Pool.spawn Fixtures.abc_item Fixtures.dummy_world],
           Fixtures.fresh_processor)).1
     = 2%nat.
Proof. vm_compute. split; reflexivity. Qed.

Lemma distinct_names_are_uploaded_once_witness :
  (Pool.total_uploads "ABC123_FRONT_01.jpg"
     (Pool.run Fixtures.toy_lib "drive" [0; 1; 0; 1; 0; 1; 0; 1; 0; 1; 0; 1]%nat
        (map (fun b => Pool.spawn b.1 b.2)
           [(Fixtures.abc_item, Fixtures.dummy_world);
            (Fixtures.bad_item, Fixtures.dummy_world)],
         Fixtures.fresh_processor)).1 <= 1)%nat.
Proof.
  apply (distinct_names_are_uploaded_once Fixtures.toy_lib "drive"
           [(Fixtures.abc_item, Fixtures.dummy_world);
            (Fixtures.bad_item, Fixtures.dummy_world)]).
  apply (bool_decide_unpack _). vm_compute. exact I.
Defined.

(** ** What the loop keeps *)

Section LoopInvariants.

Import Daemon.

Variable cfg : settings.
Variable lib : pylib.

Section Respected.

Variable R : t -> t -> Prop.
Hypothesis HR : respected cfg R.

#[local] Instance respected_preorder : PreOrder R := resp_preorder cfg R HR.

Lemma handle_future_advances (f : result FileProcessor.outcome) (a : dl_answer) :
  advances R (handle_future f a).
Proof.
  intros s. destruct f as [[id n c|reason n]|ex].
  - rewrite handle_future_success. cbn. apply (resp_succeeded cfg R HR).
  - rewrite handle_future_skipped. cbn. apply (resp_processed cfg R HR).
  - rewrite handle_future_raise. cbn. apply (resp_failed cfg R HR).
Qed.

Lemma fan_in_advances (futures : list (result FileProcessor.outcome * dl_answer)) :
  advances R (fan_in futures).
Proof.
  induction futures as [|[f a] rest IH]; cbn [fan_in]; [apply advances_ret; apply _|].
  apply advances_bind; [apply _|apply handle_future_advances|]. intros _. exact IH.
Qed.

Lemma submit_all_advances (drive_id : string) (items : list FileProcessor.item)
    (ws : nat -> file_world) (i : nat) :
  advances R (submit_all lib drive_id items ws i).
Proof.
  revert i. induction items as [|it rest IH]; intros i; cbn [submit_all].
  - apply advances_ret; apply _.
  - apply advances_bind; [apply _| |].
    + intros s. rewrite submit_eq. cbn. apply (resp_processor cfg R HR).
    + intros f. apply advances_bind; [apply _|apply IH|].
      intros fs. apply advances_ret; apply _.
Qed.

Lemma poll_advances (w : tick_world) : advances R (poll cfg lib w).
Proof.
  unfold poll. apply advances_bind; [apply _|apply advances_get; apply _|]. intros s0.
  destruct (circuit_open cfg s0 (now w)).
  - apply advances_bind; [apply _|apply advances_emit; apply _|].
    intros; apply advances_ret; apply _.
  - apply advances_bind; [apply _|apply advances_emit; apply _|]. intros _.
    apply advances_bind; [apply _|apply advances_answer; apply _|]. intros drive_id.
    apply advances_bind; [apply _|apply advances_emit; apply _|]. intros _.
    apply advances_bind; [apply _|apply advances_answer; apply _|]. intros files.
    destruct files as [|it files]; [apply advances_ret; apply _|].
    apply advances_bind; [apply _|apply submit_all_advances|]. intros futures.
    apply advances_bind; [apply _|apply fan_in_advances|]. intros _.
    apply advances_ret; apply _.
Qed.

Lemma tick_advances (w : tick_world) : advances R (tick cfg lib w).
Proof.
  unfold tick. apply advances_bind; [apply _| |].
  - apply advances_try_except; [apply _|apply poll_advances|].
    intros e s. rewrite iteration_failed_eq. cbn. apply (resp_iteration cfg R HR).
  - intros [|]; [apply advances_ret; apply _|].
    apply advances_bind; [apply _| |intros; apply advances_emit; apply _].
    apply advances_modify. apply (resp_open cfg R HR).
Qed.

Lemma loop_advances (ws : list (bool * tick_world)) : advances R (loop cfg lib ws).
Proof.
  induction ws as [|[[|] w] rest IH]; cbn [loop];
    [apply advances_ret; apply _|apply advances_ret; apply _|].
  apply advances_bind; [apply _|apply tick_advances|]. intros _. exact IH.
Qed.

End Respected.

Lemma counted_respected : respected cfg counted.
Proof.
  split.
  - split.
    + intros s. unfold counted. lia.
    + intros s1 s2 s3. unfold counted. lia.
  - intros s. unfold counted. cbn. lia.
  - intros s. unfold counted. cbn. lia.
  - intros ex a s. unfold counted, dead_lettered. destruct (dl_writable a); cbn; lia.
  - intros ex a s. unfold counted, dead_lettered. destruct (dl_writable a); cbn; lia.
  - intros p s. unfold counted. cbn. lia.
  - intros e s. unfold counted, open_if_tripped. destruct (_ <=? _); cbn; lia.
Qed.

Lemma appended_respected : respected cfg appended.
Proof.
  split.
  - split.
    + intros s. unfold appended. reflexivity.
    + intros s1 s2 s3. unfold appended. intros H1 H2. etransitivity; eassumption.
  - intros s. unfold appended. reflexivity.
  - intros s. unfold appended. reflexivity.
  - intros ex a s. unfold appended, dead_lettered. destruct (dl_writable a); cbn;
      [apply prefix_app_r|]; reflexivity.
  - intros ex a s. unfold appended, dead_lettered. destruct (dl_writable a); cbn;
      [apply prefix_app_r|]; reflexivity.
  - intros p s. unfold appended. reflexivity.
  - intros e s. unfold appended, open_if_tripped. destruct (_ <=? _); reflexivity.
Qed.

(** X14. Over any run of the loop the three counters only grow and stay
    consistent: successes plus failures never exceed the files counted as
    processed. *)
Theorem counters_stay_consistent (ws : list (bool * tick_world)) (s : t) :
  FILES_SUCCEEDED s + FILES_FAILED s <= FILES_PROCESSED s ->
  FILES_SUCCEEDED s <= FILES_SUCCEEDED (state_of (loop cfg lib ws s))
  /\ FILES_FAILED s <= FILES_FAILED (state_of (loop cfg lib ws s))
  /\ FILES_PROCESSED s <= FILES_PROCESSED (state_of (loop cfg lib ws s))
  /\ FILES_SUCCEEDED (state_of (loop cfg lib ws s))
       + FILES_FAILED (state_of (loop cfg lib ws s))
     <= FILES_PROCESSED (state_of (loop cfg lib ws s)).
Proof.
  intros H0. pose proof (loop_advances counted counted_respected ws s) as H.
  unfold counted in H. lia.
Qed.

(** X15. The dead-letter file is append-only: whatever the loop does, the
    lines it held are still there, in place, followed by the new ones. *)
Theorem dead_letters_append_only (ws : list (bool * tick_world)) (s : t) :
  exists new, dead_letters (state_of (loop cfg lib ws s)) = dead_letters s ++ new.
Proof. exact (loop_advances appended appended_respected ws s). Qed.

End LoopInvariants.

(** ** The batch and the breaker *)

Section BatchAndBreaker.

Import Daemon.

Variable cfg : settings.
Variable lib : pylib.

Lemma submit_all_length (drive_id : string) (items : list FileProcessor.item)
    (ws : nat -> file_world) (i : nat) :
  ensures (fun fs => length fs = length items) (submit_all lib drive_id items ws i).
Proof.
  revert i. induction items as [|it rest IH]; intros i; cbn [submit_all].
  - apply ensures_ret. reflexivity.
  - apply (ensures_bind (fun _ => True)).
    + intros s. rewrite submit_eq. eexists. split; [reflexivity|exact I].
    + intros f _. apply (ensures_bind (fun fs => length fs = length rest)); [apply IH|].
      intros fs Hfs. apply ensures_ret. cbn. rewrite Hfs. reflexivity.
Qed.

Lemma fan_in_processed (futures : list (result FileProcessor.outcome * dl_answer))
    (s : t) :
  FILES_PROCESSED (state_of (fan_in futures s))
  = FILES_PROCESSED s + Z.of_nat (length futures).
Proof.
  revert s. induction futures as [|[f a] rest IH]; intros s.
  - cbn. lia.
  - rewrite fan_in_cons. cbn [state_of fst snd]. rewrite IH.
    assert (FILES_PROCESSED (state_of (handle_future f a s)) = FILES_PROCESSED s + 1) as ->.
    { destruct f as [[id n c|reason n]|ex].
      - rewrite handle_future_success. reflexivity.
      - rewrite handle_future_skipped. reflexivity.
      - rewrite handle_future_raise. unfold dead_lettered.
        destruct (dl_writable a); reflexivity. }
    cbn [length]. lia.
Qed.

(** The [try] block when the listing returns. *)
Lemma poll_listed (w : tick_world) (s : t) (drive_id : string)
    (files : list FileProcessor.item) :
  circuit_open cfg s (now w) = false ->
  resolve_result w = Ret drive_id ->
  list_result w = Ret files ->
  poll cfg lib w s
  = match files with
    | [] => (Ret false, s, [ResolveDriveAndItem; ListNewFiles])
    | _ =>
        let x :=
          (let* futures :=
             submit_all lib drive_id (take (Z.to_nat (batch_size cfg)) files)
               (file_worlds w) 0 in
           let* _ := fan_in (as_completed (file_worlds w) futures) in
           ret false) s in
        (res_of x, state_of x, [ResolveDriveAndItem; ListNewFiles] ++ trace_of x)
    end.
Proof.
  intros H Hr Hl. unfold poll. rewrite bind_get, H.
  unfold bind at 1. unfold emit at 1. unfold bind at 1. rewrite Hr. unfold answer at 1.
  unfold bind at 1. unfold emit at 1. unfold bind at 1. rewrite Hl. unfold answer at 1.
  destruct files as [|it files]; [reflexivity|]. cbv zeta.
  destruct (bind _ _ s) as [[r s1] t1]. reflexivity.
Qed.

Lemma as_completed_one (ws : nat -> file_world)
    (x : result FileProcessor.outcome * dl_answer) :
  as_completed ws [x] = [x].
Proof. reflexivity. Qed.

(** An iteration that lists one file whose [process_file] raises and leaves
    the processor as it was. *)
Lemma tick_one_file_raises (w : tick_world) (s : t) (drive_id : string)
    (it : FileProcessor.item) (e : exn) :
  0 < batch_size cfg ->
  circuit_open cfg s (now w) = false ->
  resolve_result w = Ret drive_id ->
  list_result w = Ret [it] ->
  res_of (FileProcessor.process_file lib drive_id it (fw_world (file_worlds w 0))
            (processor s)) = Raise e ->
  state_of (FileProcessor.process_file lib drive_id it (fw_world (file_worlds w 0))
              (processor s)) = processor s ->
  res_of (tick cfg lib w s) = Ret tt
  /\ failed_file_counted e (fw_dl (file_worlds w 0)) s (state_of (tick cfg lib w s)).
Proof.
  intros Hb Hp Hr Hl Hres Hst. split; [apply tick_returns|].
  rewrite (tick_polled cfg lib w s Hp). cbn [state_of fst snd].
  unfold try_except. rewrite (poll_listed w s drive_id [it] Hp Hr Hl). cbv zeta.
  assert (take (Z.to_nat (batch_size cfg)) [it] = [it]) as ->.
  { destruct (Z.to_nat (batch_size cfg)) as [|[|n]] eqn:E; [lia|reflexivity..]. }
  set (run := FileProcessor.process_file lib drive_id it (fw_world (file_worlds w 0))
                (processor s)) in *.
  assert (submit_all lib drive_id [it] (file_worlds w) 0 s
          = (Ret [(Raise e, fw_dl (file_worlds w 0))], set_processor (processor s) s,
             map Process (trace_of run) ++ [])) as E1.
  { cbn [submit_all]. erewrite bind_ret_eq by apply submit_eq.
    fold run. rewrite Hres, Hst. reflexivity. }
  rewrite (bind_ret_eq _ _ _ _ _ _ E1). rewrite as_completed_one. cbn [fan_in].
  erewrite (bind_ret_eq (bind _ _)); cycle 1.
  { erewrite bind_ret_eq by apply handle_future_raise. reflexivity. }
  cbn [res_of state_of trace_of fst snd ret].
  unfold failed_file_counted, open_if_tripped, dead_lettered, dl_writable.
  destruct (dl_mkdir_ok _), (dl_open_ok _), (dl_write_ok _); cbn;
    destruct (circuit_threshold cfg <=? failure_count s + 1); cbn; repeat split.
Qed.

(** X13. An iteration hands at most [batch_size] files of the listing to the
    processor: the files counted as processed are the listed ones, capped at
    [batch_size] (which the executor of [run_daemon] requires to be
    positive). *)
Theorem batch_is_capped (w : tick_world) (s : t) (drive_id : string)
    (files : list FileProcessor.item) :
  0 < batch_size cfg ->
  should_poll cfg s (now w) = true ->
  resolve_result w = Ret drive_id ->
  list_result w = Ret files ->
  FILES_PROCESSED (state_of (tick cfg lib w s))
  = FILES_PROCESSED s
    + Z.of_nat (Nat.min (Z.to_nat (batch_size cfg)) (length files)).
Proof.
  intros _ Hp Hr Hl. apply should_poll_open in Hp.
  rewrite (tick_polled cfg lib w s Hp). cbn [state_of fst snd].
  assert (forall e x, FILES_PROCESSED (open_if_tripped cfg e x) = FILES_PROCESSED x) as ->.
  { intros e x. unfold open_if_tripped. destruct (_ <=? _); reflexivity. }
  unfold try_except. rewrite (poll_listed w s drive_id files Hp Hr Hl).
  destruct files as [|it files].
  - cbn. rewrite Nat.min_0_r. lia.
  - cbv zeta. set (batch := take (Z.to_nat (batch_size cfg)) (it :: files)).
    destruct (submit_all_length drive_id batch (file_worlds w) 0 s) as (fs & Hfs & Hlen).
    pose proof (submit_all_keeps lib FILES_PROCESSED drive_id batch (file_worlds w) 0
                  (fun _ _ => eq_refl) s) as Hk.
    unfold res_of, state_of in Hfs, Hk.
    destruct (submit_all lib drive_id batch (file_worlds w) 0 s) as [[r s1] t1] eqn:E.
    cbn in Hfs, Hk. subst r.
    rewrite (bind_ret_eq _ _ _ _ _ _ E).
    pose proof (fan_in_returns (as_completed (file_worlds w) fs) s1) as Hf.
    pose proof (fan_in_processed (as_completed (file_worlds w) fs) s1) as Hc.
    unfold res_of, state_of in Hf, Hc.
    destruct (fan_in (as_completed (file_worlds w) fs) s1) as [[r2 s2] t2] eqn:E2.
    cbn in Hf, Hc. subst r2.
    rewrite (bind_ret_eq _ _ _ _ _ _ E2). cbn.
    rewrite Hc, Hk, as_completed_length, Hlen. unfold batch.
    rewrite length_take. reflexivity.
Qed.

(** The breaker actions of a list of completed futures. *)
Lemma fan_in_breaker (futures : list (result FileProcessor.outcome * dl_answer))
    (s s2 : t) :
  failure_count s = failure_count s2 ->
  failure_count (state_of (fan_in futures s))
  = failure_count (apply_ops cfg (omap (fun f => future_op f.1) futures) s2).
Proof.
  unfold apply_ops. revert s s2.
  induction futures as [|[f a] rest IH]; intros s s2 Hs; [exact Hs|].
  rewrite fan_in_cons. cbn [state_of fst snd].
  destruct (handle_future_state f a s) as (_ & Hfc & _).
  cbn [omap list_omap fst].
  destruct (future_op f) as [op|] eqn:Hop.
  - cbn [foldl]. apply IH. rewrite Hfc.
    destruct f as [[id n c|reason n]|ex]; cbn in Hop; try discriminate;
      injection Hop as <-; cbn; lia.
  - apply IH. rewrite Hfc. exact Hs.
Qed.

Lemma future_ops_keep_open_until
    (futures : list (result FileProcessor.outcome * dl_answer)) (s : t) :
  circuit_open_until (apply_ops cfg (omap (fun f => future_op f.1) futures) s)
  = circuit_open_until s.
Proof.
  unfold apply_ops. revert s.
  induction futures as [|[f a] rest IH]; intros s; [reflexivity|].
  cbn [omap list_omap fst].
  destruct f as [[id n c|reason n]|ex]; cbn; rewrite IH; reflexivity.
Qed.

(** X16. Reading the futures of a batch in whatever order they complete and
    then running the check of lines 129-130 is applying, in that order, the
    breaker action of each future and then the end of the iteration. *)
Theorem fan_in_acts_on_breaker
    (futures : list (result FileProcessor.outcome * dl_answer)) (e : Z) (s : t) :
  let s' := open_if_tripped cfg e (state_of (fan_in futures s)) in
  let ops := omap (fun f => future_op f.1) futures ++ [EndOfTick e] in
  failure_count s' = failure_count (apply_ops cfg ops s)
  /\ circuit_open_until s' = circuit_open_until (apply_ops cfg ops s)
  /\ (forall n, should_poll cfg s' n = should_poll cfg (apply_ops cfg ops s) n).
Proof.
  cbv zeta. rewrite apply_ops_app. unfold apply_ops. cbn [foldl apply_op].
  pose proof (fan_in_breaker futures s s eq_refl) as Hfc.
  pose proof (fan_in_keeps_open_until futures s) as Hou.
  pose proof (future_ops_keep_open_until futures s) as Hou2. unfold apply_ops in Hou2.
  unfold apply_ops in Hfc.
  set (s1 := state_of (fan_in futures s)) in *.
  set (s2 := foldl (apply_op cfg) s (omap (fun f => future_op f.1) futures)) in *.
  unfold should_poll, circuit_open, open_if_tripped.
  rewrite <- Hfc. destruct (circuit_threshold cfg <=? failure_count s1) eqn:E; cbn.
  - rewrite <- Hfc, E. repeat split.
  - rewrite <- Hfc, E, Hou, Hou2. repeat split; exact Hfc.
Qed.

(** An iteration whose discovery raises, as a step of the state. *)
Lemma tick_discovery_failure (w : tick_world) (s : t) (e : exn) :
  circuit_open cfg s (now w) = false ->
  discovery_raises w e ->
  state_of (tick cfg lib w s)
  = open_if_tripped cfg (end_time w)
      (record_failure (dead_lettered e (iteration_dl w) s)).
Proof.
  intros Hp Hd. rewrite (tick_polled cfg lib w s Hp).
  destruct (poll_discovery_raises cfg lib w s e Hp Hd) as (Hr & Hs & _).
  unfold try_except. unfold res_of, state_of in Hr, Hs.
  destruct (poll cfg lib w s) as [[r s1] t1]. cbn in Hr, Hs. subst r s1.
  rewrite iteration_failed_eq. reflexivity.
Qed.

Lemma failing_ticks (ws : list tick_world) (s : t) :
  Forall (fun w => exists e, discovery_raises w e) ws ->
  failure_count s + Z.of_nat (length ws) <= circuit_threshold cfg ->
  failure_count (state_of (loop cfg lib (map (pair false) ws) s))
  = failure_count s + Z.of_nat (length ws)
  /\ (forall wl, last ws = Some wl ->
      failure_count s + Z.of_nat (length ws) = circuit_threshold cfg ->
      circuit_open_until (state_of (loop cfg lib (map (pair false) ws) s))
      = end_time wl + circuit_reset_seconds cfg).
Proof.
  revert s. induction ws as [|w rest IH]; intros s Hall Hle.
  - cbn. split; [lia|]. intros wl Hl. discriminate.
  - apply Forall_cons in Hall as [[e He] Hall]. cbn [length] in Hle.
    cbn [map]. rewrite loop_cons. cbn [state_of fst snd].
    assert (circuit_open cfg s (now w) = false) as Hp.
    { unfold circuit_open. assert ((circuit_threshold cfg <=? failure_count s) = false) as ->
        by (apply Z.leb_gt; lia). reflexivity. }
    rewrite (tick_discovery_failure w s e Hp He).
    set (s1 := open_if_tripped cfg (end_time w)
                 (record_failure (dead_lettered e (iteration_dl w) s))).
    assert (failure_count s1 = failure_count s + 1) as Hfc1.
    { unfold s1. rewrite open_if_tripped_failure_count. unfold dead_lettered.
      destruct (dl_writable _); reflexivity. }
    destruct (IH s1 Hall) as (Hfc & Hou); [rewrite Hfc1; lia|].
    split; [rewrite Hfc, Hfc1; cbn [length]; lia|].
    intros wl Hl Heq. destruct rest as [|w2 rest].
    + cbn in Hl. injection Hl as <-. cbn. unfold s1, open_if_tripped.
      assert ((circuit_threshold cfg
               <=? failure_count (record_failure (dead_lettered e (iteration_dl w) s)))
              = true) as ->.
      { apply Z.leb_le. unfold dead_lettered. destruct (dl_writable _); cbn in *; lia. }
      reflexivity.
    + apply Hou; [exact Hl|]. rewrite Hfc1. cbn [length] in *. lia.
Qed.

(** X17. With a positive threshold and a failure count of zero, [threshold]
    iterations in a row whose discovery raises open the breaker: the count
    stands at the threshold, the window ends [reset] seconds after the end
    of the last of them, and an iteration that starts before that calls no
    collaborator and changes nothing - it only waits, for no longer than
    the poll interval and no longer than the window lasts. *)
Theorem breaker_opens_after_failing_ticks
    (ws : list tick_world) (wl next : tick_world) (s : t) :
  0 < circuit_threshold cfg ->
  failure_count s = 0 ->
  Z.of_nat (length ws) = circuit_threshold cfg ->
  Forall (fun w => exists e, discovery_raises w e) ws ->
  last ws = Some wl ->
  now next < end_time wl + circuit_reset_seconds cfg ->
  let s' := state_of (loop cfg lib (map (pair false) ws) s) in
  failure_count s' = circuit_threshold cfg
  /\ circuit_open_until s' = end_time wl + circuit_reset_seconds cfg
  /\ exists timeout,
       tick cfg lib next s' = (Ret tt, s', [Wait timeout])
       /\ timeout <= poll_interval cfg
       /\ timeout <= end_time wl + circuit_reset_seconds cfg - now next.
Proof.
  intros Hth H0 Hlen Hall Hl Hnext. cbv zeta.
  destruct (failing_ticks ws s Hall) as (Hfc & Hou); [lia|].
  specialize (Hou wl Hl). rewrite H0 in Hfc, Hou. cbn in Hfc, Hou.
  specialize (Hou Hlen). rewrite Hlen in Hfc.
  split; [exact Hfc|]. split; [exact Hou|].
  eexists. split; [|split].
  - apply tick_gated. unfold circuit_open. rewrite Hfc, Hou, Z.leb_refl.
    apply Z.ltb_lt in Hnext. rewrite Hnext. reflexivity.
  - apply Z.le_min_l.
  - rewrite Hou. apply Z.le_min_r.
Qed.

(** *** The breaker over a run of the loop *)

Lemma same_breaker_refl (s : t) : same_breaker s s.
Proof. split; reflexivity. Qed.

Lemma same_breaker_trans (s1 s2 s3 : t) :
  same_breaker s1 s2 -> same_breaker s2 s3 -> same_breaker s1 s3.
Proof. intros [H1 H2] [H3 H4]. split; congruence. Qed.

Lemma apply_op_same (op : breaker_op) (s1 s2 : t) :
  same_breaker s1 s2 -> same_breaker (apply_op cfg s1 op) (apply_op cfg s2 op).
Proof.
  intros [Hfc Hou]. destruct op as [| |e]; cbn.
  - split; cbn; congruence.
  - split; cbn; congruence.
  - unfold open_if_tripped. rewrite Hfc.
    destruct (circuit_threshold cfg <=? failure_count s2); split; cbn; congruence.
Qed.

Lemma apply_ops_same (ops : list breaker_op) (s1 s2 : t) :
  same_breaker s1 s2 -> same_breaker (apply_ops cfg ops s1) (apply_ops cfg ops s2).
Proof.
  unfold apply_ops. revert s1 s2.
  induction ops as [|op ops IH]; intros s1 s2 H; [exact H|].
  cbn [foldl]. apply IH, apply_op_same, H.
Qed.

Lemma fan_in_same (futures : list (result FileProcessor.outcome * dl_answer)) (s : t) :
  same_breaker (state_of (fan_in futures s))
    (apply_ops cfg (omap (fun f => future_op f.1) futures) s).
Proof.
  split.
  - apply fan_in_breaker. reflexivity.
  - rewrite fan_in_keeps_open_until, future_ops_keep_open_until. reflexivity.
Qed.

(** What an iteration does to the breaker is what its breaker actions do. *)
Lemma tick_same (w : tick_world) (s : t) :
  same_breaker (state_of (tick cfg lib w s)) (apply_ops cfg (tick_ops cfg lib w s) s).
Proof.
  unfold tick_ops. destruct (circuit_open cfg s (now w)) eqn:Hp.
  { rewrite (tick_gated cfg lib w s Hp). apply same_breaker_refl. }
  rewrite (tick_polled cfg lib w s Hp). cbn [state_of fst snd].
  rewrite apply_ops_app. unfold apply_ops at 1. cbn [foldl].
  apply (apply_op_same (EndOfTick (end_time w))).
  assert (forall e, discovery_raises w e ->
            same_breaker (state_of (try_except (poll cfg lib w) (iteration_failed w) s))
              (apply_ops cfg [RecordFailure] s)) as Hfail.
  { intros e Hd.
    destruct (poll_discovery_raises cfg lib w s e Hp Hd) as (Hr & Hs & _).
    unfold try_except. unfold res_of, state_of in Hr, Hs.
    destruct (poll cfg lib w s) as [[r s1] t1]. cbn in Hr, Hs. subst r s1.
    rewrite iteration_failed_eq. cbn. unfold dead_lettered.
    destruct (dl_writable _); split; reflexivity. }
  destruct (resolve_result w) as [drive_id|e] eqn:Hr;
    [|apply (Hfail e); left; exact Hr].
  destruct (list_result w) as [files|e] eqn:Hl;
    [|apply (Hfail e); right; exists drive_id; split; [exact Hr|exact Hl]].
  unfold try_except. rewrite (poll_listed w s drive_id files Hp Hr Hl).
  destruct files as [|it files]; [apply same_breaker_refl|]. cbv zeta.
  set (batch := take (Z.to_nat (batch_size cfg)) (it :: files)).
  destruct (submit_all_returns lib drive_id batch (file_worlds w) 0 s) as (fs & Hfs & _).
  pose proof (submit_all_keeps lib failure_count drive_id batch (file_worlds w) 0
                (fun _ _ => eq_refl) s) as Hk1.
  pose proof (submit_all_keeps lib circuit_open_until drive_id batch (file_worlds w) 0
                (fun _ _ => eq_refl) s) as Hk2.
  rewrite Hfs. unfold res_of, state_of in Hfs, Hk1, Hk2.
  destruct (submit_all lib drive_id batch (file_worlds w) 0 s) as [[r s1] t1] eqn:E.
  cbn in Hfs, Hk1, Hk2. subst r.
  rewrite (bind_ret_eq _ _ _ _ _ _ E).
  pose proof (fan_in_returns (as_completed (file_worlds w) fs) s1) as Hf.
  unfold res_of in Hf.
  pose proof (fan_in_same (as_completed (file_worlds w) fs) s1) as Hsame.
  unfold state_of in Hsame.
  destruct (fan_in (as_completed (file_worlds w) fs) s1) as [[r2 s2] t2] eqn:E2.
  cbn in Hf, Hsame. subst r2.
  rewrite (bind_ret_eq _ _ _ _ _ _ E2). cbn.
  apply (same_breaker_trans _ _ _ Hsame). apply apply_ops_same. split; assumption.
Qed.

Lemma loop_same (ws : list tick_world) (s : t) :
  same_breaker (state_of (loop cfg lib (map (pair false) ws) s))
    (apply_ops cfg (loop_ops cfg lib ws s) s).
Proof.
  revert s. induction ws as [|w rest IH]; intros s; [apply same_breaker_refl|].
  cbn [map loop_ops]. rewrite loop_cons. cbn [state_of fst snd].
  rewrite apply_ops_app.
  apply (same_breaker_trans _ _ _ (IH _)). apply apply_ops_same, tick_same.
Qed.

Lemma loop_app (ws1 ws2 : list tick_world) (s : t) :
  state_of (loop cfg lib (map (pair false) (ws1 ++ ws2)) s)
  = state_of (loop cfg lib (map (pair false) ws2)
                (state_of (loop cfg lib (map (pair false) ws1) s))).
Proof.
  revert s. induction ws1 as [|w rest IH]; intros s; [reflexivity|].
  cbn [app map]. rewrite !loop_cons. cbn [state_of fst snd]. apply IH.
Qed.

Lemma loop_ops_app (ws1 ws2 : list tick_world) (s : t) :
  loop_ops cfg lib (ws1 ++ ws2) s
  = loop_ops cfg lib ws1 s
      ++ loop_ops cfg lib ws2 (state_of (loop cfg lib (map (pair false) ws1) s)).
Proof.
  revert s. induction ws1 as [|w rest IH]; intros s; [reflexivity|].
  cbn [app map loop_ops]. rewrite loop_cons. cbn [state_of fst snd].
  rewrite IH, app_assoc. reflexivity.
Qed.

Lemma failures_in_app (ops1 ops2 : list breaker_op) :
  failures_in (ops1 ++ ops2) = failures_in ops1 + failures_in ops2.
Proof. unfold failures_in. rewrite List.filter_app, length_app. lia. Qed.

(** An iteration the breaker lets through starts with the discovery. *)
Lemma polled_tick_calls_discovery (w : tick_world) (s : t) :
  circuit_open cfg s (now w) = false ->
  exists rest, trace_of (tick cfg lib w s) = ResolveDriveAndItem :: rest.
Proof.
  intros Hp. rewrite (tick_polled cfg lib w s Hp). cbn [trace_of snd].
  assert (exists rest, trace_of (poll cfg lib w s) = ResolveDriveAndItem :: rest) as [r Hr].
  { unfold poll. rewrite bind_get, Hp. unfold bind at 1. unfold emit at 1.
    destruct (bind _ _ s) as [[r1 s1] t1]. eexists. reflexivity. }
  unfold try_except, trace_of in *.
  destruct (poll cfg lib w s) as [[[b|e] s1] t1]; cbn in Hr; subst t1.
  - eexists. reflexivity.
  - destruct (iteration_failed w e s1) as [[r2 s2] t2]. eexists. reflexivity.
Qed.

(** An iteration the breaker suppresses only waits. *)
Lemma gated_tick_only_waits (w : tick_world) (s : t) :
  circuit_open cfg s (now w) = true ->
  exists timeout,
    tick cfg lib w s = (Ret tt, s, [Wait timeout])
    /\ timeout <= poll_interval cfg
    /\ timeout <= circuit_open_until s - now w.
Proof.
  intros Hp. eexists. split; [apply tick_gated; exact Hp|].
  split; [apply Z.le_min_l|apply Z.le_min_r].
Qed.

(** C5. The loop starts with a failure count of zero and runs iterations in
    which it records exactly [threshold] failures and no success, the last
    of them in the iteration [wl]. Then the count stands at the threshold
    and the window ends [reset] seconds after the end of [wl]; an iteration
    that starts before the end of the window is suppressed - it calls no
    collaborator, changes nothing and only waits - and one that starts at
    the end of the window or later polls: its first call is the discovery.
    A success read from a future, in whatever state, sets the count to
    zero, and the next iteration polls. *)
Theorem breaker_opens_after_threshold_failures
    (ws : list tick_world) (wl next : tick_world) (s : t) :
  0 < circuit_threshold cfg ->
  failure_count s = 0 ->
  forallb (fun op => negb (is_success_op op)) (loop_ops cfg lib (ws ++ [wl]) s) = true ->
  failures_in (loop_ops cfg lib (ws ++ [wl]) s) = circuit_threshold cfg ->
  failures_in (loop_ops cfg lib ws s) < circuit_threshold cfg ->
  let s' := state_of (loop cfg lib (map (pair false) (ws ++ [wl])) s) in
  failure_count s' = circuit_threshold cfg
  /\ circuit_open_until s' = end_time wl + circuit_reset_seconds cfg
  /\ (now next < circuit_open_until s' ->
      should_poll cfg s' (now next) = false
      /\ exists timeout,
           tick cfg lib next s' = (Ret tt, s', [Wait timeout])
           /\ timeout <= poll_interval cfg
           /\ timeout <= circuit_open_until s' - now next)
  /\ (circuit_open_until s' <= now next ->
      should_poll cfg s' (now next) = true
      /\ exists rest, trace_of (tick cfg lib next s') = ResolveDriveAndItem :: rest)
  /\ (forall id n c a s0,
      failure_count (state_of (handle_future (Ret (FileProcessor.Success id n c)) a s0))
      = 0
      /\ should_poll cfg
           (state_of (handle_future (Ret (FileProcessor.Success id n c)) a s0))
           (now next) = true
      /\ exists rest,
           trace_of (tick cfg lib next
                       (state_of (handle_future (Ret (FileProcessor.Success id n c)) a s0)))
           = ResolveDriveAndItem :: rest).
Proof.
  intros Hth H0 Hns Hcount Hbefore. cbv zeta.
  set (s' := state_of (loop cfg lib (map (pair false) (ws ++ [wl])) s)).
  (* the iterations before the last leave the breaker closed *)
  set (s1 := state_of (loop cfg lib (map (pair false) ws) s)).
  rewrite loop_ops_app in Hns, Hcount. fold s1 in Hns, Hcount.
  rewrite forallb_app in Hns. apply andb_true_iff in Hns as [Hns0 Hns1].
  rewrite failures_in_app in Hcount.
  assert (failure_count s1 = failures_in (loop_ops cfg lib ws s)) as Hfc1.
  { unfold s1. destruct (loop_same ws s) as [-> _].
    rewrite (apply_ops_failure_count cfg _ _ Hns0). lia. }
  assert (circuit_open cfg s1 (now wl) = false) as Hp1.
  { unfold circuit_open.
    assert ((circuit_threshold cfg <=? failure_count s1) = false) as ->
      by (apply Z.leb_gt; lia).
    reflexivity. }
  (* the last iteration polls; its actions end with the check *)
  cbn [loop_ops] in Hns1, Hcount. rewrite app_nil_r in Hns1, Hcount.
  assert (exists body, tick_ops cfg lib wl s1 = body ++ [EndOfTick (end_time wl)])
    as [body Hbody].
  { unfold tick_ops. rewrite Hp1. eexists. reflexivity. }
  rewrite Hbody in Hns1, Hcount.
  rewrite forallb_app in Hns1. apply andb_true_iff in Hns1 as [Hnsb _].
  rewrite failures_in_app in Hcount. change (failures_in [EndOfTick (end_time wl)]) with 0 in Hcount.
  assert (same_breaker s'
            (open_if_tripped cfg (end_time wl) (apply_ops cfg body s1))) as [Hfc Hou].
  { unfold s'. rewrite loop_app. fold s1. cbn [map]. rewrite loop_cons. cbn.
    apply (same_breaker_trans _ _ _ (tick_same wl s1)).
    rewrite Hbody, apply_ops_app. apply same_breaker_refl. }
  pose proof (apply_ops_failure_count cfg body s1 Hnsb) as Hfcb.
  assert (failure_count (apply_ops cfg body s1) = circuit_threshold cfg) as Hth1 by lia.
  assert (failure_count s' = circuit_threshold cfg) as Hfc'.
  { rewrite Hfc, open_if_tripped_failure_count. exact Hth1. }
  assert (circuit_open_until s' = end_time wl + circuit_reset_seconds cfg) as Hou'.
  { rewrite Hou. unfold open_if_tripped. rewrite Hth1, Z.leb_refl. reflexivity. }
  split; [exact Hfc'|]. split; [exact Hou'|]. split; [|split].
  - intros Hnext.
    assert (circuit_open cfg s' (now next) = true) as Hopen.
    { unfold circuit_open. rewrite Hfc', Z.leb_refl.
      apply Z.ltb_lt in Hnext. rewrite Hnext. reflexivity. }
    split; [unfold should_poll; rewrite Hopen; reflexivity|].
    apply gated_tick_only_waits. exact Hopen.
  - intros Hnext.
    assert (circuit_open cfg s' (now next) = false) as Hclosed.
    { unfold circuit_open. apply Z.ltb_ge in Hnext. rewrite Hnext.
      apply andb_false_r. }
    split; [unfold should_poll; rewrite Hclosed; reflexivity|].
    apply polled_tick_calls_discovery. exact Hclosed.
  - intros id n c a s0. rewrite handle_future_success. cbn [state_of fst snd].
    assert (circuit_open cfg (record_success (inc_succeeded (inc_processed s0))) (now next)
            = false) as Hclosed.
    { unfold circuit_open. cbn.
      assert ((circuit_threshold cfg <=? 0) = false) as -> by (apply Z.leb_gt; lia).
      reflexivity. }
    split; [reflexivity|].
    split; [unfold should_poll; rewrite Hclosed; reflexivity|].
    apply polled_tick_calls_discovery. exact Hclosed.
Qed.

End BatchAndBreaker.

(** ** More on the authenticator *)

Section AuthMore.

Import AzureAuthenticator.

Variable float_of_str : string -> option Z.

Lemma acquire_trace (app : msal_app) (a : t) :
  trace_of (acquire app a)
  = [GetAccounts; AcquireTokenSilent (head (accounts app))]
    ++ match silent_result app with
       | Ret r => if opt_truthy r then [] else [AcquireTokenForClient]
       | Raise _ => []
       end.
Proof.
  unfold acquire. run_prog.
  destruct (silent_result app) as [r|e]; cbn; [|reflexivity].
  destruct (opt_truthy r); cbn; [reflexivity|].
  destruct (client_result app); reflexivity.
Qed.

Lemma refresh_trace (now : Z) (app : msal_app) (a : t) :
  trace_of (refresh float_of_str now app a) = trace_of (acquire app a).
Proof.
  unfold refresh. unfold bind at 1. unfold trace_of.
  destruct (acquire app a) as [[[r|e] a1] t1]; [|reflexivity].
  destruct r as [d|]; [|cbn; apply app_nil_r].
  destruct (bool_decide _); cbn; [|apply app_nil_r].
  run_prog. destruct (py_float _ _); cbn; [|apply app_nil_r].
  destruct (d !! "access_token"%string); cbn; apply app_nil_r.
Qed.

(** X1. The order of the calls on the credential provider: none when the
    cache is fresh; otherwise the accounts are read and the silent path is
    tried first, with the first account if there is one, and the
    client-credentials exchange is made only when the silent path returned
    [None] or an empty dict - never after a silent path that raised or gave
    a result. The exchange is made at most once per call. *)
Theorem provider_call_protocol (now : Z) (app : msal_app) (a : t) :
  trace_of (get_access_token float_of_str now app a)
  = if cache_fresh a now then []
    else [GetAccounts; AcquireTokenSilent (head (accounts app))]
         ++ match silent_result app with
            | Ret r => if opt_truthy r then [] else [AcquireTokenForClient]
            | Raise _ => []
            end.
Proof.
  unfold get_access_token. rewrite bind_get.
  destruct (cache_fresh a now) eqn:Hf.
  - unfold cache_fresh in Hf. destruct (_cached_token a) as [tok|]; [|discriminate].
    unfold dict_item. destruct (tok !! "access_token"%string); reflexivity.
  - rewrite refresh_trace. apply acquire_trace.
Qed.

Lemma round_double_exact (z : Z) : Z.abs z < MANTISSA -> round_double z = z.
Proof.
  intros H. unfold round_double. apply Z.ltb_lt in H. rewrite H. reflexivity.
Qed.

Lemma float_of_int_exact (z : Z) : Z.abs z < MANTISSA -> float_of_int z = Ret z.
Proof.
  intros H. unfold float_of_int. rewrite (round_double_exact z H).
  assert (MANTISSA < DOUBLE_LIMIT) as Hlim by (vm_compute; reflexivity).
  assert ((DOUBLE_LIMIT <=? Z.abs z) = false) as -> by (apply Z.leb_gt; lia).
  reflexivity.
Qed.

(** X2. A refresh that succeeds: the provider's dict is cached, the expiry
    is the double [now + float(expires_in)] - exactly that sum when it lies
    below [2 ^ 53], with [expires_in] taken as 3000 when the dict has none -
    and the token is returned; every later call made more than the margin
    before that expiry returns the same token without a call on the
    provider. [float] has returned [z]: it rounds an [int] beyond [2 ^ 53]
    and raises for one beyond the doubles. *)
Theorem refresh_caches_until_expiry
    (now later : Z) (app app' : msal_app) (a : t) (d : pydict) (v : pyval) (z : Z) :
  cache_fresh a now = false ->
  res_of (acquire app a) = Ret (Some d) ->
  d !! "access_token"%string = Some v ->
  py_float float_of_str (default (PInt 3000) (d !! "expires_in"%string)) = Ret z ->
  res_of (get_access_token float_of_str now app a) = Ret v
  /\ state_of (get_access_token float_of_str now app a)
     = {| token_refresh_margin_seconds := token_refresh_margin_seconds a;
          _cached_token := Some d;
          _token_expiry_epoch := fl_add now z |}
  /\ (Z.abs (now + z) < 2 ^ 53 -> fl_add now z = now + z)
  /\ (d !! "expires_in"%string = None -> z = 3000)
  /\ (forall n, d !! "expires_in"%string = Some (PInt n) ->
        Z.abs n < 2 ^ 53 -> z = n)
  /\ (later < fl_add now z - token_refresh_margin_seconds a ->
      get_access_token float_of_str later app'
        (state_of (get_access_token float_of_str now app a))
      = (Ret v, state_of (get_access_token float_of_str now app a), [])).
Proof.
  intros Hf Hacq Hv Hz.
  assert (get_access_token float_of_str now app a
          = (Ret v,
             {| token_refresh_margin_seconds := token_refresh_margin_seconds a;
                _cached_token := Some d;
                _token_expiry_epoch := fl_add now z |},
             trace_of (acquire app a))) as Heq.
  { unfold get_access_token. rewrite bind_get, Hf. unfold refresh.
    pose proof (acquire_state app a) as Hst. unfold state_of in Hst.
    unfold res_of in Hacq. unfold trace_of.
    destruct (acquire app a) as [[r a1] t1] eqn:E. cbn in Hst, Hacq. subst a1 r.
    rewrite (bind_ret_eq _ _ _ _ _ _ E). cbv beta iota.
    rewrite bool_decide_eq_true_2 by (rewrite Hv; eauto). cbn [negb].
    run_prog. rewrite Hz, Hv. cbn. rewrite !app_nil_r. reflexivity. }
  rewrite Heq. cbn [res_of state_of fst snd].
  split; [reflexivity|]. split; [reflexivity|]. split; [|split; [|split]].
  - intros Hs. apply round_double_exact. exact Hs.
  - intros Hn. rewrite Hn in Hz. change (float_of_int 3000 = Ret z) in Hz.
    rewrite float_of_int_exact in Hz by (vm_compute; reflexivity). congruence.
  - intros n Hn Hsmall. rewrite Hn in Hz. change (float_of_int n = Ret z) in Hz.
    rewrite (float_of_int_exact n Hsmall) in Hz. congruence.
  - intros Hl.
    apply (cached_token_fresh_path float_of_str later app' _ d v);
      [reflexivity|exact Hv|exact Hl].
Qed.

(** A call that raises: the expiry and the margin are the old ones, and so
    is the cached token unless [float] raised on [expires_in]. *)
Lemma raising_call_keeps_expiry (now : Z) (app : msal_app) (a : t) (e : exn) :
  res_of (get_access_token float_of_str now app a) = Raise e ->
  _token_expiry_epoch (state_of (get_access_token float_of_str now app a))
  = _token_expiry_epoch a
  /\ token_refresh_margin_seconds (state_of (get_access_token float_of_str now app a))
     = token_refresh_margin_seconds a
  /\ (_cached_token (state_of (get_access_token float_of_str now app a))
      = _cached_token a
      \/ exists d, res_of (acquire app a) = Ret (Some d)
                   /\ is_Some (d !! "access_token"%string)
                   /\ py_float float_of_str (default (PInt 3000) (d !! "expires_in"%string))
                      = Raise e
                   /\ _cached_token (state_of (get_access_token float_of_str now app a))
                      = Some d).
Proof.
  unfold get_access_token. rewrite bind_get.
  assert (forall (r : result pyval) (tr : list msal_call),
             res_of (r, a, tr) = Raise e ->
             _token_expiry_epoch (state_of (r, a, tr)) = _token_expiry_epoch a
             /\ token_refresh_margin_seconds (state_of (r, a, tr))
                = token_refresh_margin_seconds a
             /\ (_cached_token (state_of (r, a, tr)) = _cached_token a
                 \/ exists d, res_of (acquire app a) = Ret (Some d)
                     /\ is_Some (d !! "access_token"%string)
                     /\ py_float float_of_str
                          (default (PInt 3000) (d !! "expires_in"%string)) = Raise e
                     /\ _cached_token (state_of (r, a, tr)) = Some d)) as Hsame.
  { intros r tr _. split; [reflexivity|]. split; [reflexivity|]. left. reflexivity. }
  destruct (cache_fresh a now).
  - destruct (_cached_token a) as [tok|]; [|apply Hsame].
    unfold dict_item. destruct (tok !! "access_token"%string); apply Hsame.
  - unfold refresh.
    pose proof (acquire_state app a) as Hst. unfold state_of in Hst.
    destruct (acquire app a) as [[r a1] t1] eqn:E. cbn in Hst. subst a1.
    destruct r as [r|e'].
    + rewrite (bind_ret_eq _ _ _ _ _ _ E).
      destruct r as [d|]; [|apply Hsame].
      destruct (bool_decide (is_Some (d !! "access_token"%string))) eqn:Hd;
        cbn [negb]; [|apply Hsame].
      apply bool_decide_eq_true_1 in Hd. run_prog.
      destruct (py_float _ _) as [z|e''] eqn:Hz; cbn.
      * destruct Hd as [v Hv]. rewrite Hv. cbn. discriminate.
      * intros [= ->]. split; [reflexivity|]. split; [reflexivity|].
        right. exists d. repeat split; auto.
    + rewrite (bind_raise_eq _ _ _ _ _ _ E). apply Hsame.
Qed.

(** X3. A call that raises never moves the expiry. It leaves the cached
    token alone as well, except in one case: the provider's dict has a token
    but [float] raises on its [expires_in] - it is not a number, or it is an
    [int] beyond the doubles - then the dict has already been cached when
    [float] raises, and it stays cached under the old expiry. So it is for
    an [expires_in] that rounds to [2 ^ 1024] or beyond: the call raises
    [OverflowError] and the dict is cached. *)
Theorem failed_call_keeps_expiry (now : Z) (app : msal_app) (a : t) (e : exn) :
  res_of (get_access_token float_of_str now app a) = Raise e ->
  _token_expiry_epoch (state_of (get_access_token float_of_str now app a))
  = _token_expiry_epoch a
  /\ token_refresh_margin_seconds (state_of (get_access_token float_of_str now app a))
     = token_refresh_margin_seconds a
  /\ (_cached_token (state_of (get_access_token float_of_str now app a))
      = _cached_token a
      \/ exists d, res_of (acquire app a) = Ret (Some d)
                   /\ is_Some (d !! "access_token"%string)
                   /\ py_float float_of_str (default (PInt 3000) (d !! "expires_in"%string))
                      = Raise e
                   /\ _cached_token (state_of (get_access_token float_of_str now app a))
                      = Some d)
  /\ (forall d n,
        cache_fresh a now = false ->
        res_of (acquire app a) = Ret (Some d) ->
        is_Some (d !! "access_token"%string) ->
        d !! "expires_in"%string = Some (PInt n) ->
        2 ^ 1024 <= Z.abs (round_double n) ->
        e = Exn "OverflowError" "int too large to convert to float"
        /\ _cached_token (state_of (get_access_token float_of_str now app a)) = Some d).
Proof.
  intros Hraise.
  destruct (raising_call_keeps_expiry now app a e Hraise) as (He & Hm & Hc).
  split; [exact He|]. split; [exact Hm|]. split; [exact Hc|].
  intros d n Hf Hacq Hd Hn Hbig. revert Hraise.
  unfold get_access_token. rewrite bind_get, Hf. unfold refresh.
  pose proof (acquire_state app a) as Hst. unfold state_of in Hst.
  unfold res_of in Hacq.
  destruct (acquire app a) as [[r a1] t1] eqn:E. cbn in Hst, Hacq. subst a1 r.
  rewrite (bind_ret_eq _ _ _ _ _ _ E). cbv beta iota.
  rewrite bool_decide_eq_true_2 by exact Hd. cbn [negb].
  run_prog. rewrite Hn.
  change (py_float float_of_str (default (PInt 3000) (Some (PInt n))))
    with (float_of_int n).
  unfold float_of_int.
  change DOUBLE_LIMIT with (2 ^ 1024).
  assert ((2 ^ 1024 <=? Z.abs (round_double n)) = true) as -> by (apply Z.leb_le; exact Hbig).
  cbn. intros [= <-]. split; reflexivity.
Qed.

(** X4. Every cached dict holds a token, from construction on and after any
    call; so a call on a fresh cache always returns, without a call on the
    provider. *)
Theorem fresh_cache_always_returns (now : Z) (app : msal_app) (a : t) :
  cache_wf a ->
  cache_wf (state_of (get_access_token float_of_str now app a))
  /\ (cache_fresh a now = true ->
      exists v, get_access_token float_of_str now app a = (Ret v, a, [])).
Proof.
  intros Hwf. split; [apply get_access_token_cache_wf; exact Hwf|].
  intros Hf. unfold get_access_token. rewrite bind_get, Hf.
  unfold cache_fresh in Hf. destruct (_cached_token a) as [tok|] eqn:Hc; [|discriminate].
  destruct (Hwf tok Hc) as [v Hv]. exists v. unfold dict_item. rewrite Hv. reflexivity.
Qed.

End AuthMore.

(** ** More on the processor *)

Section ProcessorMore.

Import FileProcessor.

Variable lib : pylib.

(** X5. The association and the write of the ledger file cannot make a file
    fail: whatever they answer, [process_file] returns the same result, makes
    the same calls and leaves the same ledger in memory. *)
Theorem association_and_save_cannot_fail_a_file
    (drive_id : string) (it : item) (w w' : world) (p : t) :
  download_result w' = download_result w ->
  upload_result w' = upload_result w ->
  res_of (process_file lib drive_id it w' p) = res_of (process_file lib drive_id it w p)
  /\ trace_of (process_file lib drive_id it w' p)
     = trace_of (process_file lib drive_id it w p)
  /\ processed (state_of (process_file lib drive_id it w' p))
     = processed (state_of (process_file lib drive_id it w p)).
Proof.
  intros Hd Hu. rewrite !process_file_eq. cbv zeta. rewrite Hd, Hu.
  destruct (bool_decide _); [repeat split|].
  destruct (negb _); [repeat split|].
  destruct (extract_product_code _) as [[[c ty] ver]|e]; [|repeat split].
  destruct (download_result w) as [stream|e]; [|repeat split].
  destruct (upload_result w) as [result|e]; [|repeat split].
  unfold committed. destruct (save_result w), (save_result w'); repeat split.
Qed.

(** X6. The ledger in memory changes only when a file succeeds, and then by
    exactly that file's name, marked [True]; a skip makes no call on any
    collaborator; and every name stays marked [True]. *)
Theorem ledger_changes_only_on_success
    (drive_id : string) (it : item) (w : world) (p : t) :
  processed (state_of (process_file lib drive_id it w p))
  = match res_of (process_file lib drive_id it w p) with
    | Ret (Success _ n _) => <[n := true]> (processed p)
    | _ => processed p
    end
  /\ (forall reason n,
        res_of (process_file lib drive_id it w p) = Ret (Skipped reason n) ->
        process_file lib drive_id it w p = (Ret (Skipped reason n), p, []))
  /\ (ledger_wf (processed p) ->
      ledger_wf (processed (state_of (process_file lib drive_id it w p)))).
Proof.
  rewrite process_file_eq. cbv zeta.
  destruct (bool_decide _); [cbn; split; [reflexivity|split; [intros ? ? [= <- <-]; reflexivity|auto]]|].
  destruct (negb _); [cbn; split; [reflexivity|split; [intros ? ? [= <- <-]; reflexivity|auto]]|].
  destruct (extract_product_code _) as [[[c ty] ver]|e];
    [|cbn; split; [reflexivity|split; [discriminate|auto]]].
  destruct (download_result w) as [stream|e];
    [|cbn; split; [reflexivity|split; [discriminate|auto]]].
  destruct (upload_result w) as [result|e];
    [|cbn; split; [reflexivity|split; [discriminate|auto]]].
  cbn. unfold committed. split; [destruct (save_result w); reflexivity|].
  split; [discriminate|].
  intros Hwf n b. destruct (save_result w); cbn;
    (destruct (decide (name_of it = n)) as [->|Hne];
     [rewrite lookup_insert_eq; congruence
     |rewrite lookup_insert_ne by exact Hne; apply Hwf]).
Qed.

(** X7. The ledger never forgets: over any sequence of calls, whatever they
    do, a name that is in the ledger stays in it. *)
Theorem ledger_never_forgets
    (calls : list (string * item * world)) (p : t) (n : string) :
  is_Some (processed p !! n) ->
  is_Some (processed (process_all lib calls p).1.2 !! n).
Proof. intros H. apply (process_all_after_commit lib calls p n H). Qed.

Lemma init_eq (f : file_state) :
  init lib f
  = (Ret (set_processed
            (match f with
             | Content text =>
                 match json_loads lib (if String.eqb text "" then "[]" else text) with
                 | Some (JList l) => names_dict lib l
                 | _ => ∅
                 end
             | _ => ∅
             end) {| processed := ∅; disk := f |}),
     set_processed
       (match f with
        | Content text =>
            match json_loads lib (if String.eqb text "" then "[]" else text) with
            | Some (JList l) => names_dict lib l
            | _ => ∅
            end
        | _ => ∅
        end) {| processed := ∅; disk := f |},
     []).
Proof. unfold init. run_prog. rewrite load_processed_eq. reflexivity. Qed.

(** X8. What was listed in the ledger file when the processor was built is
    never transferred again: a file of that name is skipped as already
    processed, without a call on any collaborator. *)
Theorem loaded_names_are_skipped
    (f : file_state) (drive_id : string) (it : item) (w : world) :
  name_of it ∈ listed_names lib f ->
  process_file lib drive_id it w (state_of (init lib f))
  = (Ret (Skipped "already_processed" (name_of it)), state_of (init lib f), []).
Proof.
  intros Hin. apply process_file_already_processed.
  rewrite init_eq. cbn [state_of fst snd set_processed processed].
  unfold listed_names in Hin. destruct f as [| |text];
    try (by apply elem_of_nil in Hin).
  destruct (json_loads lib _) as [j|]; [|by apply elem_of_nil in Hin].
  destruct j; try (by apply elem_of_nil in Hin).
  rewrite names_dict_lookup, decide_True by exact Hin. eauto.
Qed.

Lemma map_str_JStr (l : list string) : List.map (py_str_json lib) (List.map JStr l) = l.
Proof. induction l as [|x l IH]; [reflexivity|]. cbn. rewrite IH. reflexivity. Qed.

Lemma elem_of_sorted_keys (m : gmap string bool) (n : string) :
  n ∈ sorted_keys m <-> is_Some (m !! n).
Proof.
  unfold sorted_keys. rewrite merge_sort_Permutation.
  change (List.map fst (map_to_list m)) with (fst <$> map_to_list m).
  rewrite list_elem_of_fmap. split.
  - intros ([k v] & -> & Hkv). apply elem_of_map_to_list in Hkv. cbn. eauto.
  - intros [v Hv]. exists (n, v). split; [reflexivity|]. by apply elem_of_map_to_list.
Qed.

Lemma names_dict_sorted_keys (m : gmap string bool) :
  ledger_wf m -> names_dict lib (List.map JStr (sorted_keys m)) = m.
Proof.
  intros Hwf. apply map_eq. intros n.
  rewrite names_dict_lookup, map_str_JStr.
  destruct (decide (n ∈ sorted_keys m)) as [Hin|Hnin].
  - apply elem_of_sorted_keys in Hin as [b Hb]. rewrite Hb. by rewrite (Hwf n b Hb).
  - destruct (m !! n) as [b|] eqn:Hb; [|reflexivity].
    exfalso. apply Hnin. apply elem_of_sorted_keys. eauto.
Qed.

(** X9. What a success writes to the ledger file, a new processor reads
    back: when the write goes through and the JSON library reads the written
    text back as the list of names it encoded, a processor built from the
    file holds the same ledger as the one in memory. *)
Theorem saved_ledger_loads_back
    (drive_id : string) (it : item) (w : world) (p : t) (a : pyval) (n c : string) :
  ledger_wf (processed p) ->
  res_of (process_file lib drive_id it w p) = Ret (Success a n c) ->
  save_result w = Written ->
  json_dumps lib (sorted_keys (<[n := true]> (processed p))) <> ""%string ->
  json_loads lib (json_dumps lib (sorted_keys (<[n := true]> (processed p))))
  = Some (JList (List.map JStr (sorted_keys (<[n := true]> (processed p))))) ->
  processed (state_of (init lib (disk (state_of (process_file lib drive_id it w p)))))
  = processed (state_of (process_file lib drive_id it w p)).
Proof.
  intros Hwf Hs Hw Hne Hrt.
  destruct (process_file_success lib _ _ _ _ _ _ _ Hs) as (-> & _).
  revert Hs. rewrite process_file_eq. cbv zeta.
  destruct (bool_decide _); [discriminate|].
  destruct (negb _); [discriminate|].
  destruct (extract_product_code _) as [[[c' ty] ver]|e]; [|discriminate].
  destruct (download_result w) as [stream|e]; [|discriminate].
  destruct (upload_result w) as [result|e]; [|discriminate].
  intros _. cbn [state_of fst snd]. unfold committed. rewrite Hw.
  cbn [disk set_disk set_processed processed]. rewrite init_eq.
  cbn [state_of fst snd set_processed processed].
  apply String.eqb_neq in Hne. rewrite Hne, Hrt.
  apply names_dict_sorted_keys.
  intros k b. destruct (decide (name_of it = k)) as [->|Hk].
  - rewrite lookup_insert_eq. congruence.
  - rewrite lookup_insert_ne by exact Hk. apply Hwf.
Qed.

End ProcessorMore.

(** ** Strings and file names *)

Section StringFacts.

Import PyString.

Lemma append_cons (x : ascii) (a b : string) :
  String x a +:+ b = String x (a +:+ b).
Proof. reflexivity. Qed.

Lemma append_empty_l (b : string) : "" +:+ b = b.
Proof. reflexivity. Qed.

Lemma append_empty_r (a : string) : a +:+ "" = a.
Proof.
  induction a as [|x a IH]; [reflexivity|]. rewrite append_cons, IH. reflexivity.
Qed.

Ltac unfold_append := rewrite ?append_empty_l, ?append_cons; cbn.

Lemma length_append (a b : string) :
  String.length (a +:+ b) = (String.length a + String.length b)%nat.
Proof. induction a as [|x a IH]; unfold_append; [reflexivity|]. rewrite IH. reflexivity. Qed.

Lemma contains_append (c : ascii) (a b : string) :
  contains c (a +:+ b) = contains c a || contains c b.
Proof.
  induction a as [|x a IH]; unfold_append; [reflexivity|]. rewrite IH. apply orb_assoc.
Qed.

Lemma split_without_sep (sep : ascii) (s : string) :
  contains sep s = false -> split sep s = [s].
Proof.
  induction s as [|x s IH]; cbn; [reflexivity|].
  intros H. apply orb_false_iff in H as [Hx Hs]. rewrite Hx, (IH Hs). reflexivity.
Qed.

Lemma split_append (sep : ascii) (a r : string) :
  contains sep a = false ->
  split sep (a +:+ String sep r) = a :: split sep r.
Proof.
  induction a as [|x a IH]; unfold_append.
  - intros _. rewrite Ascii.eqb_refl. reflexivity.
  - intros H. apply orb_false_iff in H as [Hx Ha]. rewrite Hx, (IH Ha). reflexivity.
Qed.

Lemma rfind_without (c : ascii) (s : string) :
  contains c s = false -> rfind c s = None.
Proof.
  induction s as [|x s IH]; cbn; [reflexivity|].
  intros H. apply orb_false_iff in H as [Hx Hs]. rewrite (IH Hs), Hx. reflexivity.
Qed.

Lemma rfind_append (c : ascii) (a e : string) :
  contains c e = false ->
  rfind c (a +:+ String c e) = Some (String.length a).
Proof.
  intros He. induction a as [|x a IH]; unfold_append.
  - rewrite (rfind_without c e He), Ascii.eqb_refl. reflexivity.
  - rewrite IH. reflexivity.
Qed.

Lemma take_str_append (a r : string) : take_str (String.length a) (a +:+ r) = a.
Proof.
  unfold take_str. induction a as [|x a IH]; unfold_append.
  - destruct r; reflexivity.
  - rewrite IH. reflexivity.
Qed.

Lemma substring_all (r : string) : String.substring 0 (String.length r) r = r.
Proof. induction r as [|x r IH]; cbn; [reflexivity|]. rewrite IH. reflexivity. Qed.

Lemma drop_str_append (a r : string) : drop_str (String.length a) (a +:+ r) = r.
Proof.
  unfold drop_str. rewrite length_append.
  replace (String.length a + String.length r - String.length a)%nat
    with (String.length r) by lia.
  induction a as [|x a IH]; unfold_append; [apply substring_all|exact IH].
Qed.

Lemma name_without_slash (p : string) :
  contains "/" p = false -> p <> ""%string -> p <> "."%string -> PyPath.name p = p.
Proof.
  intros Hs He Hd. unfold PyPath.name. rewrite (split_without_sep _ _ Hs). cbn.
  unfold PyPath.keep_part.
  apply String.eqb_neq in He. apply String.eqb_neq in Hd. rewrite He, Hd. reflexivity.
Qed.

(** The stem and the suffix of [st.e]. *)
Lemma stem_suffix_of (st e : string) :
  contains "/" st = false -> st <> ""%string ->
  contains "/" e = false -> contains "." e = false -> e <> ""%string ->
  PyPath.stem (st +:+ String "." e) = st
  /\ PyPath.suffix (st +:+ String "." e) = String "." e.
Proof.
  intros Hst Hne Hes Hed Hee.
  assert (PyPath.name (st +:+ String "." e) = st +:+ String "." e) as Hname.
  { apply name_without_slash.
    - rewrite contains_append. cbn. rewrite Hst, Hes. reflexivity.
    - destruct st; [congruence|discriminate].
    - destruct st as [|x [|y st]]; [congruence| |discriminate].
      cbn. destruct e; [congruence|discriminate]. }
  assert (PyPath.suffix_dot (st +:+ String "." e) = Some (String.length st)) as Hdot.
  { unfold PyPath.suffix_dot. rewrite (rfind_append _ _ _ Hed), length_append.
    assert (0 < String.length st)%nat as Hlst by (destruct st; [congruence|cbn; lia]).
    assert (0 < String.length e)%nat as Hle by (destruct e; [congruence|cbn; lia]).
    destruct (_ && _) eqn:E; [reflexivity|]. exfalso.
    apply andb_false_iff in E as [E|E]; apply Nat.ltb_ge in E; cbn in E; lia. }
  unfold PyPath.stem, PyPath.suffix. rewrite Hname, Hdot.
  split; [apply take_str_append|apply drop_str_append].
Qed.

(** X10. Decomposition undoes composition: a file named
    [CODE_TYPE_VERSION.ext], or [CODE_TYPE_VERSION_more.ext], with no
    underscore inside the three parts, decomposes into exactly these parts,
    whatever follows the third. *)
Theorem extract_product_code_of_composed_name (a b c more e : string) :
  contains "_" a = false -> contains "_" b = false -> contains "_" c = false ->
  more = ""%string \/ (exists m, more = String "_" m) ->
  contains "/" (a +:+ "_" +:+ b +:+ "_" +:+ c +:+ more) = false ->
  contains "/" e = false -> contains "." e = false -> e <> ""%string ->
  FileProcessor.extract_product_code
    ((a +:+ "_" +:+ b +:+ "_" +:+ c +:+ more) +:+ "." +:+ e)
  = Ret (a, b, c).
Proof.
  intros Ha Hb Hc Hmore Hslash Hes Hed Hee.
  unfold FileProcessor.extract_product_code.
  change ("." +:+ e) with (String "." e).
  destruct (stem_suffix_of (a +:+ "_" +:+ b +:+ "_" +:+ c +:+ more) e) as [-> _];
    try assumption.
  { destruct a; discriminate. }
  change ("_" +:+ b +:+ "_" +:+ c +:+ more) with (String "_" (b +:+ "_" +:+ c +:+ more)).
  rewrite (split_append _ _ _ Ha).
  change ("_" +:+ c +:+ more) with (String "_" (c +:+ more)).
  rewrite (split_append _ _ _ Hb).
  destruct Hmore as [->|[m ->]].
  - rewrite append_empty_r, (split_without_sep _ _ Hc). reflexivity.
  - rewrite (split_append _ _ _ Hc).
    destruct (split "_" m) as [|h t] eqn:Hm; reflexivity.
Qed.

End StringFacts.

(** ** Claims on the per-file pipeline *)

Section PipelineClaims.

Import FileProcessor.

Variable lib : pylib.

(** A stem without underscore, or with one, has fewer than three parts. *)
Lemma short_stem_raises (a b e : string) :
  PyString.contains "_" a = false -> PyString.contains "_" b = false ->
  PyString.contains "/" a = false -> PyString.contains "/" b = false ->
  a <> ""%string ->
  PyString.contains "/" e = false -> PyString.contains "." e = false -> e <> ""%string ->
  extract_product_code (a +:+ "." +:+ e)
  = Raise (Exn "ValueError" "Filename must be PRODUCTCODE_TYPE_VERSION.ext")
  /\ extract_product_code ((a +:+ "_" +:+ b) +:+ "." +:+ e)
     = Raise (Exn "ValueError" "Filename must be PRODUCTCODE_TYPE_VERSION.ext").
Proof.
  intros Ha Hb Hsa Hsb Hne Hes Hed Hee. unfold extract_product_code.
  change ("." +:+ e) with (String "." e). split.
  - destruct (stem_suffix_of a e) as [-> _]; try assumption.
    rewrite (split_without_sep _ _ Ha). reflexivity.
  - destruct (stem_suffix_of (a +:+ "_" +:+ b) e) as [-> _]; try assumption.
    { rewrite contains_append. change ("_" +:+ b) with (String "_" b). cbn.
      rewrite Hsa, Hsb. reflexivity. }
    { destruct a; discriminate. }
    change ("_" +:+ b) with (String "_" b).
    rewrite (split_append _ _ _ Ha), (split_without_sep _ _ Hb). reflexivity.
Qed.

(** C6, as the code has it. The stem of the file name is split on [_]: with
    three parts or more the first three are the product code, the type and
    the version - so ["ABC123_FRONT_01.jpg"] decomposes into
    [("ABC123", "FRONT", "01")], as does every [CODE_TYPE_VERSION.ext] - and
    with fewer [extract_product_code] raises a [ValueError] that says what
    the name must look like. [process_file] has no handler for it: for a
    new file with a valid extension and such a name it raises that
    [ValueError] before any collaborator is called and returns no outcome,
    skipped or other. The loop reads the exception from the file's future
    without raising and counts the file as failed: one failure on the
    breaker, and the text in the dead-letter file when that write goes
    through. *)
Theorem filename_decomposition
    (cfg : Daemon.settings) (drive_id : string) (it : item) (w : world) (s : Daemon.t) :
  extract_product_code "ABC123_FRONT_01.jpg" = Ret ("ABC123", "FRONT", "01")%string
  /\ (forall filename,
        extract_product_code filename
        = match PyString.split "_" (PyPath.stem filename) with
          | p0 :: p1 :: p2 :: _ => Ret (p0, p1, p2)
          | _ => Raise (Exn "ValueError" "Filename must be PRODUCTCODE_TYPE_VERSION.ext")
          end)
  /\ (forall code kind version ext,
        PyString.contains "_" code = false ->
        PyString.contains "_" kind = false ->
        PyString.contains "_" version = false ->
        PyString.contains "/" (code +:+ "_" +:+ kind +:+ "_" +:+ version) = false ->
        PyString.contains "/" ext = false -> PyString.contains "." ext = false ->
        ext <> ""%string ->
        extract_product_code ((code +:+ "_" +:+ kind +:+ "_" +:+ version) +:+ "." +:+ ext)
        = Ret (code, kind, version))
  /\ (forall a b ext,
        PyString.contains "_" a = false -> PyString.contains "_" b = false ->
        PyString.contains "/" a = false -> PyString.contains "/" b = false ->
        a <> ""%string ->
        PyString.contains "/" ext = false -> PyString.contains "." ext = false ->
        ext <> ""%string ->
        extract_product_code (a +:+ "." +:+ ext)
        = Raise (Exn "ValueError" "Filename must be PRODUCTCODE_TYPE_VERSION.ext")
        /\ extract_product_code ((a +:+ "_" +:+ b) +:+ "." +:+ ext)
           = Raise (Exn "ValueError" "Filename must be PRODUCTCODE_TYPE_VERSION.ext"))
  /\ (processed (Daemon.processor s) !! name_of it = None ->
      validate_file it = true ->
      (length (PyString.split "_"%char (PyPath.stem (name_of it))) < 3)%nat ->
      process_file lib drive_id it w (Daemon.processor s)
      = (Raise (Exn "ValueError" "Filename must be PRODUCTCODE_TYPE_VERSION.ext"),
         Daemon.processor s, [])
      /\ (forall a,
            res_of (Daemon.handle_future
                      (res_of (process_file lib drive_id it w (Daemon.processor s))) a s)
            = Ret tt
            /\ Daemon.failed_file_counted
                 (Exn "ValueError" "Filename must be PRODUCTCODE_TYPE_VERSION.ext") a s
                 (state_of (Daemon.handle_future
                              (res_of (process_file lib drive_id it w (Daemon.processor s)))
                              a s)))
      /\ (forall tw,
            0 < Daemon.batch_size cfg ->
            Daemon.should_poll cfg s (Daemon.now tw) = true ->
            Daemon.resolve_result tw = Ret drive_id ->
            Daemon.list_result tw = Ret [it] ->
            Daemon.fw_world (Daemon.file_worlds tw 0) = w ->
            res_of (Daemon.tick cfg lib tw s) = Ret tt
            /\ Daemon.failed_file_counted
                 (Exn "ValueError" "Filename must be PRODUCTCODE_TYPE_VERSION.ext")
                 (Daemon.fw_dl (Daemon.file_worlds tw 0)) s
                 (state_of (Daemon.tick cfg lib tw s)))).
Proof.
  split; [reflexivity|]. split; [|split; [|split]].
  - intros filename. unfold extract_product_code.
    destruct (PyString.split "_" (PyPath.stem filename)) as [|p0 [|p1 [|p2 r]]];
      reflexivity.
  - intros code kind version ext Hc Hk Hv Hslash Hes Hed Hee.
    unfold extract_product_code. change ("." +:+ ext) with (String "." ext).
    destruct (stem_suffix_of (code +:+ "_" +:+ kind +:+ "_" +:+ version) ext) as [-> _];
      try assumption.
    { destruct code; discriminate. }
    change ("_" +:+ kind +:+ "_" +:+ version)
      with (String "_" (kind +:+ "_" +:+ version)).
    rewrite (split_append _ _ _ Hc).
    change ("_" +:+ version) with (String "_" version).
    rewrite (split_append _ _ _ Hk), (split_without_sep _ _ Hv). reflexivity.
  - intros a b ext. apply short_stem_raises.
  - intros Hn Hv Hl.
    rewrite (process_file_malformed_name lib drive_id it w _ Hn Hv Hl).
    split; [reflexivity|]. split.
    + intros a. cbn [res_of fst].
      destruct (handle_future_raise_fields
                  (Exn "ValueError" "Filename must be PRODUCTCODE_TYPE_VERSION.ext") a s)
        as (Hr & _ & _ & Hf).
      split; assumption.
    + intros tw Hb Hp Hres Hlist <-. apply should_poll_open in Hp.
      apply (tick_one_file_raises cfg lib tw s drive_id it); try assumption.
      * rewrite (process_file_malformed_name lib drive_id it _ _ Hn Hv Hl). reflexivity.
      * rewrite (process_file_malformed_name lib drive_id it _ _ Hn Hv Hl). reflexivity.
Qed.

(** C2, as the code has it. [process_file] has no handler of its own: when
    the download or the upload raises, [process_file] raises that very
    exception, the ledger untouched; errors of the association and of the
    ledger write are swallowed inside it.  The exception stays in the
    file's future and is handled where the loop reads the future: the file
    is counted as processed and as failed, the breaker counts one failure,
    and the error text (not the file name) goes to the dead-letter file
    when that write goes through.  Neither the fan-in nor the iteration
    ever raises. *)
Theorem pipeline_errors_are_caught_at_fan_in
    (cfg : Daemon.settings) (drive_id : string) (it : item) (w : world) (s : Daemon.t) :
  (forall e,
      processed (Daemon.processor s) !! name_of it = None ->
      validate_file it = true ->
      is_raise (extract_product_code (name_of it)) = false ->
      download_result w = Raise e
      \/ (exists stream, download_result w = Ret stream /\ upload_result w = Raise e) ->
      res_of (process_file lib drive_id it w (Daemon.processor s)) = Raise e
      /\ state_of (process_file lib drive_id it w (Daemon.processor s))
         = Daemon.processor s
      /\ (forall tw,
            0 < Daemon.batch_size cfg ->
            Daemon.should_poll cfg s (Daemon.now tw) = true ->
            Daemon.resolve_result tw = Ret drive_id ->
            Daemon.list_result tw = Ret [it] ->
            Daemon.fw_world (Daemon.file_worlds tw 0) = w ->
            res_of (Daemon.tick cfg lib tw s) = Ret tt
            /\ Daemon.failed_file_counted e (Daemon.fw_dl (Daemon.file_worlds tw 0)) s
                 (state_of (Daemon.tick cfg lib tw s))))
  /\ (forall stream result,
      processed (Daemon.processor s) !! name_of it = None ->
      validate_file it = true ->
      is_raise (extract_product_code (name_of it)) = false ->
      download_result w = Ret stream ->
      upload_result w = Ret result ->
      exists c, res_of (process_file lib drive_id it w (Daemon.processor s))
                = Ret (Success (asset_id_of result) (name_of it) c))
  /\ (forall e a s0,
      res_of (Daemon.handle_future (Raise e) a s0) = Ret tt
      /\ trace_of (Daemon.handle_future (Raise e) a s0)
         = Daemon.DeadLetterMkdir
             :: (if Daemon.dl_mkdir_ok a then [Daemon.DeadLetterOpen] else [])
      /\ Daemon.circuit_open_until (state_of (Daemon.handle_future (Raise e) a s0))
         = Daemon.circuit_open_until s0
      /\ Daemon.failed_file_counted e a s0
           (state_of (Daemon.handle_future (Raise e) a s0)))
  /\ (forall futures s0, res_of (Daemon.fan_in futures s0) = Ret tt)
  /\ (forall tw s0, res_of (Daemon.tick cfg lib tw s0) = Ret tt).
Proof.
  assert (forall e,
      processed (Daemon.processor s) !! name_of it = None ->
      validate_file it = true ->
      is_raise (extract_product_code (name_of it)) = false ->
      download_result w = Raise e
      \/ (exists stream, download_result w = Ret stream /\ upload_result w = Raise e) ->
      res_of (process_file lib drive_id it w (Daemon.processor s)) = Raise e
      /\ state_of (process_file lib drive_id it w (Daemon.processor s))
         = Daemon.processor s) as Hraise.
  { intros e Hn Hv Hx Hd. rewrite process_file_eq. cbv zeta.
    rewrite bool_decide_eq_false_2 by (rewrite Hn; intros [x Hx']; discriminate).
    rewrite Hv. cbn [negb].
    destruct (extract_product_code _) as [[[c ty] ver]|e']; [|discriminate].
    destruct Hd as [Hd|(stream & Hd & Hu)]; rewrite Hd; [split; reflexivity|].
    rewrite Hu. split; reflexivity. }
  split; [|split; [|split; [|split]]].
  - intros e Hn Hv Hx Hd. destruct (Hraise e Hn Hv Hx Hd) as [Hres Hst].
    split; [exact Hres|]. split; [exact Hst|].
    intros tw Hb Hp Hr Hl Hw. apply should_poll_open in Hp. subst w.
    apply (tick_one_file_raises cfg lib tw s drive_id it); assumption.
  - intros stream result Hn Hv Hx Hd Hu. rewrite process_file_eq. cbv zeta.
    rewrite bool_decide_eq_false_2 by (rewrite Hn; intros [x Hx']; discriminate).
    rewrite Hv. cbn [negb].
    destruct (extract_product_code _) as [[[c ty] ver]|e']; [|discriminate].
    rewrite Hd, Hu. exists c. reflexivity.
  - intros. apply handle_future_raise_fields.
  - intros. apply fan_in_returns.
  - intros. apply tick_returns.
Qed.

End PipelineClaims.

(** C2, as stated: the download of a well-named new file answers 503, and
    [process_file] raises instead of returning an outcome. *)
Lemma process_file_raises_on_download_error :
  FileProcessor.process_file Fixtures.toy_lib "drive" Fixtures.abc_item
    Fixtures.download_down Fixtures.fresh_processor
  = (Raise (Exn "HTTPError" "503 Server Error"), Fixtures.fresh_processor,
     [FileProcessor.DownloadFileStream "drive" "id-1"])
  /\ forall o : FileProcessor.outcome,
      res_of (FileProcessor.process_file Fixtures.toy_lib "drive" Fixtures.abc_item
                Fixtures.download_down Fixtures.fresh_processor) <> Ret o.
Proof. split; [vm_compute; reflexivity|]. intros o. vm_compute. discriminate. Qed.

(** C6, as stated: for ["bad.jpg"], a new file with a valid extension,
    [process_file] returns no outcome at all - it raises. *)
Lemma malformed_name_raises_out_of_process_file :
  FileProcessor.validate_file Fixtures.bad_item = true
  /\ FileProcessor.process_file Fixtures.toy_lib "drive" Fixtures.bad_item
       Fixtures.dummy_world Fixtures.fresh_processor
     = (Raise (Exn "ValueError" "Filename must be PRODUCTCODE_TYPE_VERSION.ext"),
        Fixtures.fresh_processor, [])
  /\ forall o : FileProcessor.outcome,
      res_of (FileProcessor.process_file Fixtures.toy_lib "drive" Fixtures.bad_item
                Fixtures.dummy_world Fixtures.fresh_processor) <> Ret o.
Proof.
  split; [vm_compute; reflexivity|]. split; [vm_compute; reflexivity|].
  intros o. vm_compute. discriminate.
Qed.

Lemma filename_decomposition_witness :
  FileProcessor.process_file Fixtures.toy_lib "drive" Fixtures.bad_item
    Fixtures.dummy_world Fixtures.fresh_processor
  = (Raise (Exn "ValueError" "Filename must be PRODUCTCODE_TYPE_VERSION.ext"),
     Fixtures.fresh_processor, [])
  /\ Daemon.FILES_FAILED
       (state_of (Daemon.tick Fixtures.default_settings Fixtures.toy_lib
                    (Fixtures.one_file_tick Fixtures.bad_item Fixtures.dummy_world 10 12)
                    (Daemon.start Fixtures.fresh_processor)))
     = 0 + 1
  /\ Daemon.dead_letters
       (state_of (Daemon.tick Fixtures.default_settings Fixtures.toy_lib
                    (Fixtures.one_file_tick Fixtures.bad_item Fixtures.dummy_world 10 12)
                    (Daemon.start Fixtures.fresh_processor)))
     = [{| Daemon.dl_error := "Filename must be PRODUCTCODE_TYPE_VERSION.ext";
           Daemon.dl_time := 11 |}].
Proof.
  destruct (filename_decomposition Fixtures.toy_lib Fixtures.default_settings "drive"
              Fixtures.bad_item Fixtures.dummy_world
              (Daemon.start Fixtures.fresh_processor))
    as (_ & _ & _ & _ & H).
  destruct H as (Hraise & _ & Htick).
  - vm_compute. reflexivity.
  - vm_compute. reflexivity.
  - vm_compute. lia.
  - split; [exact Hraise|].
    destruct (Htick (Fixtures.one_file_tick Fixtures.bad_item Fixtures.dummy_world 10 12))
      as (_ & Hc).
    + vm_compute. reflexivity.
    + vm_compute. reflexivity.
    + reflexivity.
    + reflexivity.
    + reflexivity.
    + destruct Hc as (_ & _ & Hfailed & _ & _ & Hdl). split; [exact Hfailed|exact Hdl].
Defined.

Lemma pipeline_errors_are_caught_at_fan_in_witness :
  res_of (FileProcessor.process_file Fixtures.toy_lib "drive" Fixtures.abc_item
            Fixtures.upload_down Fixtures.fresh_processor)
  = Raise (Exn "HTTPError" "503 Server Error")
  /\ Daemon.FILES_FAILED
       (state_of (Daemon.tick Fixtures.default_settings Fixtures.toy_lib
                    (Fixtures.one_file_tick Fixtures.abc_item Fixtures.upload_down 10 12)
                    (Daemon.start Fixtures.fresh_processor)))
     = 0 + 1
  /\ Daemon.failure_count
       (state_of (Daemon.tick Fixtures.default_settings Fixtures.toy_lib
                    (Fixtures.one_file_tick Fixtures.abc_item Fixtures.upload_down 10 12)
                    (Daemon.start Fixtures.fresh_processor)))
     = 0 + 1
  /\ Daemon.dead_letters
       (state_of (Daemon.tick Fixtures.default_settings Fixtures.toy_lib
                    (Fixtures.one_file_tick Fixtures.abc_item Fixtures.upload_down 10 12)
                    (Daemon.start Fixtures.fresh_processor)))
     = [{| Daemon.dl_error := "503 Server Error"; Daemon.dl_time := 11 |}].
Proof.
  destruct (pipeline_errors_are_caught_at_fan_in Fixtures.toy_lib
              Fixtures.default_settings "drive" Fixtures.abc_item
              Fixtures.upload_down (Daemon.start Fixtures.fresh_processor))
    as (H & _).
  destruct (H (Exn "HTTPError" "503 Server Error")) as (Hres & _ & Htick).
  - vm_compute. reflexivity.
  - vm_compute. reflexivity.
  - vm_compute. reflexivity.
  - right. exists "data"%string. split; reflexivity.
  - split; [exact Hres|].
    destruct (Htick (Fixtures.one_file_tick Fixtures.abc_item Fixtures.upload_down 10 12))
      as (_ & Hc).
    + vm_compute. reflexivity.
    + vm_compute. reflexivity.
    + reflexivity.
    + reflexivity.
    + reflexivity.
    + destruct Hc as (_ & _ & Hfailed & Hfc & _ & Hdl).
      split; [exact Hfailed|]. split; [exact Hfc|exact Hdl].
Defined.

(** ** The listing filter and the processor's validation *)

Section Listing.

Import PyString.

Lemma length_substring (s : string) (n m : nat) :
  (n + m <= String.length s)%nat -> String.length (String.substring n m s) = m.
Proof.
  revert n m. induction s as [|x s IH]; intros n m H; cbn in H.
  - assert (n = 0%nat) as -> by lia. assert (m = 0%nat) as -> by lia. reflexivity.
  - destruct n as [|n]; cbn.
    + destruct m as [|m]; [reflexivity|]. cbn. f_equal. apply IH. lia.
    + apply IH. lia.
Qed.

Lemma substring_split (s : string) (i : nat) :
  (i <= String.length s)%nat ->
  String.substring 0 i s +:+ String.substring i (String.length s - i) s = s.
Proof.
  revert i. induction s as [|x s IH]; intros i H; cbn in H.
  - assert (i = 0%nat) as -> by lia. reflexivity.
  - destruct i as [|i].
    + cbn [String.substring]. rewrite append_empty_l.
      change (String.length (String x s) - 0)%nat with (S (String.length s)).
      cbn [String.substring]. f_equal. apply substring_all.
    + cbn [String.substring String.length Nat.sub]. rewrite append_cons. f_equal.
      apply IH. lia.
Qed.

Lemma endswith_drop_str (s : string) (i : nat) :
  (i <= String.length s)%nat -> endswith s (drop_str i s) = true.
Proof.
  intros H. unfold endswith, drop_str.
  rewrite length_substring by lia.
  replace (String.length s - (String.length s - i))%nat with i by lia.
  rewrite String.eqb_refl, andb_true_r. apply Nat.leb_le. lia.
Qed.

Lemma endswith_split (s suf : string) :
  endswith s suf = true ->
  s = take_str (String.length s - String.length suf) s +:+ suf.
Proof.
  unfold endswith. intros H. apply andb_true_iff in H as [Hl He].
  apply Nat.leb_le in Hl. apply String.eqb_eq in He.
  assert (take_str (String.length s - String.length suf) s
          +:+ drop_str (String.length s - String.length suf) s = s) as Hs.
  { unfold take_str, drop_str. apply substring_split. lia. }
  rewrite He in Hs. symmetry. exact Hs.
Qed.

Lemma lower_ascii_slash (a : ascii) :
  Ascii.eqb (lower_ascii a) "/" = Ascii.eqb a "/".
Proof. destruct a as [[] [] [] [] [] [] [] []]; reflexivity. Qed.

Lemma lower_contains_slash (s : string) : contains "/" (lower s) = contains "/" s.
Proof.
  induction s as [|x s IH]; cbn; [reflexivity|].
  rewrite lower_ascii_slash, IH. reflexivity.
Qed.

Lemma drop_str_all (n : string) : drop_str (String.length n) n = ""%string.
Proof.
  unfold drop_str. induction n as [|x n IH]; [reflexivity|].
  cbn [String.length Nat.sub String.substring]. exact IH.
Qed.

Lemma endswith_empty (n : string) : endswith n "" = true.
Proof.
  pose proof (endswith_drop_str n (String.length n) (le_n _)) as H.
  rewrite drop_str_all in H. exact H.
Qed.

(** The suffix of a name is an ending of the name. *)
Lemma endswith_suffix (n : string) :
  contains "/" n = false -> endswith n (PyPath.suffix n) = true.
Proof.
  intros Hs. unfold PyPath.suffix.
  destruct (String.eqb_spec n "") as [->|Hne]; [reflexivity|].
  destruct (String.eqb_spec n ".") as [->|Hnd]; [reflexivity|].
  rewrite (name_without_slash n Hs Hne Hnd).
  unfold PyPath.suffix_dot. destruct (rfind "." n) as [i|].
  - destruct (_ && _) eqn:E.
    + apply andb_true_iff in E as [_ E]. apply Nat.ltb_lt in E.
      apply endswith_drop_str. lia.
    + apply endswith_empty.
  - apply endswith_empty.
Qed.

(** A name that ends with one of the default extensions and is more than
    that extension has it as its suffix. *)
Lemma suffix_of_ending (n ext : string) :
  contains "/" n = false ->
  In ext SharePointConnector.DEFAULT_EXTENSIONS ->
  n <> ext ->
  endswith n ext = true ->
  PyPath.suffix n = ext.
Proof.
  intros Hs Hin Hne He. pose proof (endswith_split n ext He) as Hn.
  set (pre := take_str (String.length n - String.length ext) n) in *.
  assert (pre <> ""%string) as Hpre.
  { intros Hp. apply Hne. rewrite Hn, Hp. reflexivity. }
  assert (contains "/" pre = false) as Hps.
  { rewrite Hn, contains_append in Hs. apply orb_false_iff in Hs as [Hs _]. exact Hs. }
  rewrite Hn. clearbody pre. clear Hn He Hne Hs.
  cbn in Hin.
  destruct Hin as [<-|[<-|[<-|[<-|[<-|[]]]]]];
    apply (stem_suffix_of pre); auto; discriminate.
Qed.

Lemma existsb_endswith_iff (n : string) :
  List.existsb (endswith n) SharePointConnector.DEFAULT_EXTENSIONS = true
  <-> exists ext, In ext SharePointConnector.DEFAULT_EXTENSIONS /\ endswith n ext = true.
Proof. apply List.existsb_exists. Qed.

Lemma image_extension_iff (x : string) :
  x ∈ FileProcessor.IMAGE_EXTENSIONS <-> In x SharePointConnector.DEFAULT_EXTENSIONS.
Proof.
  unfold FileProcessor.IMAGE_EXTENSIONS, SharePointConnector.DEFAULT_EXTENSIONS.
  cbn [In]. set_unfold. intuition congruence.
Qed.

(** X11. The filter of the listing and the validation of the processor
    agree on every file whose name has no slash, except on a name that is
    nothing but an allowed extension (such as [.jpg]): the listing keeps
    such a file, the processor answers [invalid_extension] for it. *)
Theorem listing_filter_and_validation (it : FileProcessor.item) :
  contains "/" (default ""%string (FileProcessor.item_name it)) = false ->
  FileProcessor.validate_file it
  = SharePointConnector.wanted SharePointConnector.DEFAULT_EXTENSIONS
      {| SharePointConnector.c_item := it; SharePointConnector.c_is_file := true |}
    && negb (bool_decide
               (lower (default ""%string (FileProcessor.item_name it))
                ∈ SharePointConnector.DEFAULT_EXTENSIONS)).
Proof.
  intros Hs. unfold FileProcessor.validate_file, SharePointConnector.wanted.
  cbn [SharePointConnector.c_is_file SharePointConnector.c_item andb].
  rewrite <- lower_contains_slash in Hs.
  set (n := lower (default ""%string (FileProcessor.item_name it))) in *.
  clearbody n.
  destruct (decide (n ∈ SharePointConnector.DEFAULT_EXTENSIONS)) as [Hin|Hnin].
  - rewrite (bool_decide_eq_true_2 _ Hin), andb_false_r.
    apply list_elem_of_In in Hin. cbn in Hin.
    destruct Hin as [<-|[<-|[<-|[<-|[<-|[]]]]]]; vm_compute; reflexivity.
  - rewrite (bool_decide_eq_false_2 _ Hnin), andb_true_r.
    apply Bool.eq_iff_eq_true. rewrite bool_decide_eq_true, existsb_endswith_iff.
    rewrite image_extension_iff. split.
    + intros Hin. exists (PyPath.suffix n). split; [exact Hin|].
      apply endswith_suffix. exact Hs.
    + intros (ext & Hin & He).
      rewrite (suffix_of_ending n ext Hs Hin); [exact Hin| |exact He].
      intros ->. apply Hnin. apply list_elem_of_In. exact Hin.
Qed.

Lemma map_filter_sublist {A B} (f : A -> B) (g : A -> bool) (l : list A) :
  List.map f (List.filter g l) `sublist_of` List.map f l.
Proof.
  induction l as [|x l IH]; cbn; [constructor|].
  destruct (g x); cbn; [apply sublist_skip|apply sublist_cons]; exact IH.
Qed.

(** X12. [list_new_files] returns, in the order of the folder, exactly the
    children that are files and whose lower-cased name ends with an allowed
    extension; it raises what the resolution, the token or the request
    raises, and asks for the children only after both have gone through. *)
Theorem list_new_files_result
    (allowed : option (list string)) (w : SharePointConnector.answers) (u : unit) :
  match SharePointConnector.resolve_answer w,
        SharePointConnector.headers_answer w,
        SharePointConnector.children_answer w with
  | Raise e, _, _ =>
      SharePointConnector.list_new_files allowed w u
      = (Raise e, u, [SharePointConnector.ResolveDriveAndItem])
  | Ret _, Raise e, _ =>
      SharePointConnector.list_new_files allowed w u
      = (Raise e, u, [SharePointConnector.ResolveDriveAndItem; SharePointConnector.Headers])
  | Ret ids, Ret _, Raise e =>
      SharePointConnector.list_new_files allowed w u
      = (Raise e, u,
         [SharePointConnector.ResolveDriveAndItem; SharePointConnector.Headers;
          SharePointConnector.GetChildren ids.1 ids.2])
  | Ret ids, Ret _, Ret items =>
      exists files,
        SharePointConnector.list_new_files allowed w u
        = (Ret files, u,
           [SharePointConnector.ResolveDriveAndItem; SharePointConnector.Headers;
            SharePointConnector.GetChildren ids.1 ids.2])
        /\ files `sublist_of` List.map SharePointConnector.c_item items
        /\ (forall c, c ∈ items ->
              SharePointConnector.wanted
                (default SharePointConnector.DEFAULT_EXTENSIONS allowed) c = true ->
              SharePointConnector.c_item c ∈ files)
        /\ (forall f, f ∈ files ->
              exists c, c ∈ items /\ SharePointConnector.c_item c = f
                        /\ SharePointConnector.c_is_file c = true
                        /\ List.existsb
                             (endswith (lower (default ""%string (FileProcessor.item_name f))))
                             (default SharePointConnector.DEFAULT_EXTENSIONS allowed) = true)
  end.
Proof.
  unfold SharePointConnector.list_new_files. run_prog. destruct u.
  destruct (SharePointConnector.resolve_answer w) as [ids|e]; [|reflexivity].
  destruct (SharePointConnector.headers_answer w) as [[]|e]; [|reflexivity].
  destruct (SharePointConnector.children_answer w) as [items|e]; [|reflexivity].
  eexists. split; [reflexivity|]. split; [|split].
  - apply map_filter_sublist.
  - intros c Hc Hw. apply list_elem_of_In. apply List.in_map.
    apply List.filter_In. split; [apply list_elem_of_In; exact Hc|exact Hw].
  - intros f Hf. apply list_elem_of_In in Hf. apply List.in_map_iff in Hf as (c & <- & Hc).
    apply List.filter_In in Hc as [Hc Hw]. exists c.
    split; [apply list_elem_of_In; exact Hc|]. split; [reflexivity|].
    unfold SharePointConnector.wanted in Hw. apply andb_true_iff in Hw as [H1 H2].
    split; assumption.
Qed.

End Listing.

(** ** The properties above, on concrete inputs *)

Lemma counters_stay_consistent_witness :
  Daemon.FILES_SUCCEEDED (Daemon.start Fixtures.fresh_processor)
  <= Daemon.FILES_SUCCEEDED
       (state_of (Daemon.loop Fixtures.small_batch Fixtures.toy_lib
                    [(false, Fixtures.busy_tick 0 1)]
                    (Daemon.start Fixtures.fresh_processor)))
  /\ Daemon.FILES_FAILED (Daemon.start Fixtures.fresh_processor)
     <= Daemon.FILES_FAILED
          (state_of (Daemon.loop Fixtures.small_batch Fixtures.toy_lib
                       [(false, Fixtures.busy_tick 0 1)]
                       (Daemon.start Fixtures.fresh_processor)))
  /\ Daemon.FILES_PROCESSED (Daemon.start Fixtures.fresh_processor)
     <= Daemon.FILES_PROCESSED
          (state_of (Daemon.loop Fixtures.small_batch Fixtures.toy_lib
                       [(false, Fixtures.busy_tick 0 1)]
                       (Daemon.start Fixtures.fresh_processor)))
  /\ Daemon.FILES_SUCCEEDED
       (state_of (Daemon.loop Fixtures.small_batch Fixtures.toy_lib
                    [(false, Fixtures.busy_tick 0 1)]
                    (Daemon.start Fixtures.fresh_processor)))
     + Daemon.FILES_FAILED
         (state_of (Daemon.loop Fixtures.small_batch Fixtures.toy_lib
                      [(false, Fixtures.busy_tick 0 1)]
                      (Daemon.start Fixtures.fresh_processor)))
     <= Daemon.FILES_PROCESSED
          (state_of (Daemon.loop Fixtures.small_batch Fixtures.toy_lib
                       [(false, Fixtures.busy_tick 0 1)]
                       (Daemon.start Fixtures.fresh_processor))).
Proof.
  apply (counters_stay_consistent Fixtures.small_batch Fixtures.toy_lib
           [(false, Fixtures.busy_tick 0 1)] (Daemon.start Fixtures.fresh_processor)).
  cbn. lia.
Defined.

Lemma batch_is_capped_witness :
  Daemon.FILES_PROCESSED
    (state_of (Daemon.tick Fixtures.small_batch Fixtures.toy_lib
                 (Fixtures.busy_tick 0 1) (Daemon.start Fixtures.fresh_processor)))
  = Daemon.FILES_PROCESSED (Daemon.start Fixtures.fresh_processor)
    + Z.of_nat (Nat.min (Z.to_nat (Daemon.batch_size Fixtures.small_batch))
                  (length [Fixtures.abc_item; Fixtures.bad_item; Fixtures.abc_item])).
Proof.
  apply (batch_is_capped Fixtures.small_batch Fixtures.toy_lib
           (Fixtures.busy_tick 0 1) (Daemon.start Fixtures.fresh_processor) "drive").
  - cbn. lia.
  - vm_compute. reflexivity.
  - reflexivity.
  - reflexivity.
Defined.

Lemma breaker_opens_after_threshold_failures_witness :
  let s' := state_of (Daemon.loop Fixtures.default_settings Fixtures.toy_lib
                        (map (pair false)
                           ([Fixtures.broken_tick 0 1;
                             Fixtures.one_file_tick Fixtures.abc_item Fixtures.upload_down 10 12;
                             Fixtures.one_file_tick Fixtures.bad_item Fixtures.dummy_world 20 22;
                             Fixtures.quiet_tick 30 31;
                             Fixtures.broken_tick 40 41]
                            ++ [Fixtures.broken_tick 50 51]))
                        (Daemon.start Fixtures.fresh_processor)) in
  Daemon.failure_count s' = 5
  /\ Daemon.circuit_open_until s' = 51 + 60
  /\ Daemon.should_poll Fixtures.default_settings s' 110 = false
  /\ (exists timeout,
        Daemon.tick Fixtures.default_settings Fixtures.toy_lib
          (Fixtures.quiet_tick 110 111) s'
        = (Ret tt, s', [Daemon.Wait timeout])).
Proof.
  destruct (breaker_opens_after_threshold_failures Fixtures.default_settings
              Fixtures.toy_lib
              [Fixtures.broken_tick 0 1;
               Fixtures.one_file_tick Fixtures.abc_item Fixtures.upload_down 10 12;
               Fixtures.one_file_tick Fixtures.bad_item Fixtures.dummy_world 20 22;
               Fixtures.quiet_tick 30 31;
               Fixtures.broken_tick 40 41]
              (Fixtures.broken_tick 50 51) (Fixtures.quiet_tick 110 111)
              (Daemon.start Fixtures.fresh_processor))
    as (Hfc & Hou & Hgated & _).
  - vm_compute. reflexivity.
  - reflexivity.
  - vm_compute. reflexivity.
  - vm_compute. reflexivity.
  - vm_compute. reflexivity.
  - cbv zeta. split; [exact Hfc|]. split; [exact Hou|].
    destruct Hgated as (Hsp & timeout & Ht & _).
    + rewrite Hou. vm_compute. reflexivity.
    + split; [exact Hsp|]. exists timeout. exact Ht.
Defined.

Lemma breaker_opens_after_failing_ticks_witness :
  let s' := state_of (Daemon.loop Fixtures.default_settings Fixtures.toy_lib
                        (map (pair false) Fixtures.outage)
                        (Daemon.start Fixtures.fresh_processor)) in
  Daemon.failure_count s' = Daemon.circuit_threshold Fixtures.default_settings
  /\ Daemon.circuit_open_until s'
     = Daemon.end_time (Fixtures.broken_tick 40 41)
       + Daemon.circuit_reset_seconds Fixtures.default_settings
  /\ exists timeout,
       Daemon.tick Fixtures.default_settings Fixtures.toy_lib (Fixtures.quiet_tick 50 51) s'
       = (Ret tt, s', [Daemon.Wait timeout])
       /\ timeout <= Daemon.poll_interval Fixtures.default_settings
       /\ timeout <= Daemon.end_time (Fixtures.broken_tick 40 41)
                     + Daemon.circuit_reset_seconds Fixtures.default_settings
                     - Daemon.now (Fixtures.quiet_tick 50 51).
Proof.
  apply (breaker_opens_after_failing_ticks Fixtures.default_settings Fixtures.toy_lib
           Fixtures.outage (Fixtures.broken_tick 40 41) (Fixtures.quiet_tick 50 51)
           (Daemon.start Fixtures.fresh_processor)).
  - cbn. lia.
  - reflexivity.
  - reflexivity.
  - repeat constructor; exists (Exn "HTTPError" "404 Not Found"); left; reflexivity.
  - reflexivity.
  - cbn. lia.
Defined.

Lemma refresh_caches_until_expiry_witness :
  res_of (AzureAuthenticator.get_access_token Fixtures.no_float 0 Fixtures.dummy_app
            (AzureAuthenticator.init 60))
  = Ret (PStr "test")
  /\ AzureAuthenticator._token_expiry_epoch
       (state_of (AzureAuthenticator.get_access_token Fixtures.no_float 0
                    Fixtures.dummy_app (AzureAuthenticator.init 60)))
     = 0 + 3600
  /\ AzureAuthenticator.get_access_token Fixtures.no_float 100 Fixtures.refusing_app
       (state_of (AzureAuthenticator.get_access_token Fixtures.no_float 0
                    Fixtures.dummy_app (AzureAuthenticator.init 60)))
     = (Ret (PStr "test"),
        state_of (AzureAuthenticator.get_access_token Fixtures.no_float 0
                    Fixtures.dummy_app (AzureAuthenticator.init 60)),
        []).
Proof.
  destruct (refresh_caches_until_expiry Fixtures.no_float 0 100 Fixtures.dummy_app
              Fixtures.refusing_app (AzureAuthenticator.init 60) Fixtures.test_token
              (PStr "test") 3600)
    as (Hres & Hst & Hexact & _ & _ & Hlater).
  - reflexivity.
  - vm_compute. reflexivity.
  - vm_compute. reflexivity.
  - vm_compute. reflexivity.
  - split; [exact Hres|]. split.
    + rewrite Hst. cbn [AzureAuthenticator._token_expiry_epoch].
      apply Hexact. vm_compute. reflexivity.
    + apply Hlater. vm_compute. reflexivity.
Defined.

Lemma failed_call_keeps_expiry_witness :
  AzureAuthenticator._token_expiry_epoch
    (state_of (AzureAuthenticator.get_access_token Fixtures.no_float 3590
                 Fixtures.overflowing_app Fixtures.warm_auth))
  = AzureAuthenticator._token_expiry_epoch Fixtures.warm_auth
  /\ AzureAuthenticator._cached_token
       (state_of (AzureAuthenticator.get_access_token Fixtures.no_float 3590
                    Fixtures.overflowing_app Fixtures.warm_auth))
     = Some (<["access_token"%string := PStr "test"]>
               (<["expires_in"%string := PInt (2 ^ 1024)]> ∅)).
Proof.
  destruct (failed_call_keeps_expiry Fixtures.no_float 3590 Fixtures.overflowing_app
              Fixtures.warm_auth
              (Exn "OverflowError" "int too large to convert to float"))
    as (He & _ & _ & Hover).
  - vm_compute. reflexivity.
  - split; [exact He|].
    apply (Hover (<["access_token"%string := PStr "test"]>
                    (<["expires_in"%string := PInt (2 ^ 1024)]> ∅)) (2 ^ 1024)).
    + vm_compute. reflexivity.
    + vm_compute. reflexivity.
    + exists (PStr "test"). vm_compute. reflexivity.
    + vm_compute. reflexivity.
    + vm_compute. discriminate.
Defined.

Lemma fresh_cache_always_returns_witness :
  AzureAuthenticator.cache_wf
    (state_of (AzureAuthenticator.get_access_token Fixtures.no_float 0 Fixtures.dummy_app
                 (AzureAuthenticator.init 60))).
Proof.
  apply (fresh_cache_always_returns Fixtures.no_float 0 Fixtures.dummy_app
           (AzureAuthenticator.init 60)).
  apply init_cache_wf.
Defined.

Lemma association_and_save_cannot_fail_a_file_witness :
  res_of (FileProcessor.process_file Fixtures.toy_lib "drive" Fixtures.abc_item
            Fixtures.flaky_world Fixtures.fresh_processor)
  = res_of (FileProcessor.process_file Fixtures.toy_lib "drive" Fixtures.abc_item
              Fixtures.dummy_world Fixtures.fresh_processor).
Proof.
  apply (association_and_save_cannot_fail_a_file Fixtures.toy_lib "drive"
           Fixtures.abc_item Fixtures.dummy_world Fixtures.flaky_world
           Fixtures.fresh_processor); reflexivity.
Defined.

Lemma ledger_changes_only_on_success_witness :
  FileProcessor.ledger_wf
    (FileProcessor.processed
       (state_of (FileProcessor.process_file Fixtures.toy_lib "drive" Fixtures.abc_item
                    Fixtures.dummy_world Fixtures.fresh_processor))).
Proof.
  apply (ledger_changes_only_on_success Fixtures.toy_lib "drive" Fixtures.abc_item
           Fixtures.dummy_world Fixtures.fresh_processor).
  intros n b H. change ((∅ : gmap string bool) !! n = Some b) in H.
  rewrite lookup_empty in H. discriminate.
Defined.

Lemma ledger_never_forgets_witness :
  is_Some
    (FileProcessor.processed
       (FileProcessor.process_all Fixtures.toy_lib
          [("drive"%string, Fixtures.bad_item, Fixtures.dummy_world);
           ("drive"%string, Fixtures.abc_item, Fixtures.upload_down)]
          (state_of (FileProcessor.process_file Fixtures.toy_lib "drive"
                       Fixtures.abc_item Fixtures.dummy_world
                       Fixtures.fresh_processor))).1.2
     !! "ABC123_FRONT_01.jpg"%string).
Proof.
  apply (ledger_never_forgets Fixtures.toy_lib).
  exists true. vm_compute. reflexivity.
Defined.

Lemma loaded_names_are_skipped_witness :
  FileProcessor.process_file Fixtures.one_name_lib "drive" Fixtures.abc_item
    Fixtures.dummy_world
    (state_of (FileProcessor.init Fixtures.one_name_lib (Content "[ABC123_FRONT_01.jpg]")))
  = (Ret (FileProcessor.Skipped "already_processed"
            (FileProcessor.name_of Fixtures.abc_item)),
     state_of (FileProcessor.init Fixtures.one_name_lib (Content "[ABC123_FRONT_01.jpg]")),
     []).
Proof.
  apply (loaded_names_are_skipped Fixtures.one_name_lib
           (Content "[ABC123_FRONT_01.jpg]") "drive" Fixtures.abc_item
           Fixtures.dummy_world).
  apply list_elem_of_In. left. reflexivity.
Defined.

Lemma saved_ledger_loads_back_witness :
  FileProcessor.processed
    (state_of
       (FileProcessor.init Fixtures.one_name_lib
          (FileProcessor.disk
             (state_of (FileProcessor.process_file Fixtures.one_name_lib "drive"
                          Fixtures.abc_item Fixtures.dummy_world
                          Fixtures.fresh_processor)))))
  = FileProcessor.processed
      (state_of (FileProcessor.process_file Fixtures.one_name_lib "drive"
                   Fixtures.abc_item Fixtures.dummy_world Fixtures.fresh_processor)).
Proof.
  apply (saved_ledger_loads_back Fixtures.one_name_lib "drive" Fixtures.abc_item
           Fixtures.dummy_world Fixtures.fresh_processor
           (PStr "asset123") "ABC123_FRONT_01.jpg" "ABC123").
  - intros n b H. change ((∅ : gmap string bool) !! n = Some b) in H.
    rewrite lookup_empty in H. discriminate.
  - vm_compute. reflexivity.
  - reflexivity.
  - vm_compute. discriminate.
  - vm_compute. reflexivity.
Defined.

Lemma extract_product_code_of_composed_name_witness :
  FileProcessor.extract_product_code
    (("ABC123" +:+ "_" +:+ "FRONT" +:+ "_" +:+ "01" +:+ "_hires") +:+ "." +:+ "jpg")
  = Ret ("ABC123", "FRONT", "01")%string.
Proof.
  apply (extract_product_code_of_composed_name "ABC123" "FRONT" "01" "_hires" "jpg");
    try reflexivity.
  - right. exists "hires"%string. reflexivity.
  - discriminate.
Defined.

Lemma listing_filter_and_validation_witness :
  FileProcessor.validate_file Fixtures.dot_jpg
  = SharePointConnector.wanted SharePointConnector.DEFAULT_EXTENSIONS
      {| SharePointConnector.c_item := Fixtures.dot_jpg;
         SharePointConnector.c_is_file := true |}
    && negb (bool_decide
               (PyString.lower
                  (default ""%string (FileProcessor.item_name Fixtures.dot_jpg))
                ∈ SharePointConnector.DEFAULT_EXTENSIONS)).
Proof.
  apply (listing_filter_and_validation Fixtures.dot_jpg). reflexivity.
Defined.
